(** * works_on_work: the static site generator [build.js]

    A shallow embedding of [build.js] and the properties of its build
    pipeline: post loading and sorting, placeholder injection, the
    preparation of the output directory and the handling of missing or
    malformed inputs.

    Conventions of the embedding.
    - A JavaScript string is a Rocq [string]: the UTF-8 text of the value.
      Every string operation of the script (substring search, suffix test,
      JSON quoting, the dollar patterns of [replace]) works on ASCII
      delimiters, so it acts on the UTF-8 text as it does on the code units.
    - A value produced by [JSON.parse] is a [JSON] term; a number is kept as
      the text that [Number::toString] gives it.
    - The built-ins that the host supplies and the script only calls
      ([JSON.parse], [String.prototype.localeCompare], [toFixed]) are the
      fields of the class [Host].
    - The file system is a tree of named nodes; a directory lists its entries
      in the order [readdirSync] returns them. *)

From Stdlib Require Import String Ascii List ZArith Lia Bool Arith.
From Stdlib Require Import Permutation Sorted DecimalString.
Import ListNotations.

Local Open Scope list_scope.
Local Open Scope string_scope.

Set Implicit Arguments.
Set Warnings "-register-all".

(* ================================================================= *)
(** ** Strings *)

Module Str.

(** [s.startsWith(p)] *)
Fixpoint startsWith (s p : string) : bool :=
  match p, s with
  | EmptyString, _ => true
  | String _ _, EmptyString => false
  | String a p', String b s' => Ascii.eqb a b && startsWith s' p'
  end.

Fixpoint drop (n : nat) (s : string) : string :=
  match n, s with
  | O, _ => s
  | S _, EmptyString => EmptyString
  | S n', String _ s' => drop n' s'
  end.

Fixpoint take (n : nat) (s : string) : string :=
  match n, s with
  | O, _ => EmptyString
  | S _, EmptyString => EmptyString
  | S n', String a s' => String a (take n' s')
  end.

(** [s.endsWith(p)]: the last [p.length] characters of [s] are [p]. *)
Definition endsWith (s p : string) : bool :=
  Nat.leb (String.length p) (String.length s) &&
  String.eqb (drop (String.length s - String.length p) s) p.

(** StringIndexOf(s, search, 0) of ECMA-262: the smallest position at which
    [search] occurs in [s]. *)
Fixpoint indexOf (s search : string) : option nat :=
  if startsWith s search then Some O
  else match s with
       | EmptyString => None
       | String _ s' => option_map S (indexOf s' search)
       end.

(** [parts.join(sep)] *)
Fixpoint join (sep : string) (parts : list string) : string :=
  match parts with
  | [] => ""
  | [p] => p
  | p :: rest => p ++ sep ++ join sep rest
  end.

(** [t] occurs in [s] as a substring. *)
Definition occurs (t s : string) : Prop :=
  exists pre post, s = pre ++ t ++ post.

(** [s = pre ++ t ++ post] and no occurrence of [t] starts before the one
    at [length pre]. *)
Definition first_occurrence (t s pre post : string) : Prop :=
  s = pre ++ t ++ post /\
  forall pre' post', s = pre' ++ t ++ post' ->
                     String.length pre <= String.length pre'.

End Str.

(* ================================================================= *)
(** ** Values read from JSON documents *)

Inductive JSON : Type :=
| JNull
| JBool (b : bool)
| JNumber (repr : string)
| JString (s : string)
| JArray (elements : list JSON)
| JObject (members : list (string * JSON)).

(** Abrupt completions: the exception a statement throws. *)
Record exn : Type := Exn { exn_name : string; exn_message : string }.

Definition TypeError (msg : string) : exn := Exn "TypeError" msg.
Definition SyntaxError (msg : string) : exn := Exn "SyntaxError" msg.
Definition SystemError (msg : string) : exn := Exn "Error" msg.

Inductive result (A : Type) : Type :=
| OK (a : A)
| Throw (e : exn).
Arguments OK {A} a.
Arguments Throw {A} e.

Definition rbind {A B} (r : result A) (k : A -> result B) : result B :=
  match r with
  | OK a => k a
  | Throw e => Throw e
  end.

Module Value.

(** ToBoolean *)
Definition truthy (v : JSON) : bool :=
  match v with
  | JNull => false
  | JBool b => b
  | JNumber repr => negb (String.eqb repr "0" || String.eqb repr "NaN")
  | JString s => negb (String.eqb s "")
  | JArray _ => true
  | JObject _ => true
  end.

Fixpoint assoc {A} (k : string) (ms : list (string * A)) : option A :=
  match ms with
  | [] => None
  | (k', v) :: rest => if String.eqb k k' then Some v else assoc k rest
  end.

(** [v.name] for a property name that is neither an array index, nor
    ["length"], nor a property of a built-in prototype (the script reads
    [date] and [contact_email]).  [None] is [undefined]. *)
Definition Get (v : JSON) (name : string) : result (option JSON) :=
  match v with
  | JNull =>
      Throw (TypeError ("Cannot read properties of null (reading '"
                          ++ name ++ "')"))
  | JObject ms => OK (assoc name ms)
  | _ => OK None
  end.

(** [x || ''] where [x] may be [undefined]. *)
Definition or_empty (x : option JSON) : JSON :=
  match x with
  | Some v => if truthy v then v else JString ""
  | None => JString ""
  end.

(** ToString.  An array joins the strings of its elements, a [null]
    element giving the empty string; a plain object gives
    ["[object Object]"] unless an own [toString] member hides
    [Object.prototype.toString], in which case no primitive is reached. *)
Fixpoint ToString (v : JSON) : result string :=
  match v with
  | JNull => OK "null"
  | JBool true => OK "true"
  | JBool false => OK "false"
  | JNumber repr => OK repr
  | JString s => OK s
  | JArray l =>
      (fix elements (l : list JSON) : result string :=
         match l with
         | [] => OK ""
         | x :: rest =>
             rbind (match x with JNull => OK "" | _ => ToString x end)
               (fun sx =>
                  match rest with
                  | [] => OK sx
                  | _ => rbind (elements rest)
                           (fun sr => OK (sx ++ "," ++ sr))
                  end)
         end) l
  | JObject ms =>
      match assoc "toString" ms with
      | Some _ => Throw (TypeError "Cannot convert object to primitive value")
      | None => OK "[object Object]"
      end
  end.

End Value.

(* ================================================================= *)
(** ** [JSON.stringify(value, null, 2)] *)

Module Stringify.

Definition hex_digit (n : nat) : ascii :=
  match n with
  | 0 => "0" | 1 => "1" | 2 => "2" | 3 => "3" | 4 => "4" | 5 => "5"
  | 6 => "6" | 7 => "7" | 8 => "8" | 9 => "9" | 10 => "a" | 11 => "b"
  | 12 => "c" | 13 => "d" | 14 => "e" | _ => "f"
  end%char.

(** The escape of one character inside a JSON string literal. *)
Definition quote_char (c : ascii) : string :=
  let n := nat_of_ascii c in
  if Nat.eqb n 8 then "\b"
  else if Nat.eqb n 9 then "\t"
  else if Nat.eqb n 10 then "\n"
  else if Nat.eqb n 12 then "\f"
  else if Nat.eqb n 13 then "\r"
  else if Nat.eqb n 34 then String "\" (String (ascii_of_nat 34) "")
  else if Nat.eqb n 92 then "\\"
  else if Nat.ltb n 32 then
    "\u00" ++ String (hex_digit (n / 16)) (String (hex_digit (n mod 16)) "")
  else String c "".

Definition dquote : string := String (ascii_of_nat 34) "".

(** QuoteJSONString *)
Definition QuoteJSONString (s : string) : string :=
  dquote ++ String.concat "" (map quote_char (list_ascii_of_string s)) ++ dquote.

Definition newline : string := String (ascii_of_nat 10) "".

(** The [gap] of [JSON.stringify(_, null, 2)]. *)
Definition gap : string := "  ".

Definition non_finite (repr : string) : bool :=
  String.eqb repr "Infinity" || String.eqb repr "-Infinity"
  || String.eqb repr "NaN".

(** The text of a non-empty array or object: the parts, one per line at
    the inner indentation, between the brackets. *)
Definition wrap (open close indent : string) (partial : list string) : string :=
  let inner := indent ++ gap in
  open ++ newline ++ inner
    ++ Str.join ("," ++ newline ++ inner) partial
    ++ newline ++ indent ++ close.

(** SerializeJSONProperty at the current [indent]. *)
Fixpoint SerializeJSONProperty (indent : string) (v : JSON) : string :=
  match v with
  | JNull => "null"
  | JBool true => "true"
  | JBool false => "false"
  | JNumber repr => if non_finite repr then "null" else repr
  | JString s => QuoteJSONString s
  | JArray [] => "[]"
  | JArray l =>
      wrap "[" "]" indent (map (SerializeJSONProperty (indent ++ gap)) l)
  | JObject [] => "{}"
  | JObject ms =>
      wrap "{" "}" indent
        (map (fun m : string * JSON =>
                let (k, x) := m in
                QuoteJSONString k ++ ": "
                  ++ SerializeJSONProperty (indent ++ gap) x) ms)
  end.

(** [JSON.stringify(v, null, 2)] *)
Definition JSON_stringify (v : JSON) : string :=
  SerializeJSONProperty "" v.

End Stringify.

(* ================================================================= *)
(** ** [String.prototype.replace] with a string pattern *)

Module Replace.

(** GetSubstitution of ECMA-262 for a string pattern (no captures): in the
    replacement text, [$$] stands for a dollar sign, [$&] for the matched
    text, [$`] for the text before the match and [$'] for the text after
    it; every other character, and a dollar sign followed by anything
    else, stands for itself. *)
Fixpoint GetSubstitution (matched preceding following : string)
         (template : string) : string :=
  match template with
  | EmptyString => EmptyString
  | String c tl =>
      if Ascii.eqb c "$" then
        match tl with
        | EmptyString => String c EmptyString
        | String d rest =>
            if Ascii.eqb d "$" then
              String "$" (GetSubstitution matched preceding following rest)
            else if Ascii.eqb d "&" then
              matched ++ GetSubstitution matched preceding following rest
            else if Ascii.eqb d "`" then
              preceding ++ GetSubstitution matched preceding following rest
            else if Ascii.eqb d "'" then
              following ++ GetSubstitution matched preceding following rest
            else
              String c (GetSubstitution matched preceding following tl)
        end
      else String c (GetSubstitution matched preceding following tl)
  end.

(** [str.replace(searchValue, replaceValue)] for two strings: the first
    occurrence of [searchValue], if any, gives way to the substitution of
    [replaceValue]. *)
Definition replace (str searchValue replaceValue : string) : string :=
  match Str.indexOf str searchValue with
  | None => str
  | Some pos =>
      let preceding := Str.take pos str in
      let following := Str.drop (pos + String.length searchValue) str in
      preceding
        ++ GetSubstitution searchValue preceding following replaceValue
        ++ following
  end.

End Replace.

(* ================================================================= *)
(** ** The host *)

(** The built-ins whose result the script takes from the engine.
    - [JSON_parse text] is [JSON.parse(text)]: the value, or the
      [SyntaxError] thrown.
    - [localeCompare s t] is [s.localeCompare(t)].  ECMA-262 requires it to
      be a consistent comparator on all strings; the empty string has no
      collation element and precedes or equals every string.
    - [toFixed2 ms] is [(ms / 1000).toFixed(2)]. *)
Class Host : Type := {
  JSON_parse : string -> result JSON;
  localeCompare : string -> string -> Z;
  toFixed2 : Z -> string;
  localeCompare_refl : forall s, localeCompare s s = 0%Z;
  localeCompare_antisym :
    forall s t, Z.sgn (localeCompare t s) = (- Z.sgn (localeCompare s t))%Z;
  localeCompare_trans :
    forall s t u,
      (localeCompare s t <= 0)%Z -> (localeCompare t u <= 0)%Z ->
      (localeCompare s u <= 0)%Z;
  localeCompare_empty : forall s, (localeCompare EmptyString s <= 0)%Z
}.

(* ================================================================= *)
(** ** [Array.prototype.sort(comparefn)] *)

(** ECMA-262 leaves the sequence of calls to [comparefn] to the engine,
    requires the sort to be stable and makes it stop at the first call that
    throws.  The model is an insertion sort: each element in turn is
    placed into the sorted run on its left, behind every element of the
    run that it does not precede, the element being placed being the first
    argument of [comparefn].  An array of fewer than two elements is
    returned without a call.  The model stands for the sort of an engine
    where the sequence of calls does not show: with a comparator that
    throws for no pair of elements, the result is that of every stable
    sort ([SortFacts.sort_determined]); with one that throws for every
    pair of an array of two or more elements, every sort ends with the
    first call.  Where [comparefn] throws for some pairs only, an engine
    (V8 does not insert linearly) may call it on other pairs than the
    model and end otherwise; the statements of this file that name a
    result of the sort are about arrays of the first kind, and those
    that say that the sort throws are about arrays on which every sort
    makes a call that throws. *)
Module ArraySort.
Section Sort.

Variable A : Type.
Variable comparefn : A -> A -> result Z.

Fixpoint insert (x : A) (run : list A) : result (list A) :=
  match run with
  | [] => OK [x]
  | y :: rest =>
      rbind (comparefn x y)
        (fun order =>
           if (order <? 0)%Z then OK (x :: y :: rest)
           else rbind (insert x rest) (fun r => OK (y :: r)))
  end.

Fixpoint sort_into (run : list A) (pending : list A) : result (list A) :=
  match pending with
  | [] => OK run
  | x :: rest => rbind (insert x run) (fun run' => sort_into run' rest)
  end.

Definition sort (l : list A) : result (list A) := sort_into [] l.

End Sort.
End ArraySort.

(* ================================================================= *)
(** ** The file system *)

Inductive node : Type :=
| File (data : string)
| Dir (entries : list (string * node)).

Definition path : Type := list string.

Module FS.

Definition ENOENT (syscall : string) : exn :=
  SystemError ("ENOENT: no such file or directory, " ++ syscall).
Definition ENOTDIR (syscall : string) : exn :=
  SystemError ("ENOTDIR: not a directory, " ++ syscall).
Definition EISDIR (syscall : string) : exn :=
  SystemError ("EISDIR: illegal operation on a directory, " ++ syscall).
Definition EEXIST (syscall : string) : exn :=
  SystemError ("EEXIST: file already exists, " ++ syscall).

(** The entry [name] set to [n]: in place when the directory has it, at
    the end of the listing when it is new. *)
Fixpoint set_entry (name : string) (n : node) (es : list (string * node))
  : list (string * node) :=
  match es with
  | [] => [(name, n)]
  | (k, x) :: rest =>
      if String.eqb name k then (k, n) :: rest
      else (k, x) :: set_entry name n rest
  end.

Definition remove_entry (name : string) (es : list (string * node))
  : list (string * node) :=
  filter (fun e => negb (String.eqb name (fst e))) es.

Fixpoint lookup (p : path) (n : node) : option node :=
  match p with
  | [] => Some n
  | name :: rest =>
      match n with
      | File _ => None
      | Dir es =>
          match Value.assoc name es with
          | Some c => lookup rest c
          | None => None
          end
      end
  end.

(** [fs.rmSync(p, { recursive: true, force: true })] *)
Fixpoint rm (p : path) (n : node) : node :=
  match p, n with
  | [name], Dir es => Dir (remove_entry name es)
  | name :: rest, Dir es =>
      match Value.assoc name es with
      | Some c => Dir (set_entry name (rm rest c) es)
      | None => n
      end
  | _, _ => n
  end.

(** [fs.mkdirSync(p, { recursive: true })] *)
Fixpoint mkdirp (p : path) (n : node) : result node :=
  match n with
  | File _ => Throw (EEXIST "mkdir")
  | Dir es =>
      match p with
      | [] => OK n
      | name :: rest =>
          let child :=
            match Value.assoc name es with
            | Some c => c
            | None => Dir []
            end in
          rbind (mkdirp rest child)
            (fun c' => OK (Dir (set_entry name c' es)))
      end
  end.

(** [fs.writeFileSync(p, data)] *)
Fixpoint writeFile (p : path) (data : string) (n : node) : result node :=
  match n with
  | File _ => Throw (ENOTDIR "open")
  | Dir es =>
      match p with
      | [] => Throw (EISDIR "open")
      | [name] =>
          match Value.assoc name es with
          | Some (Dir _) => Throw (EISDIR "open")
          | _ => OK (Dir (set_entry name (File data) es))
          end
      | name :: rest =>
          match Value.assoc name es with
          | Some c =>
              rbind (writeFile rest data c)
                (fun c' => OK (Dir (set_entry name c' es)))
          | None => Throw (ENOENT "open")
          end
      end
  end.

(** [fs.readFileSync(p, 'utf-8')] *)
Definition readFile (p : path) (n : node) : result string :=
  match lookup p n with
  | Some (File data) => OK data
  | Some (Dir _) => Throw (EISDIR "read")
  | None => Throw (ENOENT "open")
  end.

(** [fs.readdirSync(p, { withFileTypes: true })]: the entries, each with
    its name and whether it is a directory. *)
Definition readdir (p : path) (n : node) : result (list (string * node)) :=
  match lookup p n with
  | Some (Dir es) => OK es
  | Some (File _) => Throw (ENOTDIR "scandir")
  | None => Throw (ENOENT "scandir")
  end.

Definition isDirectory (n : node) : bool :=
  match n with
  | Dir _ => true
  | File _ => false
  end.

End FS.

(* ================================================================= *)
(** ** The process: file system, console, completion *)

Inductive level : Type := Log | Warn | Error.

(** How a statement completes: normally with a value, by an exception that
    [try ... catch] may handle, or by [process.exit], which nothing
    handles. *)
Inductive completion (A : Type) : Type :=
| Normal (a : A)
| Thrown (e : exn)
| Exited (code : Z).
Arguments Normal {A} a.
Arguments Thrown {A} e.
Arguments Exited {A} code.

(** What running a statement on a file tree gives: the tree it leaves, the
    lines it printed on the console, and its completion. *)
Record outcome (A : Type) : Type := Outcome {
  fs_after : node;
  printed : list (level * string);
  result_of : completion A
}.
Arguments Outcome {A} fs_after printed result_of.

(** A statement reads and writes the file system and appends to the
    console, which it never reads. *)
Definition M (A : Type) : Type := node -> outcome A.

Definition ret {A} (a : A) : M A := fun n => Outcome n [] (Normal a).

Definition bind {A B} (m : M A) (k : A -> M B) : M B :=
  fun n =>
    let r := m n in
    match result_of r with
    | Normal a =>
        let r' := k a (fs_after r) in
        Outcome (fs_after r') (printed r ++ printed r')%list (result_of r')
    | Thrown e => Outcome (fs_after r) (printed r) (Thrown e)
    | Exited c => Outcome (fs_after r) (printed r) (Exited c)
    end.

Notation "x <- m ;; k" := (bind m (fun x => k))
  (at level 61, m at next level, right associativity).
Notation "m ;;; k" := (bind m (fun _ => k))
  (at level 61, right associativity).

(** [try { body } catch (e) { handler }] *)
Definition try_catch {A} (body : M A) (handler : exn -> M A) : M A :=
  fun n =>
    let r := body n in
    match result_of r with
    | Thrown e =>
        let r' := handler e (fs_after r) in
        Outcome (fs_after r') (printed r ++ printed r')%list (result_of r')
    | _ => r
    end.

Definition lift {A} (r : result A) : M A :=
  fun n =>
    match r with
    | OK a => Outcome n [] (Normal a)
    | Throw e => Outcome n [] (Thrown e)
    end.

Definition process_exit {A} (code : Z) : M A :=
  fun n => Outcome n [] (Exited code).

Definition console_write (l : level) (line : string) : M unit :=
  fun n => Outcome n [(l, line)] (Normal tt).

Definition console_log : string -> M unit := console_write Log.
Definition console_warn : string -> M unit := console_write Warn.
Definition console_error : string -> M unit := console_write Error.

Definition existsSync (p : path) : M bool :=
  fun n =>
    Outcome n []
      (Normal (match FS.lookup p n with Some _ => true | None => false end)).

Definition rmSync (p : path) : M unit :=
  fun n => Outcome (FS.rm p n) [] (Normal tt).

(** A file-system call that changes the tree, or throws and leaves it. *)
Definition fs_update (f : node -> result node) : M unit :=
  fun n =>
    match f n with
    | OK n' => Outcome n' [] (Normal tt)
    | Throw e => Outcome n [] (Thrown e)
    end.

Definition mkdirSync (p : path) : M unit := fs_update (FS.mkdirp p).

Definition writeFileSync (p : path) (data : string) : M unit :=
  fs_update (FS.writeFile p data).

Definition readFileSync (p : path) : M string :=
  fun n => lift (FS.readFile p n) n.

Definition readdirSync (p : path) : M (list (string * node)) :=
  fun n => lift (FS.readdir p n) n.

Definition copyFileSync (src dest : path) : M unit :=
  data <- readFileSync src ;; writeFileSync dest data.

(** [for (const x of xs) body], the loop variables threaded through. *)
Fixpoint for_of {A S} (xs : list A) (body : S -> A -> M S) (s : S) : M S :=
  match xs with
  | [] => ret s
  | x :: rest => s' <- body s x ;; for_of rest body s'
  end.

(** The exit status of the process once the script has run. *)
Definition exit_status {A} (c : completion A) : Z :=
  match c with
  | Normal _ => 0
  | Thrown _ => 1
  | Exited code => code
  end.

(* ================================================================= *)
(** ** [build.js] *)

Section Build.

Context {host : Host}.

(** [ROOT] is the directory of the script: paths are relative to it. *)
Definition ROOT : path := [].
Definition DIST_DIR : path := (ROOT ++ ["dist"])%list.

Definition path_join (base : path) (name : string) : path :=
  (base ++ [name])%list.

(* --- Utilities --- *)

Definition cleanDir (p : path) : M unit :=
  e <- existsSync p ;;
  (if e then rmSync p else ret tt) ;;;
  mkdirSync p.

Definition ensureDir (p : path) : M unit :=
  e <- existsSync p ;;
  if negb e then mkdirSync p else ret tt.

(** [copyDirSync(src, dest)] where [src] names the tree [n].  The
    recursion follows the tree that [src] names when the copy starts;
    [readdirSync] of a file throws. *)
Fixpoint copyTree (n : node) (src dest : path) {struct n} : M unit :=
  ensureDir dest ;;;
  match n with
  | File _ => lift (Throw (FS.ENOTDIR "scandir"))
  | Dir es =>
      (fix each (es : list (string * node)) : M unit :=
         match es with
         | [] => ret tt
         | (name, child) :: rest =>
             let s := path_join src name in
             let d := path_join dest name in
             (if FS.isDirectory child then copyTree child s d
              else copyFileSync s d) ;;;
             each rest
         end) es
  end.

Definition copyDirSync (src dest : path) : M unit :=
  fun root =>
    match FS.lookup src root with
    | None => ret tt root
    | Some n => copyTree n src dest root
    end.

Definition readJSON (filePath : path) (fallback : JSON) : M JSON :=
  e <- existsSync filePath ;;
  if negb e then ret fallback
  else
    try_catch
      (text <- readFileSync filePath ;; lift (JSON_parse text))
      (fun _ => ret fallback).

(* --- Content --- *)

(** The comparator of [readPosts]:
    [(a, b) => (b.date || '').localeCompare(a.date || '')]. *)
Definition by_date (a b : JSON) : result Z :=
  rbind (Value.Get b "date")
    (fun b_date =>
       let receiver := Value.or_empty b_date in
       rbind (Value.Get a "date")
         (fun a_date =>
            let that := Value.or_empty a_date in
            match receiver with
            | JString s =>
                rbind (Value.ToString that)
                  (fun t => OK (localeCompare s t))
            | _ =>
                Throw (TypeError "(b.date || '').localeCompare is not a function")
            end)).

Definition warning (f : string) (e : exn) : string :=
  "  ⚠  " ++ f ++ ": " ++ exn_message e.

Definition POSTS_DIR : path := path_join (path_join ROOT "content") "posts".

Definition readPosts : M (list JSON) :=
  let dir := POSTS_DIR in
  e <- existsSync dir ;;
  if negb e then ret []
  else
    entries <- readdirSync dir ;;
    posts <-
      for_of (filter (fun f => Str.endsWith f ".json") (map fst entries))
        (fun posts f =>
           try_catch
             (text <- readFileSync (path_join dir f) ;;
              post <- lift (JSON_parse text) ;;
              ret (posts ++ [post])%list)
             (fun e => console_warn (warning f e) ;;; ret posts))
        [] ;;
    lift (ArraySort.sort by_date posts).

Definition POSTS_TOKEN : string := "/*__POSTS_JSON__*/".
Definition UNLINKED_TOKEN : string := "/*__UNLINKED_JSON__*/".
Definition ABOUT_TOKEN : string := "/*__ABOUT_JSON__*/".
Definition EMAIL_TOKEN : string := "/*__CONTACT_EMAIL__*/".

(** [site.contact_email || ''], as [replace] takes it: its string. *)
Definition contact_email (site : JSON) : result string :=
  rbind (Value.Get site "contact_email")
    (fun email => Value.ToString (Value.or_empty email)).

(** The expression that [injectData] returns. *)
Definition inject (html : string) (posts : list JSON)
           (unlinked about site : JSON) : result string :=
  let html1 :=
    Replace.replace html POSTS_TOKEN (Stringify.JSON_stringify (JArray posts)) in
  let html2 :=
    Replace.replace html1 UNLINKED_TOKEN (Stringify.JSON_stringify unlinked) in
  let html3 :=
    Replace.replace html2 ABOUT_TOKEN (Stringify.JSON_stringify about) in
  rbind (contact_email site)
    (fun email => OK (Replace.replace html3 EMAIL_TOKEN email)).

Definition content_file (name : string) : path :=
  path_join (path_join ROOT "content") name.

Definition found_line (n : nat) : string :=
  "  Found " ++ NilZero.string_of_uint (Nat.to_uint n) ++ " post(s)".

Definition injectData (html : string) : M string :=
  posts <- readPosts ;;
  unlinked <- readJSON (content_file "unlinked-comments.json") (JArray []) ;;
  about <- readJSON (content_file "about.json")
             (JObject [("en", JString ""); ("es", JString "")]) ;;
  site <- readJSON (content_file "site.json") (JObject []) ;;
  console_log (found_line (List.length posts)) ;;;
  lift (inject html posts unlinked about site).

(* --- Build --- *)

Definition TEMPLATE : path :=
  path_join (path_join ROOT "templates") "index.html".

Definition complete_line (elapsed_ms : Z) : string :=
  Stringify.newline ++ "━━━ Build complete in " ++ toFixed2 elapsed_ms
    ++ "s ━━━" ++ Stringify.newline.

(** [build()], with the two readings of [Date.now()]. *)
Definition build (start finish : Z) : M unit :=
  console_log "works_on_work — build started" ;;;
  cleanDir DIST_DIR ;;;
  let tpl := TEMPLATE in
  e <- existsSync tpl ;;
  (if negb e then
     console_error "  ✗ templates/index.html not found — aborting" ;;;
     process_exit 1
   else ret tt) ;;;
  html <- readFileSync tpl ;;
  html <- injectData html ;;
  writeFileSync (path_join DIST_DIR "index.html") html ;;;
  console_log "  ✓ index.html" ;;;
  let assetsDir := path_join ROOT "assets" in
  e <- existsSync assetsDir ;;
  (if e then
     copyDirSync assetsDir (path_join DIST_DIR "assets") ;;;
     console_log "  ✓ assets/"
   else ret tt) ;;;
  let cname := path_join ROOT "CNAME" in
  e <- existsSync cname ;;
  (if e then
     copyFileSync cname (path_join DIST_DIR "CNAME") ;;;
     console_log "  ✓ CNAME"
   else ret tt) ;;;
  console_log (complete_line (finish - start)).

(** One run of the script on the tree [root]. *)
Definition run (start finish : Z) (root : node) : outcome unit :=
  build start finish root.

End Build.

(* ================================================================= *)
(** ** A host for the examples *)

(** The examples run on a host without locale data, where [localeCompare]
    compares code units (as V8 does when built without Intl), with a JSON
    reader for the documents whose numbers are integers of at most fifteen
    digits and whose unicode escapes stay below U+0080; this reader rejects
    the other documents. *)
Module ExampleHost.

Definition is_ws (c : ascii) : bool :=
  let n := nat_of_ascii c in
  Nat.eqb n 32 || Nat.eqb n 9 || Nat.eqb n 10 || Nat.eqb n 13.

Fixpoint skip_ws (s : string) : string :=
  match s with
  | String c rest => if is_ws c then skip_ws rest else s
  | EmptyString => s
  end.

Definition is_digit (c : ascii) : bool :=
  let n := nat_of_ascii c in Nat.leb 48 n && Nat.leb n 57.

Fixpoint digits (s : string) : string * string :=
  match s with
  | String c rest =>
      if is_digit c then let (d, r) := digits rest in (String c d, r)
      else (EmptyString, s)
  | EmptyString => (EmptyString, s)
  end.

Definition hex_value (c : ascii) : option nat :=
  let n := nat_of_ascii c in
  if Nat.leb 48 n && Nat.leb n 57 then Some (n - 48)
  else if Nat.leb 97 n && Nat.leb n 102 then Some (n - 87)
  else if Nat.leb 65 n && Nat.leb n 70 then Some (n - 55)
  else None.

(** The characters of a string literal after its opening quote, and the
    text after its closing quote. *)
Fixpoint string_body (s : string) : option (string * string) :=
  match s with
  | EmptyString => None
  | String c rest =>
      let n := nat_of_ascii c in
      if Nat.eqb n 34 then Some (EmptyString, rest)
      else if Nat.ltb n 32 then None
      else if Nat.eqb n 92 then
        match rest with
        | String e rest' =>
            let cons (x : nat) (tail : string) :=
              option_map (fun '(body, r) => (String (ascii_of_nat x) body, r))
                (string_body tail) in
            if Ascii.eqb e "n" then cons 10 rest'
            else if Ascii.eqb e "t" then cons 9 rest'
            else if Ascii.eqb e "r" then cons 13 rest'
            else if Ascii.eqb e "b" then cons 8 rest'
            else if Ascii.eqb e "f" then cons 12 rest'
            else if Ascii.eqb e "/" then cons 47 rest'
            else if Ascii.eqb e "\" then cons 92 rest'
            else if Nat.eqb (nat_of_ascii e) 34 then cons 34 rest'
            else if Ascii.eqb e "u" then
              match rest' with
              | String h1 (String h2 (String h3 (String h4 tail))) =>
                  match hex_value h1, hex_value h2, hex_value h3, hex_value h4 with
                  | Some 0, Some 0, Some a, Some b =>
                      if Nat.ltb a 8 then cons (16 * a + b) tail else None
                  | _, _, _, _ => None
                  end
              | _ => None
              end
            else None
        | EmptyString => None
        end
      else option_map (fun '(body, r) => (String c body, r)) (string_body rest)
  end.

(** An array index: a canonical numeric key, which an object lists before
    its other keys, in ascending order. *)
Definition array_index (k : string) : option N :=
  match digits k with
  | (String d ds as all, EmptyString) =>
      if (Ascii.eqb d "0" && negb (String.eqb ds EmptyString))
         || Nat.ltb 10 (String.length all)
      then None
      else
        match NilZero.uint_of_string all with
        | Some u =>
            let v := N.of_uint u in
            if N.ltb v 4294967295 then Some v else None
        | None => None
        end
  | _ => None
  end.

(** CreateDataProperty on the object under construction: a key it has
    keeps its place and takes the new value; a new array index goes among
    the indices, a new other key to the end. *)
Fixpoint define_index (i : N) (k : string) (v : JSON)
         (ms : list (string * JSON)) : list (string * JSON) :=
  match ms with
  | [] => [(k, v)]
  | (k', v') :: rest =>
      match array_index k' with
      | Some j =>
          if N.eqb i j then (k, v) :: rest
          else if N.ltb i j then (k, v) :: ms
          else (k', v') :: define_index i k v rest
      | None => (k, v) :: ms
      end
  end.

Fixpoint define_key (k : string) (v : JSON)
         (ms : list (string * JSON)) : list (string * JSON) :=
  match ms with
  | [] => [(k, v)]
  | (k', v') :: rest =>
      if String.eqb k k' then (k, v) :: rest
      else (k', v') :: define_key k v rest
  end.

Definition define (k : string) (v : JSON) (ms : list (string * JSON))
  : list (string * JSON) :=
  match array_index k with
  | Some i => define_index i k v ms
  | None => define_key k v ms
  end.

Definition number (s : string) : option (JSON * string) :=
  let (negative, s') :=
    match s with
    | String c rest => if Ascii.eqb c "-" then (true, rest) else (false, s)
    | EmptyString => (false, s)
    end in
  match digits s' with
  | (String d ds as all, rest) =>
      let fraction :=
        match rest with
        | String c _ => Ascii.eqb c "." || Ascii.eqb c "e" || Ascii.eqb c "E"
        | EmptyString => false
        end in
      if (Ascii.eqb d "0" && negb (String.eqb ds EmptyString))
         || Nat.ltb 15 (String.length all) || fraction
      then None
      else if negative && negb (String.eqb all "0")
           then Some (JNumber (String "-" all), rest)
           else Some (JNumber all, rest)
  | _ => None
  end.

(** A value at the head of [s], and the text after it. *)
Fixpoint value (fuel : nat) (s : string) : option (JSON * string) :=
  match fuel with
  | O => None
  | S fuel' =>
      let s := skip_ws s in
      if Str.startsWith s "null" then Some (JNull, Str.drop 4 s)
      else if Str.startsWith s "true" then Some (JBool true, Str.drop 4 s)
      else if Str.startsWith s "false" then Some (JBool false, Str.drop 5 s)
      else
        match s with
        | String c rest =>
            if Nat.eqb (nat_of_ascii c) 34 then
              option_map (fun '(body, r) => (JString body, r)) (string_body rest)
            else if Ascii.eqb c "[" then
              let rest := skip_ws rest in
              if Str.startsWith rest "]" then Some (JArray [], Str.drop 1 rest)
              else
                (fix elements (n : nat) (acc : list JSON) (s : string)
                   : option (JSON * string) :=
                   match n with
                   | O => None
                   | S n' =>
                       match value fuel' s with
                       | Some (v, r) =>
                           let r := skip_ws r in
                           if Str.startsWith r "," then
                             elements n' (acc ++ [v])%list (Str.drop 1 r)
                           else if Str.startsWith r "]" then
                             Some (JArray (acc ++ [v])%list, Str.drop 1 r)
                           else None
                       | None => None
                       end
                   end) fuel' [] rest
            else if Ascii.eqb c "{" then
              let rest := skip_ws rest in
              if Str.startsWith rest "}" then Some (JObject [], Str.drop 1 rest)
              else
                (fix members (n : nat) (acc : list (string * JSON)) (s : string)
                   : option (JSON * string) :=
                   match n with
                   | O => None
                   | S n' =>
                       match skip_ws s with
                       | String q after =>
                           if Nat.eqb (nat_of_ascii q) 34 then
                             match string_body after with
                             | Some (k, r) =>
                                 let r := skip_ws r in
                                 if Str.startsWith r ":" then
                                   match value fuel' (Str.drop 1 r) with
                                   | Some (v, r) =>
                                       let r := skip_ws r in
                                       if Str.startsWith r "," then
                                         members n' (define k v acc) (Str.drop 1 r)
                                       else if Str.startsWith r "}" then
                                         Some (JObject (define k v acc), Str.drop 1 r)
                                       else None
                                   | None => None
                                   end
                                 else None
                             | None => None
                             end
                           else None
                       | EmptyString => None
                       end
                   end) fuel' [] rest
            else number s
        | EmptyString => None
        end
  end.

Definition parse (text : string) : result JSON :=
  match value (S (String.length text)) text with
  | Some (v, rest) =>
      match skip_ws rest with
      | EmptyString => OK v
      | _ => Throw (SyntaxError "Unexpected non-whitespace character after JSON")
      end
  | None => Throw (SyntaxError "Unexpected token in JSON")
  end.

End ExampleHost.

Module CodeUnits.

(** [s.localeCompare(t)] by code units. *)
Definition compare (s t : string) : Z :=
  match String.compare s t with
  | Lt => -1
  | Eq => 0
  | Gt => 1
  end.

Lemma ascii_compare_refl (a : ascii) : Ascii.compare a a = Eq.
Proof. unfold Ascii.compare. apply N.compare_refl. Qed.

Lemma string_compare_refl (s : string) : String.compare s s = Eq.
Proof.
  induction s as [|a s IH]; simpl; [reflexivity|].
  now rewrite ascii_compare_refl.
Qed.

Lemma string_compare_trans (s : string) :
  forall t u, String.compare s t <> Gt -> String.compare t u <> Gt ->
              String.compare s u <> Gt.
Proof.
  induction s as [|a s IH]; intros [|b t] [|c u]; simpl; try congruence.
  destruct (Ascii.compare a b) eqn:Hab; try congruence;
    destruct (Ascii.compare b c) eqn:Hbc; try congruence.
  - apply Ascii.compare_eq_iff in Hab, Hbc. subst.
    rewrite ascii_compare_refl. apply IH.
  - apply Ascii.compare_eq_iff in Hab. subst. rewrite Hbc. congruence.
  - apply Ascii.compare_eq_iff in Hbc. subst. rewrite Hab. congruence.
  - intros _ _. unfold Ascii.compare in *.
    rewrite N.compare_lt_iff in Hab, Hbc.
    assert (H : (N_of_ascii a < N_of_ascii c)%N) by lia.
    apply N.compare_lt_iff in H. rewrite H. congruence.
Qed.

Lemma refl (s : string) : compare s s = 0%Z.
Proof. unfold compare. now rewrite string_compare_refl. Qed.

Lemma antisym (s t : string) :
  Z.sgn (compare t s) = (- Z.sgn (compare s t))%Z.
Proof.
  unfold compare. rewrite (String.compare_antisym t s).
  destruct (String.compare s t); reflexivity.
Qed.

Lemma trans (s t u : string) :
  (compare s t <= 0)%Z -> (compare t u <= 0)%Z -> (compare s u <= 0)%Z.
Proof.
  unfold compare. intros Hst Htu.
  assert (H : String.compare s u <> Gt).
  { apply string_compare_trans with t.
    - destruct (String.compare s t); [congruence | congruence | lia].
    - destruct (String.compare t u); [congruence | congruence | lia]. }
  destruct (String.compare s u); [lia | lia | congruence].
Qed.

(** The order of [compare] is the lexicographic order of the code units. *)
Lemma lexicographic (s t : string) :
  (compare s t <= 0)%Z -> String.leb s t = true.
Proof.
unfold compare, String.leb. destruct (String.compare s t); [auto | auto | lia].
Qed.

Lemma empty_first (s : string) : (compare EmptyString s <= 0)%Z.
Proof. unfold compare. destruct s; simpl; lia. Qed.

End CodeUnits.

Module Elapsed.

Definition two_digits (n : Z) : string :=
  let text := NilZero.string_of_uint (N.to_uint (Z.to_N n)) in
  if (n <? 10)%Z then String "0" text else text.

(** [(ms / 1000).toFixed(2)], the exact quotient rounded half up. *)
Definition toFixed2 (ms : Z) : string :=
  let h := ((Z.abs ms + 5) / 10)%Z in
  (if (ms <? 0)%Z then "-" else EmptyString)
    ++ NilZero.string_of_uint (N.to_uint (Z.to_N (h / 100))) ++ "."
    ++ two_digits (h mod 100).

End Elapsed.

#[export] Instance example_host : Host := {
  JSON_parse := ExampleHost.parse;
  localeCompare := CodeUnits.compare;
  toFixed2 := Elapsed.toFixed2;
  localeCompare_refl := CodeUnits.refl;
  localeCompare_antisym := CodeUnits.antisym;
  localeCompare_trans := CodeUnits.trans;
  localeCompare_empty := CodeUnits.empty_first
}.

(* ================================================================= *)
(** ** Example sites *)

Module Examples.

Definition quoted (s : string) : string :=
  Stringify.dquote ++ s ++ Stringify.dquote.

(** The text [{"date": "<date>"}]. *)
Definition post_text (date : string) : string :=
  "{" ++ quoted "date" ++ ": " ++ quoted date ++ "}".

Definition template_text : string :=
  "<script>const POSTS = /*__POSTS_JSON__*/; const MAIL = '/*__CONTACT_EMAIL__*/';</script>".

(** Five post files, the third of them cut short. *)
Definition five_posts : list (string * node) :=
  [("a.json", File (post_text "2026-01-01"));
   ("b.json", File (post_text "2026-02-07"));
   ("c.json", File "{oops");
   ("d.json", File (post_text "2025-12-31"));
   ("e.json", File "{}")].

Definition site : node :=
  Dir [("templates", Dir [("index.html", File template_text)]);
       ("content", Dir [("posts", Dir five_posts)]);
       ("assets", Dir [("css", Dir [("site.css", File "body{}")]);
                       ("logo.svg", File "<svg/>")]);
       ("CNAME", File "gxwechsler.com")].

Definition dated_post (date : string) : JSON :=
  JObject [("date", JString date)].

(** A site whose template is missing and whose [dist] holds an earlier
    build. *)
Definition site_without_template : list (string * node) :=
  [("dist", Dir [("index.html", File "<html>old</html>");
                 ("assets", Dir [("logo.svg", File "<svg/>")])]);
   ("content", Dir [("site.json", File "{}")])].

(** A site without [content/posts]. *)
Definition site_without_posts : list (string * node) :=
  [("templates", Dir [("index.html", File template_text)]);
   ("content",
    Dir [("site.json",
          File ("{" ++ quoted "contact_email" ++ ": "
                    ++ quoted "mo@example.org" ++ "}"))]);
   ("assets", Dir [("css", Dir [("site.css", File "body{}")]);
                   ("logo.svg", File "<svg/>")]);
   ("CNAME", File "gxwechsler.com")].

(** A site whose two posts give their dates as numbers. *)
Definition site_with_number_dates : node :=
  Dir [("templates", Dir [("index.html", File template_text)]);
       ("content",
        Dir [("posts",
              Dir [("a.json", File ("{" ++ quoted "date" ++ ": 20260207}"));
                   ("b.json", File ("{" ++ quoted "date" ++ ": 20260101}"))])])].

(** A site whose one post has two dollar signs in its title. *)
Definition site_with_dollar_signs : node :=
  Dir [("templates", Dir [("index.html", File "POSTS = /*__POSTS_JSON__*/;")]);
       ("content",
        Dir [("posts",
              Dir [("a.json",
                    File ("{" ++ quoted "title" ++ ": " ++ quoted "US$$ 5"
                              ++ "}"))])])].

(** A post with a title in English only. *)
Definition bilingual_post : JSON :=
  JObject [("id", JString "first");
           ("title", JObject [("en", JString "text"); ("es", JNull)])].

End Examples.

(** One step of the injection: [text'] is [text] where the first
    occurrence of [token], if there is one, has given way to the
    substitution of [replacement]; what follows that occurrence is kept
    as it is, further occurrences included. *)
Definition replaced_once (token replacement text text' : string) : Prop :=
  (~ Str.occurs token text /\ text' = text) \/
  (exists pre post,
      Str.first_occurrence token text pre post /\
      text' = pre ++ Replace.GetSubstitution token pre post replacement ++ post).

(* ================================================================= *)
(** * Properties *)

(** ** Substrings and first occurrences *)

Module StrFacts.
Import Str.

Lemma append_nil_r (s : string) : s ++ EmptyString = s.
Proof. induction s as [|a s IH]; simpl; [reflexivity | now rewrite IH]. Qed.

Lemma append_assoc (a b c : string) : (a ++ b) ++ c = a ++ b ++ c.
Proof. induction a as [|x a IH]; simpl; [reflexivity | now rewrite IH]. Qed.

Lemma length_append (a b : string) :
  String.length (a ++ b) = String.length a + String.length b.
Proof. induction a as [|x a IH]; simpl; [reflexivity | now rewrite IH]. Qed.

Lemma append_inv (a : string) :
  forall b c d, a ++ b = c ++ d -> String.length a = String.length c ->
                a = c /\ b = d.
Proof.
  induction a as [|x a IH]; intros b [|y c] d H L; simpl in *;
    try discriminate; [now split|].
  injection H as -> H. injection L as L.
  destruct (IH _ _ _ H L) as [-> ->]. now split.
Qed.

(** Two ways of cutting one text: the shorter left part is a prefix of the
    longer one. *)
Lemma append_cut (a : string) :
  forall b c d, a ++ b = c ++ d -> String.length a <= String.length c ->
                exists m, c = a ++ m /\ b = m ++ d.
Proof.
  induction a as [|x a IH]; intros b c d H L; simpl in *.
  - exists c. now split.
  - destruct c as [|y c]; simpl in *; [lia|].
    injection H as -> H.
    destruct (IH b c d H ltac:(lia)) as (m & -> & ->).
    exists m. now split.
Qed.

Lemma startsWith_iff (s p : string) :
  startsWith s p = true <-> exists post, s = p ++ post.
Proof.
  revert s. induction p as [|a p IH]; intros s; simpl.
  - destruct s; split; eauto.
  - destruct s as [|b s]; simpl.
    + split; [discriminate | intros [post H]; discriminate].
    + rewrite andb_true_iff, Ascii.eqb_eq, IH. split.
      * intros [-> [post ->]]. now exists post.
      * intros [post H]. injection H as -> ->. split; eauto.
Qed.

Lemma take_append (pre rest : string) :
  take (String.length pre) (pre ++ rest) = pre.
Proof. induction pre as [|a pre IH]; simpl; [now destruct rest | now rewrite IH]. Qed.

Lemma drop_append (pre rest : string) :
  drop (String.length pre) (pre ++ rest) = rest.
Proof. induction pre as [|a pre IH]; simpl; [reflexivity | exact IH]. Qed.

Lemma drop_append2 (pre t rest : string) :
  drop (String.length pre + String.length t) (pre ++ t ++ rest) = rest.
Proof.
  rewrite <- length_append, <- append_assoc. apply drop_append.
Qed.

(** [indexOf] finds the first occurrence. *)
Lemma indexOf_Some (t s : string) :
  forall n, indexOf s t = Some n ->
    exists pre post, first_occurrence t s pre post /\ String.length pre = n.
Proof.
  induction s as [|a s IH]; intros n H.
  - destruct t as [|b t]; simpl in H; [|discriminate].
    injection H as <-. exists EmptyString, EmptyString.
    repeat split. intros; simpl; lia.
  - cbn [indexOf] in H.
    destruct (startsWith (String a s) t) eqn:Hp.
    + injection H as <-. apply startsWith_iff in Hp as [post Hp].
      exists EmptyString, post. repeat split; [exact Hp | intros; simpl; lia].
    + destruct (indexOf s t) as [m|] eqn:Hm; simpl in H; [|discriminate].
      injection H as <-. destruct (IH m eq_refl) as (pre & post & [E Min] & L).
      exists (String a pre), post. repeat split.
      * simpl. now rewrite E.
      * intros pre' post' E'. destruct pre' as [|b pre']; simpl in E' |- *.
        -- assert (startsWith (String a s) t = true)
             by (apply startsWith_iff; now exists post').
           congruence.
        -- injection E' as -> E'. specialize (Min _ _ E'). lia.
      * simpl. now rewrite L.
Qed.

Lemma indexOf_None (t s : string) :
  indexOf s t = None -> ~ occurs t s.
Proof.
  induction s as [|a s IH]; intros H.
  - destruct t as [|b t]; simpl in H; [discriminate|].
    intros (pre & post & E). destruct pre; discriminate.
  - cbn [indexOf] in H.
    destruct (startsWith (String a s) t) eqn:Hp; [discriminate|].
    destruct (indexOf s t) eqn:Hm; simpl in H; [discriminate|].
    intros (pre & post & E). destruct pre as [|b pre]; simpl in E.
    + assert (startsWith (String a s) t = true)
        by (apply startsWith_iff; now exists post).
      congruence.
    + injection E as -> E. apply (IH eq_refl). now exists pre, post.
Qed.

Lemma first_occurrence_unique (t s pre post pre' post' : string) :
  first_occurrence t s pre post -> first_occurrence t s pre' post' ->
  pre = pre' /\ post = post'.
Proof.
  intros [E Min] [E' Min'].
  assert (L : String.length pre = String.length pre').
  { specialize (Min _ _ E'). specialize (Min' _ _ E). lia. }
  rewrite E in E'. destruct (append_inv _ _ _ _ E' L) as [-> H].
  split; [reflexivity|].
  now destruct (append_inv _ _ _ _ H eq_refl).
Qed.

(** Without an occurrence of the pattern, [replace] returns its text. *)
Lemma replace_absent (s t r : string) :
  ~ occurs t s -> Replace.replace s t r = s.
Proof.
  intros H. unfold Replace.replace.
  destruct (indexOf s t) as [n|] eqn:Hn; [|reflexivity].
  destruct (indexOf_Some _ _ Hn) as (pre & post & [E _] & _).
  exfalso. apply H. now exists pre, post.
Qed.

(** With one, the first occurrence alone gives way to the substitution. *)
Lemma replace_first (s t r pre post : string) :
  first_occurrence t s pre post ->
  Replace.replace s t r
  = pre ++ Replace.GetSubstitution t pre post r ++ post.
Proof.
  intros F. unfold Replace.replace.
  destruct (indexOf s t) as [n|] eqn:Hn.
  - destruct (indexOf_Some _ _ Hn) as (pre0 & post0 & F0 & L).
    destruct (first_occurrence_unique F0 F) as [-> ->].
    destruct F as [E _]. subst n s.
    now rewrite take_append, drop_append2.
  - exfalso. apply (indexOf_None Hn). destruct F as [E _].
    now exists pre, post.
Qed.

Lemma occurs_first (t s : string) :
  occurs t s -> exists pre post, first_occurrence t s pre post.
Proof.
  intros H. destruct (indexOf s t) as [n|] eqn:Hn.
  - destruct (indexOf_Some _ _ Hn) as (pre & post & F & _). eauto.
  - now apply indexOf_None in Hn.
Qed.

End StrFacts.

(* ================================================================= *)
(** ** The sort *)

Module SortFacts.
Section Any.

Variable A : Type.
Variable comparefn : A -> A -> result Z.

(** Whatever the comparator answers, a sort that returns has only moved
    the elements. *)
Lemma insert_perm (x : A) (run r : list A) :
  ArraySort.insert comparefn x run = OK r -> Permutation (x :: run) r.
Proof.
  revert r. induction run as [|y rest IH]; intros r; simpl.
  - intros [= <-]. apply Permutation_refl.
  - destruct (comparefn x y) as [order|]; simpl; [|discriminate].
    destruct (order <? 0)%Z.
    + intros [= <-]. apply Permutation_refl.
    + destruct (ArraySort.insert comparefn x rest) as [r'|]; simpl;
        [|discriminate].
      intros [= <-]. eapply perm_trans; [apply perm_swap|].
      apply perm_skip. now apply IH.
Qed.

Lemma sort_into_perm (pending : list A) :
  forall run out,
    ArraySort.sort_into comparefn run pending = OK out ->
    Permutation (run ++ pending)%list out.
Proof.
  induction pending as [|x rest IH]; intros run out; simpl.
  - intros [= <-]. rewrite app_nil_r. apply Permutation_refl.
  - destruct (ArraySort.insert comparefn x run) as [run'|] eqn:Hi; simpl;
      [|discriminate].
    intros H. apply IH in H. apply insert_perm in Hi.
    eapply perm_trans; [|exact H].
    eapply perm_trans; [apply Permutation_sym, Permutation_middle|].
    change (Permutation ((x :: run) ++ rest)%list (run' ++ rest)%list).
    now apply Permutation_app_tail.
Qed.

Lemma sort_perm (l out : list A) :
  ArraySort.sort comparefn l = OK out -> Permutation l out.
Proof. intros H. now apply sort_into_perm in H. Qed.

(** A list sorted for one order is sorted for every order that agrees with
    it on the elements of the list. *)
Lemma sorted_agree (R R' : A -> A -> Prop) (l : list A) :
  (forall x y, In x l -> In y l -> R x y -> R' x y) ->
  StronglySorted R l -> StronglySorted R' l.
Proof.
induction l as [|x l IH]; intros H S; [constructor|].
inversion S as [|? ? Sl Hall]; subst. constructor.
- apply IH; [|exact Sl]. intros y z Hy Hz. apply H; now right.
- rewrite Forall_forall in *. intros y Hy.
  apply H; [now left | now right | now apply Hall].
Qed.

End Any.

Section Keyed.

Context {host : Host}.
Variable A : Type.
Variable key : A -> string.
Variable dom : A -> Prop.
Variable comparefn : A -> A -> result Z.

(** On [dom] the comparator does not throw: it compares the keys, the
    second argument's key against the first's. *)
Hypothesis comparefn_key :
  forall x y, dom x -> dom y ->
              comparefn x y = OK (localeCompare (key y) (key x)).

(** [x] may stand before [y]: the key of [y] does not follow that of [x]. *)
Definition descending (x y : A) : Prop :=
  (localeCompare (key y) (key x) <= 0)%Z.

Definition keyed (d : string) (x : A) : bool := String.eqb (key x) d.

Lemma localeCompare_flip (s t : string) :
  (0 <= localeCompare s t)%Z -> (localeCompare t s <= 0)%Z.
Proof. pose proof (localeCompare_antisym s t). lia. Qed.

Lemma localeCompare_strict (s t u : string) :
  (localeCompare s t <= 0)%Z -> (localeCompare t u < 0)%Z ->
  (localeCompare s u < 0)%Z.
Proof.
  intros Hst Htu.
  destruct (Z_lt_le_dec (localeCompare s u) 0) as [|Hsu]; [assumption|].
  apply localeCompare_flip in Hsu.
  pose proof (localeCompare_trans _ _ _ Hsu Hst) as Hut.
  pose proof (localeCompare_antisym t u). lia.
Qed.

(** The elements that [sel] selects tie with one another: the classes of
    one key, and the classes of the keys that collate equal, are such. *)
Definition ties (sel : A -> bool) : Prop :=
  forall x z, sel x = true -> sel z = true ->
              localeCompare (key z) (key x) = 0%Z.

Definition tied (e x : A) : bool :=
  (localeCompare (key x) (key e) =? 0)%Z.

Lemma ties_keyed (d : string) : ties (keyed d).
Proof.
  intros x z Hx Hz. unfold keyed in *.
  apply String.eqb_eq in Hx, Hz. rewrite Hx, Hz. apply localeCompare_refl.
Qed.

Lemma ties_tied (e : A) : ties (tied e).
Proof.
  intros x z Hx Hz. unfold tied in *. apply Z.eqb_eq in Hx, Hz.
  pose proof (localeCompare_antisym (key x) (key e)) as Hex.
  assert (Hzx : (localeCompare (key z) (key x) <= 0)%Z)
    by (apply localeCompare_trans with (key e); lia).
  assert (Hxz : (localeCompare (key x) (key z) <= 0)%Z).
  { pose proof (localeCompare_antisym (key z) (key e)).
    apply localeCompare_trans with (key e); lia. }
  pose proof (localeCompare_antisym (key x) (key z)). lia.
Qed.

Lemma below_not_selected (sel : A -> bool) (x : A) (l : list A) :
  ties sel -> sel x = true ->
  Forall (fun z => (localeCompare (key z) (key x) < 0)%Z) l ->
  filter sel l = [].
Proof.
  intros T Hx. induction 1 as [|z l Hz _ IH]; [reflexivity|].
  simpl. destruct (sel z) eqn:E; [|exact IH].
  rewrite (T x z Hx E) in Hz. lia.
Qed.

Lemma insert_keyed (x : A) (run : list A) :
  dom x -> Forall dom run -> StronglySorted descending run ->
  exists r,
    ArraySort.insert comparefn x run = OK r /\
    StronglySorted descending r /\
    forall sel, ties sel ->
                filter sel r = (filter sel run ++ filter sel [x])%list.
Proof.
  intros Hx. induction run as [|y rest IH]; intros Hd Hs.
  - exists [x]. split; [reflexivity|]. split; [repeat constructor|].
    reflexivity.
  - inversion Hd as [|? ? Hy Hrest]; subst.
    inversion Hs as [|? ? Hs' Hall]; subst.
    cbn [ArraySort.insert]. rewrite (comparefn_key Hx Hy). cbn [rbind].
    destruct (localeCompare (key y) (key x) <? 0)%Z eqn:Hlt.
    + apply Z.ltb_lt in Hlt. exists (x :: y :: rest).
      assert (Hbelow : Forall (fun z => (localeCompare (key z) (key x) < 0)%Z)
                         (y :: rest)).
      { constructor; [assumption|].
        eapply Forall_impl; [|exact Hall].
        intros z Hz. now apply localeCompare_strict with (key y). }
      split; [reflexivity|]. split.
      * constructor; [assumption|].
        eapply Forall_impl; [|exact Hbelow]. unfold descending.
        intros z Hz. lia.
      * intros sel T. simpl (filter sel [x]).
        change (filter sel (x :: y :: rest))
          with (if sel x then x :: filter sel (y :: rest)
                else filter sel (y :: rest)).
        destruct (sel x) eqn:Hk.
        -- rewrite (@below_not_selected sel x _ T Hk Hbelow). reflexivity.
        -- now rewrite app_nil_r.
    + apply Z.ltb_ge in Hlt.
      destruct (IH Hrest Hs') as (r & Hr & Hsr & Hfr).
      rewrite Hr. cbn [rbind]. exists (y :: r). split; [reflexivity|]. split.
      * constructor; [assumption|].
        apply insert_perm in Hr.
        eapply Permutation_Forall; [exact Hr|].
        constructor; [|assumption].
        unfold descending. now apply localeCompare_flip.
      * intros sel T. cbn [filter]. rewrite (Hfr sel T).
        destruct (sel y); reflexivity.
Qed.

Lemma sort_into_keyed (pending : list A) :
  forall run,
    Forall dom run -> Forall dom pending ->
    StronglySorted descending run ->
    exists out,
      ArraySort.sort_into comparefn run pending = OK out /\
      StronglySorted descending out /\
      forall sel, ties sel ->
                  filter sel out = (filter sel run ++ filter sel pending)%list.
Proof.
  induction pending as [|x rest IH]; intros run Hrun Hpend Hs.
  - exists run. split; [reflexivity|]. split; [assumption|].
    intros sel _. now rewrite app_nil_r.
  - inversion Hpend as [|? ? Hx Hrest]; subst.
    destruct (insert_keyed Hx Hrun Hs) as (run' & Hi & Hs' & Hf).
    assert (Hrun' : Forall dom run').
    { eapply Permutation_Forall; [exact (insert_perm _ _ _ Hi)|].
      now constructor. }
    destruct (IH run' Hrun' Hrest Hs') as (out & Ho & Hso & Hfo).
    exists out. cbn [ArraySort.sort_into]. rewrite Hi. cbn [rbind].
    split; [assumption|]. split; [assumption|].
    intros sel T. rewrite (Hfo sel T), (Hf sel T), <- app_assoc.
    change (x :: rest) with ([x] ++ rest)%list.
    now rewrite filter_app.
Qed.

(** On [dom] the sort returns, in descending order of the keys, and the
    elements that tie keep their order. *)
Lemma sort_keyed (l : list A) :
  Forall dom l ->
  exists out,
    ArraySort.sort comparefn l = OK out /\
    Permutation l out /\
    StronglySorted descending out /\
    forall sel, ties sel -> filter sel out = filter sel l.
Proof.
  intros Hl.
  destruct (@sort_into_keyed l [] (Forall_nil _) Hl (SSorted_nil _))
    as (out & Ho & Hs & Hf).
  exists out. split; [exact Ho|]. split; [exact (sort_perm _ _ Ho)|].
  split; [exact Hs|]. exact Hf.
Qed.

(** Two descending arrangements of the same elements in which the
    elements that collate equal stand in the same order are one
    arrangement: a stable sort has one result, whatever calls to the
    comparator it makes. *)
Lemma stable_sorted_unique (l1 : list A) :
  forall l2,
    Permutation l1 l2 ->
    StronglySorted descending l1 -> StronglySorted descending l2 ->
    (forall e, filter (tied e) l1 = filter (tied e) l2) ->
    l1 = l2.
Proof.
  induction l1 as [|h1 t1 IH]; intros l2 P S1 S2 F.
  - apply Permutation_nil in P. now subst.
  - destruct l2 as [|h2 t2];
      [now apply Permutation_sym, Permutation_nil_cons in P|].
    inversion S1 as [|? ? S1' A1]; subst.
    inversion S2 as [|? ? S2' A2]; subst.
    rewrite Forall_forall in A1, A2.
    assert (E12 : tied h1 h2 = true).
    { unfold tied. apply Z.eqb_eq.
      assert (H21 : h2 = h1 \/ In h2 t1).
      { assert (In h2 (h1 :: t1))
          by (eapply Permutation_in; [apply Permutation_sym, P | now left]).
        destruct H; [now left; subst | now right]. }
      assert (H12 : h1 = h2 \/ In h1 t2).
      { assert (In h1 (h2 :: t2))
          by (eapply Permutation_in; [exact P | now left]).
        destruct H; [now left; subst | now right]. }
      destruct H21 as [->|H21]; [apply localeCompare_refl|].
      destruct H12 as [->|H12]; [apply localeCompare_refl|].
      pose proof (A1 h2 H21) as B1. pose proof (A2 h1 H12) as B2.
      unfold descending in B1, B2.
      pose proof (localeCompare_antisym (key h1) (key h2)). lia. }
    assert (E11 : tied h1 h1 = true)
      by (unfold tied; apply Z.eqb_eq, localeCompare_refl).
    pose proof (F h1) as Fh. cbn [filter] in Fh. rewrite E11, E12 in Fh.
    injection Fh as -> Ft.
    f_equal. apply IH; [now apply Permutation_cons_inv in P | exact S1' | exact S2' |].
    intros e. specialize (F e). cbn [filter] in F.
    destruct (tied e h2); [now injection F | exact F].
Qed.

(** On [dom], any stable descending arrangement of the array is what the
    sort returns. *)
Lemma sort_determined (l out : list A) :
  Forall dom l ->
  Permutation l out -> StronglySorted descending out ->
  (forall e, filter (tied e) out = filter (tied e) l) ->
  ArraySort.sort comparefn l = OK out.
Proof.
  intros Hl P S F.
  destruct (sort_keyed Hl) as (out' & E & P' & S' & F').
  rewrite E. f_equal. apply stable_sorted_unique; [|exact S'|exact S|].
  - eapply perm_trans; [apply Permutation_sym, P' | exact P].
  - intros e. now rewrite (F' _ (ties_tied e)), F.
Qed.

(** In a descending list, what stands behind an element of empty key
    collates equal to the empty key. *)
Lemma behind_empty_key (front : list A) :
  forall p back,
    StronglySorted descending (front ++ p :: back)%list ->
    key p = EmptyString ->
    Forall (fun q => localeCompare (key q) EmptyString = 0%Z) back.
Proof.
  induction front as [|y front IH]; intros p back Hs Hp.
  - inversion Hs as [|? ? _ Hall]; subst.
    eapply Forall_impl; [|exact Hall].
    unfold descending. rewrite Hp. intros q Hq.
    pose proof (localeCompare_empty (key q)).
    pose proof (localeCompare_antisym (key q) EmptyString). lia.
  - inversion Hs; subst. now apply IH with p.
Qed.

End Keyed.
End SortFacts.

Module Posts.
Section Dates.

Context {host : Host}.

(** The string [(p.date || '')] when [p] is not [null] and the value is a
    string. *)
Definition date_key (p : JSON) : option string :=
  match Value.Get p "date" with
  | OK d =>
      match Value.or_empty d with
      | JString s => Some s
      | _ => None
      end
  | Throw _ => None
  end.

Definition dated (p : JSON) : Prop := date_key p <> None.

Definition date_of (p : JSON) : string :=
  match date_key p with
  | Some s => s
  | None => EmptyString
  end.

(** On the dates of [posts], [localeCompare] orders as the code units do. *)
Definition lexicographic_on (posts : list JSON) : Prop :=
  forall p q,
    In p posts -> In q posts ->
    (localeCompare (date_of p) (date_of q) <= 0)%Z ->
    String.leb (date_of p) (date_of q) = true.

Lemma by_date_dated (a b : JSON) :
  dated a -> dated b ->
  by_date a b = OK (localeCompare (date_of b) (date_of a)).
Proof.
  unfold dated, date_of, date_key, by_date. intros Ha Hb.
  destruct (Value.Get b "date") as [bd|]; [|congruence].
  destruct (Value.Get a "date") as [ad|]; [|congruence].
  cbn [rbind].
  destruct (Value.or_empty bd); try congruence.
  destruct (Value.or_empty ad); try congruence.
  reflexivity.
Qed.

End Dates.
End Posts.

(* ================================================================= *)
(** ** Directory entries *)

Module FSFacts.
Import FS.

Lemma assoc_remove_same (k : string) (es : list (string * node)) :
  Value.assoc k (remove_entry k es) = None.
Proof.
  induction es as [|[k' x] es IH]; simpl; [reflexivity|].
  destruct (String.eqb k k') eqn:E; simpl; [exact IH|].
  now rewrite E.
Qed.

Lemma assoc_remove_other (k d : string) (es : list (string * node)) :
  k <> d -> Value.assoc k (remove_entry d es) = Value.assoc k es.
Proof.
  intros Hkd. induction es as [|[k' x] es IH]; simpl; [reflexivity|].
  destruct (String.eqb d k') eqn:E; simpl.
  - apply String.eqb_eq in E. subst k'.
    apply String.eqb_neq in Hkd. now rewrite Hkd.
  - now rewrite IH.
Qed.

Lemma assoc_app_other (k d : string) (x : node) (es : list (string * node)) :
  k <> d -> Value.assoc k (es ++ [(d, x)])%list = Value.assoc k es.
Proof.
  intros Hkd. induction es as [|[k' y] es IH]; simpl.
  - apply String.eqb_neq in Hkd. now rewrite Hkd.
  - now rewrite IH.
Qed.

Lemma set_entry_absent (k : string) (n : node) (es : list (string * node)) :
  Value.assoc k es = None -> set_entry k n es = (es ++ [(k, n)])%list.
Proof.
  induction es as [|[k' x] es IH]; simpl; [reflexivity|].
  destruct (String.eqb k k'); [discriminate|].
  intros H. now rewrite IH.
Qed.

Lemma remove_entry_absent (k : string) (es : list (string * node)) :
  Value.assoc k es = None -> remove_entry k es = es.
Proof.
  induction es as [|[k' x] es IH]; simpl; [reflexivity|].
  destruct (String.eqb k k'); [discriminate|].
  intros H. simpl. now rewrite IH.
Qed.

Lemma remove_set_entry (k : string) (n : node) (es : list (string * node)) :
  remove_entry k (set_entry k n es) = remove_entry k es.
Proof.
  induction es as [|[k' x] es IH]; simpl.
  - now rewrite String.eqb_refl.
  - destruct (String.eqb k k') eqn:E; simpl; rewrite E; simpl.
    + reflexivity.
    + now rewrite IH.
Qed.

Lemma remove_remove (k : string) (es : list (string * node)) :
  remove_entry k (remove_entry k es) = remove_entry k es.
Proof.
  induction es as [|[k' x] es IH]; simpl; [reflexivity|].
  destruct (String.eqb k k') eqn:E; simpl; [exact IH|].
  rewrite E. simpl. now rewrite IH.
Qed.

Lemma remove_app_same (k : string) (x : node) (es : list (string * node)) :
  remove_entry k (es ++ [(k, x)])%list = remove_entry k es.
Proof.
  unfold remove_entry. rewrite filter_app. simpl.
  rewrite String.eqb_refl. simpl. apply app_nil_r.
Qed.

Lemma assoc_recreated (d : string) (x : node) (es : list (string * node)) :
  Value.assoc d (remove_entry d es ++ [(d, x)])%list = Some x.
Proof.
  induction es as [|[k y] es IH]; simpl.
  - now rewrite String.eqb_refl.
  - destruct (String.eqb d k) eqn:E; simpl; [exact IH|].
    now rewrite E.
Qed.

(** The tree beside the entry [d] of the root. *)
Definition beside (d : string) (n : node) : node :=
  match n with
  | Dir es => Dir (remove_entry d es)
  | File _ => n
  end.

Lemma writeFile_beside (d : string) (p : path) (data : string) (n n' : node) :
  writeFile (d :: p) data n = OK n' -> beside d n' = beside d n.
Proof.
  destruct n as [|es]; simpl; [discriminate|].
  destruct p as [|q p].
  - destruct (Value.assoc d es) as [[|]|]; intros [= <-]; simpl;
      now rewrite remove_set_entry.
  - destruct (Value.assoc d es) as [c|]; [|discriminate].
    destruct (writeFile (q :: p) data c); simpl; [|discriminate].
    intros [= <-]. simpl. now rewrite remove_set_entry.
Qed.

Lemma mkdirp_beside (d : string) (p : path) (n n' : node) :
  mkdirp (d :: p) n = OK n' -> beside d n' = beside d n.
Proof.
  destruct n as [|es]; simpl; [discriminate|].
  match goal with |- rbind ?r _ = _ -> _ => destruct r end; simpl;
    [|discriminate].
  intros [= <-]. simpl. now rewrite remove_set_entry.
Qed.

Lemma rm_beside (d : string) (n : node) :
  beside d (rm [d] n) = beside d n.
Proof. destruct n as [|es]; simpl; [reflexivity|]. now rewrite remove_remove. Qed.

(** A path that does not enter [d] sees the same node once [d] has been
    removed and created again. *)
Lemma lookup_recreated (d k : string) (p : path) (x : node)
      (es : list (string * node)) :
  k <> d ->
  lookup (k :: p) (Dir (remove_entry d es ++ [(d, x)])%list)
  = lookup (k :: p) (Dir es).
Proof.
  intros Hkd. simpl.
  now rewrite (assoc_app_other _ _ Hkd), (assoc_remove_other _ Hkd).
Qed.

End FSFacts.

(* ================================================================= *)
(** ** Statements that write only below the output directory *)

Module Confined.
Import FS FSFacts.

(** [m] leaves the tree beside the root entry [d] as it finds it. *)
Definition confined {A} (d : string) (m : M A) : Prop :=
  forall n, beside d (fs_after (m n)) = beside d n.

(** [m] does not change the tree at all. *)
Definition reads_only {A} (m : M A) : Prop :=
  forall n, fs_after (m n) = n.

Lemma reads_only_confined {A} (d : string) (m : M A) :
  reads_only m -> confined d m.
Proof. intros H n. now rewrite H. Qed.

Lemma reads_only_bind {A B} (m : M A) (k : A -> M B) :
  reads_only m -> (forall a, reads_only (k a)) -> reads_only (bind m k).
Proof.
  intros Hm Hk n. unfold bind.
  destruct (result_of (m n)) eqn:E; simpl; rewrite ?Hk; apply Hm.
Qed.

Lemma reads_only_try {A} (m : M A) (h : exn -> M A) :
  reads_only m -> (forall e, reads_only (h e)) -> reads_only (try_catch m h).
Proof.
  intros Hm Hh n. unfold try_catch.
  destruct (result_of (m n)) eqn:E; simpl; rewrite ?Hh; apply Hm.
Qed.

Lemma reads_only_for {A S} (xs : list A) (body : S -> A -> M S) :
  (forall s x, reads_only (body s x)) ->
  forall s, reads_only (for_of xs body s).
Proof.
  intros Hb. induction xs as [|x xs IH]; intros s; simpl.
  - now intros n.
  - apply reads_only_bind; auto.
Qed.

Lemma reads_only_ret {A} (a : A) : reads_only (ret a).
Proof. now intros n. Qed.

Lemma reads_only_lift {A} (r : result A) : reads_only (lift r).
Proof. intros n. now destruct r. Qed.

Lemma reads_only_write (l : level) (line : string) :
  reads_only (console_write l line).
Proof. now intros n. Qed.

Lemma reads_only_exists (p : path) : reads_only (existsSync p).
Proof. now intros n. Qed.

Lemma reads_only_readFile (p : path) : reads_only (readFileSync p).
Proof. intros n. unfold readFileSync. apply reads_only_lift. Qed.

Lemma reads_only_readdir (p : path) : reads_only (readdirSync p).
Proof. intros n. unfold readdirSync. apply reads_only_lift. Qed.

Lemma confined_bind {A B} (d : string) (m : M A) (k : A -> M B) :
  confined d m -> (forall a, confined d (k a)) -> confined d (bind m k).
Proof.
  intros Hm Hk n. unfold bind.
  destruct (result_of (m n)) eqn:E; simpl; rewrite ?Hk; apply Hm.
Qed.

Lemma confined_if {A} (d : string) (b : bool) (m m' : M A) :
  confined d m -> confined d m' -> confined d (if b then m else m').
Proof. now destruct b. Qed.

Lemma confined_update (d : string) (f : node -> result node) :
  (forall n n', f n = OK n' -> beside d n' = beside d n) ->
  confined d (fs_update f).
Proof.
  intros Hf n. unfold fs_update. destruct (f n) eqn:E; simpl; auto.
Qed.

Lemma confined_writeFile (d : string) (p : path) (data : string) :
  confined d (writeFileSync (d :: p) data).
Proof. apply confined_update. intros n n'. apply writeFile_beside. Qed.

Lemma confined_mkdir (d : string) (p : path) :
  confined d (mkdirSync (d :: p)).
Proof. apply confined_update. intros n n'. apply mkdirp_beside. Qed.

Lemma confined_rm (d : string) : confined d (rmSync [d]).
Proof. intros n. apply rm_beside. Qed.

Lemma confined_copyFile (d : string) (src p : path) :
  confined d (copyFileSync src (d :: p)).
Proof.
  apply confined_bind.
  - apply reads_only_confined, reads_only_readFile.
  - intros data. apply confined_writeFile.
Qed.

(** Two statements that differ, if at all, in the lines they print. *)
Definition same_effect {A} (m m' : M A) : Prop :=
  forall n, fs_after (m n) = fs_after (m' n)
            /\ result_of (m n) = result_of (m' n).

Lemma same_effect_bind {A B} (m : M A) (k k' : A -> M B) :
  (forall a, same_effect (k a) (k' a)) ->
  same_effect (bind m k) (bind m k').
Proof.
  intros Hk n. unfold bind.
  destruct (result_of (m n)) eqn:E; simpl; auto. apply Hk.
Qed.

Lemma same_effect_log (x y : string) :
  same_effect (console_log x) (console_log y).
Proof. now intros n. Qed.

End Confined.

(* ================================================================= *)
(** ** Running statements *)

Module Run.

(** The outcome [r] of a continuation, behind the lines [out] already
    printed. *)
Definition after {A} (out : list (level * string)) (r : outcome A)
  : outcome A :=
  Outcome (fs_after r) (out ++ printed r)%list (result_of r).

Lemma after_Outcome {A} (out p : list (level * string)) (n : node)
      (c : completion A) :
  after out (Outcome n p c) = Outcome n (out ++ p)%list c.
Proof. reflexivity. Qed.

Lemma after_nil {A} (r : outcome A) : after [] r = r.
Proof. now destruct r. Qed.

Lemma bind_normal {A B} (m : M A) (k : A -> M B) (n n' : node)
      (out : list (level * string)) (a : A) :
  m n = Outcome n' out (Normal a) -> bind m k n = after out (k a n').
Proof. intros H. unfold bind. now rewrite H. Qed.

Lemma bind_thrown {A B} (m : M A) (k : A -> M B) (n n' : node)
      (out : list (level * string)) (e : exn) :
  m n = Outcome n' out (Thrown e) -> bind m k n = Outcome n' out (Thrown e).
Proof. intros H. unfold bind. now rewrite H. Qed.

Lemma bind_exited {A B} (m : M A) (k : A -> M B) (n n' : node)
      (out : list (level * string)) (c : Z) :
  m n = Outcome n' out (Exited c) -> bind m k n = Outcome n' out (Exited c).
Proof. intros H. unfold bind. now rewrite H. Qed.

Lemma existsSync_found (p : path) (n x : node) :
  FS.lookup p n = Some x -> existsSync p n = Outcome n [] (Normal true).
Proof. intros H. unfold existsSync. now rewrite H. Qed.

Lemma existsSync_missing (p : path) (n : node) :
  FS.lookup p n = None -> existsSync p n = Outcome n [] (Normal false).
Proof. intros H. unfold existsSync. now rewrite H. Qed.

Lemma readdirSync_dir (p : path) (n : node) (es : list (string * node)) :
  FS.lookup p n = Some (Dir es) -> readdirSync p n = Outcome n [] (Normal es).
Proof. intros H. unfold readdirSync, FS.readdir. now rewrite H. Qed.

Lemma readFileSync_file (p : path) (n : node) (data : string) :
  FS.lookup p n = Some (File data) ->
  readFileSync p n = Outcome n [] (Normal data).
Proof. intros H. unfold readFileSync, FS.readFile. now rewrite H. Qed.

Lemma lift_run {A} (r : result A) (n : node) :
  lift r n = Outcome n [] (match r with OK a => Normal a | Throw e => Thrown e end).
Proof. now destruct r. Qed.

End Run.

(* ================================================================= *)
(** ** Reading content *)

Module Content.
Section Reading.
Import Run.

Context {host : Host}.

(** What [readJSON] finds at [p]: the value of the document, or the
    fallback. *)
Definition stored (p : path) (fallback : JSON) (root : node) : JSON :=
  match FS.lookup p root with
  | Some (File text) =>
      match JSON_parse text with
      | OK v => v
      | Throw _ => fallback
      end
  | _ => fallback
  end.

(** [readJSON] prints nothing, changes nothing and always returns. *)
Lemma readJSON_stored (p : path) (fallback : JSON) (root : node) :
  readJSON p fallback root = Outcome root [] (Normal (stored p fallback root)).
Proof.
  unfold readJSON, stored.
  destruct (FS.lookup p root) as [[text|es]|] eqn:E.
  - erewrite bind_normal by (eapply existsSync_found; exact E).
    cbn [negb]. rewrite after_nil. unfold try_catch.
    erewrite bind_normal by (apply readFileSync_file; exact E).
    rewrite after_nil, lift_run.
    destruct (JSON_parse text); reflexivity.
  - erewrite bind_normal by (eapply existsSync_found; exact E).
    cbn [negb]. rewrite after_nil. unfold try_catch.
    erewrite bind_thrown
      by (unfold readFileSync, FS.readFile; rewrite E; reflexivity).
    reflexivity.
  - erewrite bind_normal by (eapply existsSync_missing; exact E).
    reflexivity.
Qed.

(** What one post file gives: its value, or the exception of reading or
    parsing it. *)
Definition load (root : node) (f : string) : result JSON :=
  rbind (FS.readFile (path_join POSTS_DIR f) root) JSON_parse.

Definition loaded (root : node) (names : list string) : list JSON :=
  flat_map (fun f => match load root f with
                     | OK post => [post]
                     | Throw _ => []
                     end) names.

Definition warnings (root : node) (names : list string)
  : list (level * string) :=
  flat_map (fun f => match load root f with
                     | OK _ => []
                     | Throw e => [(Warn, warning f e)]
                     end) names.

(** The body of the loop of [readPosts]. *)
Definition read_post (posts : list JSON) (f : string) : M (list JSON) :=
  try_catch
    (text <- readFileSync (path_join POSTS_DIR f) ;;
     post <- lift (JSON_parse text) ;;
     ret (posts ++ [post])%list)
    (fun e => console_warn (warning f e) ;;; ret posts).

Lemma read_post_load (posts : list JSON) (f : string) (root : node) :
  read_post posts f root
  = match load root f with
    | OK post => Outcome root [] (Normal (posts ++ [post])%list)
    | Throw e => Outcome root [(Warn, warning f e)] (Normal posts)
    end.
Proof.
  unfold read_post, load, try_catch, readFileSync.
  destruct (FS.readFile (path_join POSTS_DIR f) root) as [text|e] eqn:E.
  - erewrite bind_normal by (rewrite E; reflexivity).
    rewrite after_nil. cbn [rbind].
    destruct (JSON_parse text) as [post|e] eqn:P.
    + erewrite bind_normal by reflexivity. reflexivity.
    + erewrite bind_thrown by reflexivity. reflexivity.
  - erewrite bind_thrown by (rewrite E; reflexivity). reflexivity.
Qed.

Lemma loop_loaded (root : node) (names : list string) :
  forall posts,
    for_of names read_post posts root
    = Outcome root (warnings root names)
        (Normal (posts ++ loaded root names)%list).
Proof.
  induction names as [|f names IH]; intros posts; cbn [for_of].
  - unfold ret. cbn. now rewrite app_nil_r.
  - unfold loaded, warnings. cbn [flat_map].
    fold (loaded root names). fold (warnings root names).
    pose proof (read_post_load posts f root) as R.
    destruct (load root f) as [post|e];
      erewrite bind_normal by exact R; rewrite IH, after_Outcome.
    + now rewrite <- app_assoc.
    + reflexivity.
Qed.

Definition of_result {A} (r : result A) : completion A :=
  match r with
  | OK a => Normal a
  | Throw e => Thrown e
  end.

Definition json_names (entries : list (string * node)) : list string :=
  filter (fun f => Str.endsWith f ".json") (map fst entries).

(** [readPosts] on a posts directory: the warnings of the files that do
    not load, and the sort of the posts that do. *)
Lemma readPosts_directory (root : node) (entries : list (string * node)) :
  FS.lookup POSTS_DIR root = Some (Dir entries) ->
  readPosts root
  = Outcome root (warnings root (json_names entries))
      (of_result (ArraySort.sort by_date (loaded root (json_names entries)))).
Proof.
  intros H. unfold readPosts.
  erewrite bind_normal by (eapply existsSync_found; exact H).
  cbn [negb]. rewrite after_nil.
  erewrite bind_normal by (apply readdirSync_dir; exact H).
  rewrite after_nil.
  erewrite bind_normal by (apply (loop_loaded root (json_names entries) [])).
  rewrite lift_run, after_Outcome, app_nil_r. reflexivity.
Qed.

Lemma readPosts_no_directory (root : node) :
  FS.lookup POSTS_DIR root = None ->
  readPosts root = Outcome root [] (Normal []).
Proof.
  intros H. unfold readPosts.
  erewrite bind_normal by (eapply existsSync_missing; exact H).
  reflexivity.
Qed.

End Reading.
End Content.

(* ================================================================= *)
(** ** The build *)

Module Pipeline.
Section Steps.
Import Run Confined FS FSFacts Content.

Context {host : Host}.

Lemma node_nested_ind (P : node -> Prop) :
  (forall data, P (File data)) ->
  (forall es, Forall (fun e => P (snd e)) es -> P (Dir es)) ->
  forall n, P n.
Proof.
  intros HF HD. fix IH 1. intros [data|es]; [apply HF|].
  apply HD. induction es as [|[k c] es IHes]; constructor.
  - apply IH.
  - exact IHes.
Qed.

(** [cleanDir] of the output directory: whatever it held, the root ends
    with an empty [dist] as its last entry. *)
Lemma cleanDir_root (es : list (string * node)) :
  cleanDir DIST_DIR (Dir es)
  = Outcome (Dir (remove_entry "dist" es ++ [("dist", Dir [])])%list) []
      (Normal tt).
Proof.
  unfold cleanDir, DIST_DIR, ROOT. cbn [app].
  destruct (Value.assoc "dist" es) as [c|] eqn:E.
  - erewrite bind_normal
      by (eapply existsSync_found; cbn [lookup]; rewrite E; reflexivity).
    rewrite after_nil.
    erewrite bind_normal by reflexivity. rewrite after_nil.
    unfold mkdirSync, fs_update. cbn [rm mkdirp].
    rewrite assoc_remove_same. cbn [rbind].
    rewrite set_entry_absent by apply assoc_remove_same. reflexivity.
  - erewrite bind_normal
      by (eapply existsSync_missing; cbn [lookup]; rewrite E; reflexivity).
    rewrite after_nil.
    erewrite bind_normal by reflexivity. rewrite after_nil.
    unfold mkdirSync, fs_update. cbn [mkdirp]. rewrite E. cbn [rbind mkdirp].
    rewrite set_entry_absent by exact E.
    now rewrite remove_entry_absent by exact E.
Qed.

Lemma cleanDir_file (data : string) :
  cleanDir DIST_DIR (File data)
  = Outcome (File data) [] (Thrown (EEXIST "mkdir")).
Proof. reflexivity. Qed.

(** [cleanDir] of the output directory reads nothing but the tree beside
    it. *)
Lemma cleanDir_beside (n n' : node) :
  beside "dist" n = beside "dist" n' ->
  cleanDir DIST_DIR n = cleanDir DIST_DIR n'.
Proof.
  destruct n as [d|es], n' as [d'|es']; cbn [beside]; intros H;
    try discriminate.
  - now injection H as ->.
  - rewrite !cleanDir_root. now injection H as ->.
Qed.

Lemma readPosts_reads_only : reads_only readPosts.
Proof.
  unfold readPosts.
  apply reads_only_bind; [apply reads_only_exists|]. intros e.
  destruct (negb e); [apply reads_only_ret|].
  apply reads_only_bind; [apply reads_only_readdir|]. intros entries.
  apply reads_only_bind; [|intros; apply reads_only_lift].
  apply reads_only_for. intros posts f.
  apply reads_only_try.
  - apply reads_only_bind; [apply reads_only_readFile|]. intros text.
    apply reads_only_bind; [apply reads_only_lift|]. intros post.
    apply reads_only_ret.
  - intros e'. apply reads_only_bind; [apply reads_only_write|].
    intros _. apply reads_only_ret.
Qed.

Lemma readJSON_reads_only (p : path) (fallback : JSON) :
  reads_only (readJSON p fallback).
Proof. intros n. now rewrite readJSON_stored. Qed.

Lemma injectData_reads_only (html : string) : reads_only (injectData html).
Proof.
  unfold injectData.
  apply reads_only_bind; [apply readPosts_reads_only|]. intros posts.
  apply reads_only_bind; [apply readJSON_reads_only|]. intros unlinked.
  apply reads_only_bind; [apply readJSON_reads_only|]. intros about.
  apply reads_only_bind; [apply readJSON_reads_only|]. intros site.
  apply reads_only_bind; [apply reads_only_write|]. intros _.
  apply reads_only_lift.
Qed.

(** The posts loaded, [injectData] returns the text that [inject] gives
    for them and for the documents stored beside them. *)
Lemma injectData_run (html : string) (root : node) (posts : list JSON)
      (out : list (level * string)) :
  readPosts root = Outcome root out (Normal posts) ->
  injectData html root
  = Outcome root (out ++ [(Log, found_line (List.length posts))])%list
      (of_result
         (inject html posts
            (stored (content_file "unlinked-comments.json") (JArray []) root)
            (stored (content_file "about.json")
               (JObject [("en", JString ""); ("es", JString "")]) root)
            (stored (content_file "site.json") (JObject []) root))).
Proof.
  intros H. unfold injectData.
  erewrite bind_normal by exact H.
  erewrite bind_normal by apply readJSON_stored. rewrite after_nil.
  erewrite bind_normal by apply readJSON_stored. rewrite after_nil.
  erewrite bind_normal by apply readJSON_stored. rewrite after_nil.
  erewrite bind_normal by reflexivity.
  rewrite lift_run, !after_Outcome, app_nil_r. reflexivity.
Qed.

Lemma ensureDir_confined (p : path) : confined "dist" (ensureDir ("dist" :: p)).
Proof.
  unfold ensureDir.
  apply confined_bind; [apply reads_only_confined, reads_only_exists|].
  intros e. apply confined_if;
    [apply confined_mkdir | apply reads_only_confined, reads_only_ret].
Qed.

Lemma copyTree_confined (n : node) :
  forall src p, confined "dist" (copyTree n src ("dist" :: p)).
Proof.
  induction n as [data|es IH] using node_nested_ind; intros src p;
    cbn [copyTree].
  - apply confined_bind; [apply ensureDir_confined|]. intros _.
    apply reads_only_confined, reads_only_lift.
  - apply confined_bind; [apply ensureDir_confined|]. intros _.
    induction IH as [|[name child] es Hc _ IHes].
    + apply reads_only_confined, reads_only_ret.
    + apply confined_bind; [|intros _; exact IHes].
      cbn [snd] in Hc. destruct (isDirectory child).
      * apply (Hc (path_join src name) (p ++ [name])%list).
      * apply (confined_copyFile "dist" (path_join src name) (p ++ [name])%list).
Qed.

(** What [build] does once the output directory is clean. *)
Definition after_clean (start finish : Z) : M unit :=
  let tpl := TEMPLATE in
  e <- existsSync tpl ;;
  (if negb e then
     console_error "  ✗ templates/index.html not found — aborting" ;;;
     process_exit 1
   else ret tt) ;;;
  html <- readFileSync tpl ;;
  html <- injectData html ;;
  writeFileSync (path_join DIST_DIR "index.html") html ;;;
  console_log "  ✓ index.html" ;;;
  let assetsDir := path_join ROOT "assets" in
  e <- existsSync assetsDir ;;
  (if e then
     copyDirSync assetsDir (path_join DIST_DIR "assets") ;;;
     console_log "  ✓ assets/"
   else ret tt) ;;;
  let cname := path_join ROOT "CNAME" in
  e <- existsSync cname ;;
  (if e then
     copyFileSync cname (path_join DIST_DIR "CNAME") ;;;
     console_log "  ✓ CNAME"
   else ret tt) ;;;
  console_log (complete_line (finish - start)).

Definition started : level * string :=
  (Log, "works_on_work — build started").

Lemma build_steps (start finish : Z) :
  build start finish
  = (console_log (snd started) ;;;
     cleanDir DIST_DIR ;;;
     after_clean start finish).
Proof. reflexivity. Qed.

(** A run on a root directory: the start line, then the rest of the build
    on the tree with an empty [dist]. *)
Lemma run_root (start finish : Z) (es : list (string * node)) :
  run start finish (Dir es)
  = after [started]
      (after_clean start finish
         (Dir (remove_entry "dist" es ++ [("dist", Dir [])])%list)).
Proof.
  unfold run. rewrite build_steps.
  erewrite bind_normal by reflexivity.
  erewrite bind_normal by apply cleanDir_root.
  now rewrite after_nil.
Qed.

Lemma copyDirSync_confined (src p : path) :
  confined "dist" (copyDirSync src ("dist" :: p)).
Proof.
  intros n. unfold copyDirSync.
  destruct (lookup src n); [apply copyTree_confined | reflexivity].
Qed.

Lemma cleanDir_confined : confined "dist" (cleanDir DIST_DIR).
Proof.
  unfold cleanDir.
  apply confined_bind; [apply reads_only_confined, reads_only_exists|].
  intros e. apply confined_bind; [|intros _; apply (confined_mkdir "dist" [])].
  apply confined_if;
    [apply confined_rm | apply reads_only_confined, reads_only_ret].
Qed.

Lemma after_clean_confined (start finish : Z) :
  confined "dist" (after_clean start finish).
Proof.
  unfold after_clean.
  apply confined_bind; [apply reads_only_confined, reads_only_exists|].
  intros e. apply confined_bind.
  { apply confined_if; [|apply reads_only_confined, reads_only_ret].
    apply confined_bind; [apply reads_only_confined, reads_only_write|].
    intros _ n. reflexivity. }
  intros _. apply confined_bind;
    [apply reads_only_confined, reads_only_readFile|].
  intros html. apply confined_bind;
    [apply reads_only_confined, injectData_reads_only|].
  intros html'. apply confined_bind;
    [apply (confined_writeFile "dist" ["index.html"])|].
  intros _. apply confined_bind;
    [apply reads_only_confined, reads_only_write|].
  intros _. apply confined_bind;
    [apply reads_only_confined, reads_only_exists|].
  intros e'. apply confined_bind.
  { apply confined_if; [|apply reads_only_confined, reads_only_ret].
    apply confined_bind; [apply (copyDirSync_confined _ ["assets"])|].
    intros _. apply reads_only_confined, reads_only_write. }
  intros _. apply confined_bind;
    [apply reads_only_confined, reads_only_exists|].
  intros e''. apply confined_bind.
  { apply confined_if; [|apply reads_only_confined, reads_only_ret].
    apply confined_bind; [apply (confined_copyFile "dist" _ ["CNAME"])|].
    intros _. apply reads_only_confined, reads_only_write. }
  intros _. apply reads_only_confined, reads_only_write.
Qed.

Definition not_found : level * string :=
  (Error, "  ✗ templates/index.html not found — aborting").

(** Without the template the run stops right after the cleaning. *)
Lemma run_without_template (start finish : Z) (es : list (string * node)) :
  lookup TEMPLATE (Dir es) = None ->
  run start finish (Dir es)
  = Outcome (Dir (remove_entry "dist" es ++ [("dist", Dir [])])%list)
      [started; not_found] (Exited 1).
Proof.
  intros H. rewrite run_root. unfold after_clean.
  erewrite bind_normal.
  2:{ apply existsSync_missing. unfold TEMPLATE, ROOT, path_join. cbn [app].
      rewrite lookup_recreated by discriminate. exact H. }
  cbn [negb]. rewrite after_nil.
  erewrite bind_exited; [reflexivity|].
  erewrite bind_normal by reflexivity. reflexivity.
Qed.

(** The build writes only below [dist]. *)
Lemma build_confined (start finish : Z) :
  confined "dist" (build start finish).
Proof.
  rewrite build_steps.
  apply confined_bind; [apply reads_only_confined, reads_only_write|].
  intros _. apply confined_bind; [apply cleanDir_confined|].
  intros _. apply after_clean_confined.
Qed.

(** The build reads nothing of what [dist] held. *)
Lemma build_beside (start finish : Z) (n n' : node) :
  beside "dist" n = beside "dist" n' ->
  build start finish n = build start finish n'.
Proof.
  intros H. rewrite build_steps.
  erewrite !(@bind_normal _ _ (console_log (snd started))) by reflexivity.
  f_equal. unfold bind. now rewrite (cleanDir_beside _ _ H).
Qed.

(** The readings of the clock reach the console only. *)
Lemma build_clock (start finish start' finish' : Z) :
  same_effect (build start finish) (build start' finish').
Proof.
  unfold build. repeat (apply same_effect_bind; intros ?).
  apply same_effect_log.
Qed.

End Steps.
End Pipeline.

(* ================================================================= *)
(** ** Text that the injection leaves alone *)

Module Verbatim.
Import Str StrFacts.

Lemma occurs_refl (t : string) : occurs t t.
Proof. exists EmptyString, EmptyString. now rewrite append_nil_r. Qed.

Lemma occurs_app_l (t a b : string) : occurs t a -> occurs t (a ++ b).
Proof.
intros (pre & post & ->). exists pre, (post ++ b).
now rewrite !append_assoc.
Qed.

Lemma occurs_app_r (t a b : string) : occurs t b -> occurs t (a ++ b).
Proof.
intros (pre & post & ->). exists (a ++ pre), post.
now rewrite append_assoc.
Qed.

Lemma occurs_trans (a b c : string) : occurs a b -> occurs b c -> occurs a c.
Proof.
intros Hab (pre & post & ->). now apply occurs_app_r, occurs_app_l.
Qed.

Lemma occurs_join (sep x : string) (parts : list string) :
  In x parts -> occurs x (join sep parts).
Proof.
induction parts as [|p rest IH]; [intros []|].
intros [<-|H].
- destruct rest; [apply occurs_refl | apply occurs_app_l, occurs_refl].
- destruct rest as [|q rest]; [destruct H|].
  change (join sep (p :: q :: rest)) with (p ++ sep ++ join sep (q :: rest)).
  now apply occurs_app_r, occurs_app_r, IH.
Qed.

Lemma occurs_wrap (open close indent x : string) (partial : list string) :
  In x partial -> occurs x (Stringify.wrap open close indent partial).
Proof.
intros H. unfold Stringify.wrap.
apply occurs_app_r, occurs_app_r, occurs_app_r, occurs_app_l.
now apply occurs_join.
Qed.

(** An element of an array is printed inside the text of the array, a
    member of an object inside the text of the object. *)
Lemma element_printed (indent : string) (v : JSON) (l : list JSON) :
  In v l ->
  occurs (Stringify.SerializeJSONProperty (indent ++ Stringify.gap) v)
    (Stringify.SerializeJSONProperty indent (JArray l)).
Proof.
intros H. destruct l as [|x l]; [destruct H|].
cbn [Stringify.SerializeJSONProperty].
apply occurs_wrap. now apply in_map.
Qed.

Lemma member_printed (indent k : string) (v : JSON)
      (ms : list (string * JSON)) :
  In (k, v) ms ->
  occurs (Stringify.QuoteJSONString k ++ ": "
            ++ Stringify.SerializeJSONProperty (indent ++ Stringify.gap) v)
    (Stringify.SerializeJSONProperty indent (JObject ms)).
Proof.
intros H. destruct ms as [|m ms]; [destruct H|].
cbn [Stringify.SerializeJSONProperty].
apply occurs_wrap.
apply (in_map (fun m : string * JSON =>
                 let (k, x) := m in
                 Stringify.QuoteJSONString k ++ ": "
                   ++ Stringify.SerializeJSONProperty
                        (indent ++ Stringify.gap) x)) in H.
exact H.
Qed.

(** *** Through the substitution *)

Fixpoint no_dollar (s : string) : bool :=
  match s with
  | EmptyString => true
  | String c s' => negb (Ascii.eqb c "$") && no_dollar s'
  end.

(** The first character of [s] is none of those that make a pattern
    behind a dollar sign. *)
Definition inert_head (s : string) : bool :=
  match s with
  | EmptyString => false
  | String c _ =>
      negb (Ascii.eqb c "$" || Ascii.eqb c "&" || Ascii.eqb c "`"
            || Ascii.eqb c "'")
  end.

Section Substitution.

Variables matched preceding following : string.

Let subst := Replace.GetSubstitution matched preceding following.

Lemma subst_plain (w rest : string) :
  no_dollar w = true -> subst (w ++ rest) = w ++ subst rest.
Proof.
induction w as [|c w IH]; [reflexivity|].
cbn [no_dollar]. rewrite andb_true_iff, negb_true_iff. intros [Hc Hw].
unfold subst in *. cbn [append Replace.GetSubstitution]. rewrite Hc.
now rewrite IH.
Qed.

Lemma subst_prefix (n : nat) :
  forall a rest,
    String.length a <= n -> inert_head rest = true ->
    exists a', subst (a ++ rest) = a' ++ subst rest.
Proof.
induction n as [|n IH]; intros a rest L Hr.
- destruct a; [|simpl in L; lia]. now exists EmptyString.
- destruct a as [|x a1]; [now exists EmptyString|].
  simpl in L. unfold subst in *.
  cbn [append Replace.GetSubstitution].
  destruct (Ascii.eqb x "$") eqn:Hx.
  + destruct a1 as [|d a2].
    * destruct rest as [|c rest']; [discriminate|].
      cbn [append]. cbn [inert_head] in Hr.
      rewrite negb_true_iff, !orb_false_iff in Hr.
      destruct Hr as [[[-> ->] ->] ->].
      exists (String x EmptyString). reflexivity.
    * cbn [append].
      destruct (IH a2 rest ltac:(simpl in L; lia) Hr) as [a2' E2].
      destruct (IH (String d a2) rest ltac:(simpl in *; lia) Hr) as [a1' E1].
      cbn [append] in E1.
      destruct (Ascii.eqb d "$"); [|destruct (Ascii.eqb d "&");
        [|destruct (Ascii.eqb d "`"); [|destruct (Ascii.eqb d "'")]]].
      -- exists (String "$" a2'). now rewrite E2.
      -- exists (matched ++ a2'). now rewrite E2, append_assoc.
      -- exists (preceding ++ a2'). now rewrite E2, append_assoc.
      -- exists (following ++ a2'). now rewrite E2, append_assoc.
      -- exists (String x a1'). now rewrite E1.
  + destruct (IH a1 rest ltac:(lia) Hr) as [a1' E1].
    exists (String x a1'). now rewrite E1.
Qed.

(** A text without dollar sign, whose first character makes no pattern,
    goes through the substitution as it is. *)
Lemma occurs_subst (w r : string) :
  no_dollar w = true -> inert_head w = true ->
  occurs w r -> occurs w (subst r).
Proof.
intros Hd Hh (a & b & ->).
assert (Hr : inert_head (w ++ b) = true) by (destruct w; [discriminate|exact Hh]).
destruct (@subst_prefix (String.length a) a (w ++ b) (le_n _) Hr)
  as [a' ->].
rewrite subst_plain by exact Hd.
now exists a', (subst b).
Qed.


End Substitution.


(** *** Through the replacement of another token *)

Fixpoint mem (c : ascii) (s : string) : bool :=
  match s with
  | EmptyString => false
  | String x s' => Ascii.eqb c x || mem c s'
  end.

(** No character of [w] is a character of [t]. *)
Fixpoint disjoint (w t : string) : bool :=
  match w with
  | EmptyString => true
  | String c w' => negb (mem c t) && disjoint w' t
  end.

Lemma mem_middle (c : ascii) (a b : string) : mem c (a ++ String c b) = true.
Proof.
induction a as [|x a IH]; simpl.
- now rewrite Ascii.eqb_refl.
- rewrite IH. apply orb_true_r.
Qed.

Lemma disjoint_mem (w t : string) (c : ascii) :
  disjoint w t = true -> mem c w = true -> mem c t = false.
Proof.
induction w as [|x w IH]; simpl; [discriminate|].
rewrite andb_true_iff, negb_true_iff. intros [Hx Hw].
rewrite orb_true_iff. intros [E|E]; [|now apply IH].
apply Ascii.eqb_eq in E. now subst.
Qed.

Lemma no_common_char (w t a b a' b' : string) (c : ascii) :
  disjoint w t = true -> w = a ++ String c b -> t = a' ++ String c b' -> False.
Proof.
intros D -> ->.
pose proof (@disjoint_mem _ _ c D (mem_middle c a b)) as H.
rewrite mem_middle in H. discriminate.
Qed.

(** Where [w] and a non-empty [t] share no character, an occurrence of [w]
    lies wholly before or wholly behind any occurrence of [t]. *)
Lemma occurs_beside (w t a b pre post : string) :
  disjoint w t = true -> w <> EmptyString -> t <> EmptyString ->
  a ++ w ++ b = pre ++ t ++ post ->
  occurs w pre \/ occurs w post.
Proof.
intros D Hw Ht E.
destruct (le_lt_dec (String.length a) (String.length pre)) as [L|L].
- destruct (append_cut _ _ _ _ E L) as (m & -> & E1).
  destruct (le_lt_dec (String.length w) (String.length m)) as [L1|L1].
  + destruct (append_cut _ _ _ _ E1 L1) as (m' & -> & _).
    left. now exists a, m'.
  + symmetry in E1.
    destruct (append_cut _ _ _ _ E1 (Nat.lt_le_incl _ _ L1)) as (m2 & -> & E2).
    exfalso. destruct m2 as [|c m2].
    * rewrite append_nil_r in L1. lia.
    * destruct t as [|t0 t]; [congruence|]. injection E2 as -> _.
      exact (@no_common_char _ _ m m2 EmptyString t c D eq_refl eq_refl).
- symmetry in E.
  destruct (append_cut _ _ _ _ E (Nat.lt_le_incl _ _ L)) as (m & -> & E1).
  destruct (le_lt_dec (String.length t) (String.length m)) as [L1|L1].
  + destruct (append_cut _ _ _ _ E1 L1) as (m' & -> & ->).
    right. now exists m', b.
  + symmetry in E1.
    destruct (append_cut _ _ _ _ E1 (Nat.lt_le_incl _ _ L1)) as (t2 & -> & E2).
    exfalso. destruct t2 as [|c t2].
    * rewrite append_nil_r in L1. lia.
    * destruct w as [|w0 w]; [congruence|]. injection E2 as -> _.
      exact (@no_common_char _ _ EmptyString w m t2 c D eq_refl eq_refl).
Qed.

(** Replacing a token leaves in the text what shares no character with
    the token. *)
Lemma occurs_replace_other (w s t r : string) :
  disjoint w t = true -> w <> EmptyString -> t <> EmptyString ->
  occurs w s -> occurs w (Replace.replace s t r).
Proof.
intros D Hw Ht (a & b & E).
destruct (indexOf s t) as [n|] eqn:I.
- destruct (indexOf_Some _ _ I) as (pre & post & F & _).
  rewrite (replace_first r F). destruct F as [E' _]. rewrite E in E'.
  destruct (@occurs_beside _ _ _ _ _ _ D Hw Ht E') as [H|H].
  + now apply occurs_app_l.
  + now apply occurs_app_r, occurs_app_r.
- rewrite replace_absent by exact (indexOf_None I). now exists a, b.
Qed.

(** Replacing a token that the text holds puts there what goes through
    the substitution. *)
Lemma occurs_replace_here (w s t r : string) :
  no_dollar w = true -> inert_head w = true ->
  occurs t s -> occurs w r -> occurs w (Replace.replace s t r).
Proof.
intros Hd Hh Ht Hr.
destruct (occurs_first Ht) as (pre & post & F).
rewrite (replace_first r F).
apply occurs_app_r, occurs_app_l. now apply occurs_subst.
Qed.

End Verbatim.

(* ================================================================= *)
(** ** Copying a tree *)

Module Copy.
Import Run FS FSFacts.

(** The names of a directory are distinct, in every directory of the
    tree. *)
Fixpoint distinct (names : list string) : bool :=
  match names with
  | [] => true
  | x :: rest => negb (existsb (String.eqb x) rest) && distinct rest
  end.

Fixpoint well_formed (n : node) : bool :=
  match n with
  | File _ => true
  | Dir es =>
      distinct (map fst es)
      && (fix all (es : list (string * node)) : bool :=
            match es with
            | [] => true
            | (_, c) :: rest => well_formed c && all rest
            end) es
  end.

(** The tree [n] with the entries of its directory at [p] changed by [f]. *)
Fixpoint within (p : path) (f : list (string * node) -> list (string * node))
         (n : node) : node :=
  match n with
  | File _ => n
  | Dir es =>
      match p with
      | [] => Dir (f es)
      | k :: rest =>
          match Value.assoc k es with
          | Some c => Dir (set_entry k (within rest f c) es)
          | None => n
          end
      end
  end.

Lemma assoc_set_entry (k : string) (x : node) (es : list (string * node)) :
  Value.assoc k (set_entry k x es) = Some x.
Proof.
induction es as [|[k' y] es IH]; simpl.
- now rewrite String.eqb_refl.
- destruct (String.eqb k k') eqn:E; simpl; rewrite E; [reflexivity | exact IH].
Qed.

Lemma assoc_set_entry_other (k d : string) (x : node)
      (es : list (string * node)) :
  k <> d -> Value.assoc k (set_entry d x es) = Value.assoc k es.
Proof.
intros Hkd. induction es as [|[k' y] es IH]; simpl.
- apply String.eqb_neq in Hkd. now rewrite Hkd.
- destruct (String.eqb d k') eqn:E; simpl.
  + apply String.eqb_eq in E. subst k'.
    apply String.eqb_neq in Hkd. now rewrite Hkd.
  + now rewrite IH.
Qed.

Lemma set_entry_twice (k : string) (x y : node) (es : list (string * node)) :
  set_entry k y (set_entry k x es) = set_entry k y es.
Proof.
induction es as [|[k' z] es IH]; simpl.
- now rewrite String.eqb_refl.
- destruct (String.eqb k k') eqn:E; simpl; rewrite E; [reflexivity|].
  now rewrite IH.
Qed.

Lemma lookup_app (p q : path) (n : node) :
  lookup (p ++ q)%list n
  = match lookup p n with
    | Some c => lookup q c
    | None => None
    end.
Proof.
revert n. induction p as [|k p IH]; intros n; [reflexivity|].
cbn [app lookup]. destruct n as [|es]; [reflexivity|].
destruct (Value.assoc k es); [apply IH | reflexivity].
Qed.

Lemma lookup_within (p : path) (f : list (string * node) -> list (string * node)) :
  forall n ds,
    lookup p n = Some (Dir ds) -> lookup p (within p f n) = Some (Dir (f ds)).
Proof.
induction p as [|k p IH]; intros n ds H.
- cbn in H. injection H as ->. reflexivity.
- destruct n as [|es]; [discriminate|]. cbn [lookup within] in *.
  destruct (Value.assoc k es) as [c|] eqn:E; [|discriminate].
  cbn [lookup]. rewrite assoc_set_entry. now apply IH.
Qed.

Lemma lookup_within_other (a d : string) (q p : path)
      (f : list (string * node) -> list (string * node)) (n : node) :
  a <> d -> lookup (a :: q) (within (d :: p) f n) = lookup (a :: q) n.
Proof.
intros Had. destruct n as [|es]; [reflexivity|]. cbn [within].
destruct (Value.assoc d es) as [c|]; [|reflexivity].
cbn [lookup]. now rewrite (assoc_set_entry_other _ _ Had).
Qed.

Lemma within_within (p : path)
      (f g : list (string * node) -> list (string * node)) :
  forall n ds,
    lookup p n = Some (Dir ds) ->
    within p g (within p f n) = within p (fun es => g (f es)) n.
Proof.
induction p as [|k p IH]; intros n ds H.
- cbn in H. injection H as ->. reflexivity.
- destruct n as [|es]; [discriminate|]. cbn [lookup within] in *.
  destruct (Value.assoc k es) as [c|] eqn:E; [|discriminate].
  cbn [within]. rewrite assoc_set_entry, set_entry_twice.
  now rewrite (IH c ds H).
Qed.

Lemma within_ext (p : path)
      (f g : list (string * node) -> list (string * node)) :
  forall n ds,
    lookup p n = Some (Dir ds) -> f ds = g ds -> within p f n = within p g n.
Proof.
induction p as [|k p IH]; intros n ds H Hfg.
- cbn in H. injection H as ->. cbn. now rewrite Hfg.
- destruct n as [|es]; [discriminate|]. cbn [lookup within] in *.
  destruct (Value.assoc k es) as [c|] eqn:E; [|discriminate].
  now rewrite (IH c ds H Hfg).
Qed.

(** A change in the directory [name] of the directory at [p] is a change of
    the entry [name] there. *)
Lemma within_zoom (p : path) (name : string)
      (f : list (string * node) -> list (string * node)) :
  forall n ds es,
    lookup p n = Some (Dir ds) -> Value.assoc name ds = Some (Dir es) ->
    within (p ++ [name])%list f n = within p (set_entry name (Dir (f es))) n.
Proof.
induction p as [|k p IH]; intros n ds es H Hn.
- cbn in H. injection H as ->. cbn [app within]. now rewrite Hn.
- destruct n as [|es0]; [discriminate|]. cbn [app lookup within] in *.
  destruct (Value.assoc k es0) as [c|] eqn:E; [|discriminate].
  now rewrite (IH c ds es H Hn).
Qed.

Lemma within_entry (p : path) (name : string)
      (g : list (string * node) -> list (string * node))
      (n : node) (ds es : list (string * node)) :
  lookup p n = Some (Dir ds) ->
  within (p ++ [name])%list g (within p (set_entry name (Dir es)) n)
  = within p (set_entry name (Dir (g es))) n.
Proof.
intros H.
rewrite within_zoom with (ds := set_entry name (Dir es) ds) (es := es);
  [|now apply lookup_within | apply assoc_set_entry].
rewrite within_within with (ds := ds) by exact H.
apply within_ext with (ds := ds); [exact H | apply set_entry_twice].
Qed.

Lemma writeFile_within (p : path) (name data : string) :
  forall n ds,
    lookup p n = Some (Dir ds) ->
    (forall es, Value.assoc name ds <> Some (Dir es)) ->
    writeFile (p ++ [name])%list data n
    = OK (within p (set_entry name (File data)) n).
Proof.
induction p as [|k p IH]; intros n ds H Hn.
- cbn in H. injection H as ->. cbn.
  destruct (Value.assoc name ds) as [[d|es]|] eqn:E; try reflexivity.
  now destruct (Hn es).
- destruct n as [|es]; [discriminate|]. cbn [lookup] in H.
  destruct (Value.assoc k es) as [c|] eqn:E; [|discriminate].
  cbn [app within]. rewrite E.
  destruct (p ++ [name])%list as [|x xs] eqn:Q;
    [now destruct (app_cons_not_nil _ _ _ (eq_sym Q))|].
  change (writeFile (k :: x :: xs) data (Dir es))
    with (match Value.assoc k es with
          | Some c =>
              rbind (writeFile (x :: xs) data c)
                (fun c' => OK (Dir (set_entry k c' es)))
          | None => Throw (ENOENT "open")
          end).
  rewrite E, (IH c ds H Hn). reflexivity.
Qed.

Lemma mkdirp_within (p : path) (name : string) :
  forall n ds,
    lookup p n = Some (Dir ds) -> Value.assoc name ds = None ->
    mkdirp (p ++ [name])%list n = OK (within p (set_entry name (Dir [])) n).
Proof.
induction p as [|k p IH]; intros n ds H Hn.
- cbn in H. injection H as ->. cbn. now rewrite Hn.
- destruct n as [|es]; [discriminate|]. cbn [lookup] in H.
  destruct (Value.assoc k es) as [c|] eqn:E; [|discriminate].
  cbn [app within mkdirp]. rewrite E, (IH c ds H Hn). reflexivity.
Qed.

Lemma distinct_before (k : string) (l1 l2 : list string) :
  distinct (l1 ++ k :: l2)%list = true ->
  forall e, In e l1 -> String.eqb k e = false.
Proof.
induction l1 as [|x l1 IH]; intros D e; [intros []|].
cbn [app distinct] in D. rewrite andb_true_iff, negb_true_iff in D.
destruct D as [Dx D]. intros [<-|He]; [|now apply IH].
rewrite existsb_app in Dx. apply orb_false_iff in Dx as [_ Dx].
cbn [existsb] in Dx. apply orb_false_iff in Dx as [Dx _].
now rewrite String.eqb_sym.
Qed.

Lemma assoc_absent (k : string) (es : list (string * node)) :
  (forall e, In e (map fst es) -> String.eqb k e = false) ->
  Value.assoc k es = None.
Proof.
induction es as [|[k' x] es IH]; intros H; [reflexivity|].
cbn [Value.assoc]. rewrite (H k' (or_introl eq_refl)).
apply IH. intros e He. apply H. now right.
Qed.

Lemma assoc_first (k : string) (x : node) (es1 rest : list (string * node)) :
  Value.assoc k es1 = None ->
  Value.assoc k (es1 ++ (k, x) :: rest)%list = Some x.
Proof.
induction es1 as [|[k' y] es1 IH]; cbn [app Value.assoc].
- now rewrite String.eqb_refl.
- destruct (String.eqb k k'); [discriminate | exact IH].
Qed.

Lemma well_formed_children (es : list (string * node)) :
  well_formed (Dir es) = true ->
  distinct (map fst es) = true /\
  Forall (fun e => well_formed (snd e) = true) es.
Proof.
cbn [well_formed]. rewrite andb_true_iff. intros [D A]. split; [exact D|].
clear D. induction es as [|[k c] es IH]; constructor.
- cbn [snd]. now apply andb_true_iff in A as [A _].
- apply IH. now apply andb_true_iff in A as [_ A].
Qed.

(** The loop of [copyDirSync] over the entries of the source. *)
Definition each_entry (src dest : path) : list (string * node) -> M unit :=
  fix each (es : list (string * node)) : M unit :=
    match es with
    | [] => ret tt
    | (name, child) :: rest =>
        let s := path_join src name in
        let d := path_join dest name in
        (if isDirectory child then copyTree child s d
         else copyFileSync s d) ;;;
        each rest
    end.

Lemma copyTree_dir (es : list (string * node)) (src dest : path) :
  copyTree (Dir es) src dest = (ensureDir dest ;;; each_entry src dest es).
Proof. reflexivity. Qed.

(** Copying the well-formed directory [n] found at a source path to a new
    name of a directory elsewhere completes and makes [n] the entry of
    that name. *)
Definition copies (n : node) : Prop :=
  forall a sp d pp name r ds,
    well_formed n = true -> isDirectory n = true ->
    a <> d ->
    lookup (a :: sp) r = Some n ->
    lookup (d :: pp) r = Some (Dir ds) ->
    Value.assoc name ds = None ->
    copyTree n (a :: sp) ((d :: pp) ++ [name])%list r
    = Outcome (within (d :: pp) (set_entry name n) r) [] (Normal tt).

Lemma copyFile_within (a d name k data : string) (sp pp : path) (r : node)
      (ds es es1 : list (string * node)) :
  a <> d ->
  lookup (a :: sp) r = Some (Dir es) ->
  lookup (d :: pp) r = Some (Dir ds) ->
  Value.assoc k es = Some (File data) ->
  Value.assoc k es1 = None ->
  copyFileSync (path_join (a :: sp) k) (path_join ((d :: pp) ++ [name])%list k)
    (within (d :: pp) (set_entry name (Dir es1)) r)
  = Outcome
      (within (d :: pp) (set_entry name (Dir (es1 ++ [(k, File data)])%list)) r)
      [] (Normal tt).
Proof.
intros Had Hsrc Hpar Hk Hk1. unfold copyFileSync, path_join.
erewrite bind_normal.
2:{ apply readFileSync_file. rewrite lookup_app.
    rewrite lookup_within_other by exact Had. rewrite Hsrc. cbn [lookup].
    now rewrite Hk. }
rewrite after_nil. unfold writeFileSync, fs_update.
rewrite writeFile_within with (ds := es1).
- rewrite within_entry with (ds := ds) by exact Hpar.
  now rewrite set_entry_absent by exact Hk1.
- rewrite lookup_app. rewrite lookup_within with (ds := ds) by exact Hpar.
  cbn [lookup]. now rewrite assoc_set_entry.
- intros es'. rewrite Hk1. discriminate.
Qed.

Lemma each_entry_copies (a d name : string) (sp pp : path) (r : node)
      (ds es : list (string * node)) :
  a <> d ->
  lookup (a :: sp) r = Some (Dir es) ->
  lookup (d :: pp) r = Some (Dir ds) ->
  distinct (map fst es) = true ->
  forall es2 es1,
    es = (es1 ++ es2)%list ->
    Forall (fun e => well_formed (snd e) = true) es2 ->
    Forall (fun e => copies (snd e)) es2 ->
    each_entry (a :: sp) ((d :: pp) ++ [name])%list es2
      (within (d :: pp) (set_entry name (Dir es1)) r)
    = Outcome (within (d :: pp) (set_entry name (Dir es)) r) [] (Normal tt).
Proof.
intros Had Hsrc Hpar Hdis.
induction es2 as [|[k child] rest IH]; intros es1 Hes Hwf Hcp.
- rewrite app_nil_r in Hes. subst es1. reflexivity.
- inversion Hwf as [|? ? Hwc Hwr]; subst.
  inversion Hcp as [|? ? Hcc Hcr]; subst. cbn [snd] in Hwc, Hcc.
  assert (Hk1 : Value.assoc k es1 = None).
  { apply assoc_absent. rewrite map_app in Hdis. cbn [map fst] in Hdis.
    apply distinct_before with (l2 := map fst rest). exact Hdis. }
  assert (Hk : Value.assoc k (es1 ++ (k, child) :: rest)%list = Some child)
    by now apply assoc_first.
  assert (Hnext : ((es1 ++ [(k, child)]) ++ rest)%list
                  = (es1 ++ (k, child) :: rest)%list)
    by now rewrite <- app_assoc.
  change (each_entry (a :: sp) ((d :: pp) ++ [name])%list ((k, child) :: rest))
    with ((if isDirectory child
           then copyTree child (path_join (a :: sp) k)
                  (path_join ((d :: pp) ++ [name])%list k)
           else copyFileSync (path_join (a :: sp) k)
                  (path_join ((d :: pp) ++ [name])%list k)) ;;;
          each_entry (a :: sp) ((d :: pp) ++ [name])%list rest).
  destruct child as [data|ces]; cbn [isDirectory].
  + erewrite bind_normal
      by (eapply copyFile_within; [exact Had|exact Hsrc|exact Hpar|exact Hk|exact Hk1]).
    rewrite after_nil. apply IH; auto.
  + erewrite bind_normal.
    2:{ unfold path_join.
        change ((a :: sp) ++ [k])%list with (a :: (sp ++ [k]))%list.
        change (((d :: pp) ++ [name]) ++ [k])%list
          with ((d :: (pp ++ [name])) ++ [k])%list.
        apply (Hcc a (sp ++ [k])%list d (pp ++ [name])%list k _ es1);
          [exact Hwc | reflexivity | exact Had | | | exact Hk1].
        - change (a :: sp ++ [k])%list with ((a :: sp) ++ [k])%list.
          rewrite lookup_app. rewrite lookup_within_other by exact Had.
          rewrite Hsrc. cbn [lookup]. now rewrite Hk.
        - change (d :: pp ++ [name])%list with ((d :: pp) ++ [name])%list.
          rewrite lookup_app.
          rewrite lookup_within with (ds := ds) by exact Hpar.
          cbn [lookup]. now rewrite assoc_set_entry. }
    rewrite after_nil.
    change (d :: pp ++ [name])%list with ((d :: pp) ++ [name])%list.
    rewrite within_entry with (ds := ds) by exact Hpar.
    rewrite set_entry_absent by exact Hk1.
    apply IH; auto.
Qed.

Theorem copyTree_copies (n : node) : copies n.
Proof.
induction n as [data|es IH] using Pipeline.node_nested_ind;
  intros a sp d pp name r ds Hwf Hdir Had Hsrc Hpar Hname;
  [discriminate|].
pose proof Hwf as W. apply well_formed_children in W.
destruct W as [Hdis Hch].
rewrite copyTree_dir.
erewrite bind_normal.
2:{ unfold ensureDir. erewrite bind_normal.
    2:{ apply existsSync_missing. rewrite lookup_app, Hpar. cbn [lookup].
        now rewrite Hname. }
    cbn [negb]. rewrite after_nil. unfold mkdirSync, fs_update.
    rewrite mkdirp_within with (ds := ds) by assumption. reflexivity. }
rewrite after_nil.
exact (@each_entry_copies a d name sp pp r ds es Had Hsrc Hpar Hdis es []
         eq_refl Hch IH).
Qed.

End Copy.

(* ================================================================= *)
(** ** A build that completes *)

Module Complete.
Section Site.
Import Run FS FSFacts Content Pipeline Copy.

Context {host : Host}.

(** The site [es] with [dist] holding the entries [des], as its last
    entry. *)
Definition with_dist (es des : list (string * node)) : node :=
  Dir (remove_entry "dist" es ++ [("dist", Dir des)])%list.

Lemma lookup_with_dist (k : string) (p : path) (es des : list (string * node)) :
  k <> "dist" -> lookup (k :: p) (with_dist es des) = lookup (k :: p) (Dir es).
Proof. intros H. now apply lookup_recreated. Qed.

Lemma lookup_dist (es des : list (string * node)) :
  lookup ["dist"] (with_dist es des) = Some (Dir des).
Proof. unfold with_dist. cbn [lookup]. now rewrite assoc_recreated. Qed.

Lemma set_entry_recreated (d : string) (x y : node)
      (es : list (string * node)) :
  set_entry d x (remove_entry d es ++ [(d, y)])%list
  = (remove_entry d es ++ [(d, x)])%list.
Proof.
induction es as [|[k z] es IH]; simpl.
- now rewrite String.eqb_refl.
- destruct (String.eqb d k) eqn:E; simpl; [exact IH|].
  rewrite E. now rewrite IH.
Qed.

Lemma within_dist (f : list (string * node) -> list (string * node))
      (es des : list (string * node)) :
  within ["dist"] f (with_dist es des) = with_dist es (f des).
Proof.
unfold with_dist. cbn [within]. rewrite assoc_recreated. cbn [within].
now rewrite set_entry_recreated.
Qed.

Lemma existsSync_run (p : path) (n : node) :
  existsSync p n
  = Outcome n []
      (Normal (match lookup p n with Some _ => true | None => false end)).
Proof. reflexivity. Qed.

Lemma load_with_dist (es des : list (string * node)) (f : string) :
  load (with_dist es des) f = load (Dir es) f.
Proof.
unfold load, readFile, POSTS_DIR, ROOT, path_join. cbn [app].
now rewrite lookup_with_dist by discriminate.
Qed.

Lemma readPosts_file (root : node) (data : string) :
  lookup POSTS_DIR root = Some (File data) ->
  readPosts root = Outcome root [] (Thrown (ENOTDIR "scandir")).
Proof.
intros H. unfold readPosts.
erewrite bind_normal by (eapply existsSync_found; exact H).
cbn [negb]. rewrite after_nil.
erewrite bind_thrown; [reflexivity|].
unfold readdirSync, readdir. now rewrite H.
Qed.

(** [readPosts] reads nothing of [dist]. *)
Lemma readPosts_with_dist (es des : list (string * node)) :
  readPosts (with_dist es des)
  = Outcome (with_dist es des) (printed (readPosts (Dir es)))
      (result_of (readPosts (Dir es))).
Proof.
assert (L : lookup POSTS_DIR (with_dist es des) = lookup POSTS_DIR (Dir es)).
{ unfold POSTS_DIR, ROOT, path_join. cbn [app].
  now apply lookup_with_dist. }
destruct (lookup POSTS_DIR (Dir es)) as [[data|entries]|] eqn:E.
- now rewrite (readPosts_file _ L), (readPosts_file _ E).
- rewrite (readPosts_directory _ L), (readPosts_directory _ E).
  cbn [printed result_of]. unfold warnings, loaded.
  f_equal; [|f_equal; f_equal]; apply flat_map_ext; intros f;
    now rewrite load_with_dist.
- now rewrite (readPosts_no_directory _ L), (readPosts_no_directory _ E).
Qed.

Lemma stored_with_dist (name : string) (fallback : JSON)
      (es des : list (string * node)) :
  stored (content_file name) fallback (with_dist es des)
  = stored (content_file name) fallback (Dir es).
Proof.
unfold stored, content_file, ROOT, path_join. cbn [app].
now rewrite lookup_with_dist by discriminate.
Qed.

(** What the build copies of the assets and of the domain file. *)
Definition assets_entry (es : list (string * node)) : list (string * node) :=
  match lookup ["assets"] (Dir es) with
  | Some n => [("assets", n)]
  | None => []
  end.

Definition assets_line (es : list (string * node)) : list (level * string) :=
  match lookup ["assets"] (Dir es) with
  | Some _ => [(Log, "  ✓ assets/")]
  | None => []
  end.

Definition cname_entry (es : list (string * node)) : list (string * node) :=
  match lookup ["CNAME"] (Dir es) with
  | Some n => [("CNAME", n)]
  | None => []
  end.

Definition cname_line (es : list (string * node)) : list (level * string) :=
  match lookup ["CNAME"] (Dir es) with
  | Some _ => [(Log, "  ✓ CNAME")]
  | None => []
  end.

(** The assets are absent or a well-formed directory; the domain file is
    absent or a file. *)
Definition assets_fine (es : list (string * node)) : Prop :=
  match lookup ["assets"] (Dir es) with
  | Some n => isDirectory n = true /\ well_formed n = true
  | None => True
  end.

Definition cname_fine (es : list (string * node)) : Prop :=
  match lookup ["CNAME"] (Dir es) with
  | Some n => isDirectory n = false
  | None => True
  end.

Lemma assets_copied (es des : list (string * node)) :
  assets_fine es -> Value.assoc "assets" des = None ->
  (if match lookup ["assets"] (Dir es) with Some _ => true | None => false end
   then
     copyDirSync (path_join ROOT "assets") (path_join DIST_DIR "assets") ;;;
     console_log "  ✓ assets/"
   else ret tt) (with_dist es des)
  = Outcome (with_dist es (des ++ assets_entry es)%list) (assets_line es)
      (Normal tt).
Proof.
unfold assets_fine, assets_entry, assets_line. intros Hok Hnew.
destruct (lookup ["assets"] (Dir es)) as [n|] eqn:E.
- destruct Hok as [Hd Hw].
  assert (L : lookup ["assets"] (with_dist es des) = Some n)
    by (rewrite lookup_with_dist by discriminate; exact E).
  erewrite bind_normal.
  2:{ unfold copyDirSync, path_join, ROOT, DIST_DIR. cbn [app]. rewrite L.
      exact (@copyTree_copies n "assets" [] "dist" [] "assets" _ des Hw Hd
               ltac:(discriminate) L (lookup_dist es des) Hnew). }
  rewrite within_dist, set_entry_absent by exact Hnew. reflexivity.
- unfold ret. now rewrite app_nil_r.
Qed.

Lemma cname_copied (es des : list (string * node)) :
  cname_fine es -> Value.assoc "CNAME" des = None ->
  (if match lookup ["CNAME"] (Dir es) with Some _ => true | None => false end
   then
     copyFileSync (path_join ROOT "CNAME") (path_join DIST_DIR "CNAME") ;;;
     console_log "  ✓ CNAME"
   else ret tt) (with_dist es des)
  = Outcome (with_dist es (des ++ cname_entry es)%list) (cname_line es)
      (Normal tt).
Proof.
unfold cname_fine, cname_entry, cname_line. intros Hok Hnew.
destruct (lookup ["CNAME"] (Dir es)) as [[data|ces]|] eqn:E;
  [|discriminate|].
- assert (L : lookup ["CNAME"] (with_dist es des) = Some (File data))
    by (rewrite lookup_with_dist by discriminate; exact E).
  erewrite bind_normal.
  2:{ unfold copyFileSync, path_join, ROOT, DIST_DIR. cbn [app].
      erewrite bind_normal by (apply readFileSync_file; exact L).
      rewrite after_nil. unfold writeFileSync, fs_update.
      change ["dist"; "CNAME"] with (["dist"] ++ ["CNAME"])%list.
      rewrite writeFile_within with (ds := des);
        [reflexivity | apply lookup_dist |].
      intros es'. rewrite Hnew. discriminate. }
  rewrite within_dist, set_entry_absent by exact Hnew. reflexivity.
- unfold ret. now rewrite app_nil_r.
Qed.

(** A build whose template is there, whose posts load and sort, whose
    injection returns, and whose assets and domain file can be copied,
    completes: [dist] holds the injected page, the assets as they are and
    the domain file, and nothing else. *)
Theorem build_completes (start finish : Z) (es : list (string * node))
        (html text : string) (posts : list JSON)
        (warns : list (level * string)) :
  lookup TEMPLATE (Dir es) = Some (File html) ->
  readPosts (Dir es) = Outcome (Dir es) warns (Normal posts) ->
  inject html posts
    (stored (content_file "unlinked-comments.json") (JArray []) (Dir es))
    (stored (content_file "about.json")
       (JObject [("en", JString ""); ("es", JString "")]) (Dir es))
    (stored (content_file "site.json") (JObject []) (Dir es))
  = OK text ->
  assets_fine es -> cname_fine es ->
  run start finish (Dir es)
  = Outcome
      (with_dist es
         ([("index.html", File text)] ++ assets_entry es ++ cname_entry es)%list)
      ([started] ++ warns
         ++ [(Log, found_line (List.length posts)); (Log, "  ✓ index.html")]
         ++ assets_line es ++ cname_line es
         ++ [(Log, complete_line (finish - start))])%list
      (Normal tt).
Proof.
intros Ht Hp Hi Ha Hc. rewrite run_root. fold (with_dist es []).
unfold after_clean.
assert (Lt : lookup TEMPLATE (with_dist es []) = Some (File html)).
{ unfold TEMPLATE, ROOT, path_join in *. cbn [app] in *.
  now rewrite lookup_with_dist by discriminate. }
erewrite bind_normal by (eapply existsSync_found; exact Lt).
cbn [negb]. rewrite after_nil.
erewrite bind_normal by reflexivity. rewrite after_nil.
erewrite bind_normal by (apply readFileSync_file; exact Lt).
rewrite after_nil.
erewrite bind_normal.
2:{ erewrite injectData_run.
    2:{ rewrite readPosts_with_dist, Hp. reflexivity. }
    rewrite !stored_with_dist, Hi. reflexivity. }
erewrite bind_normal.
2:{ unfold writeFileSync, fs_update, DIST_DIR, ROOT, path_join. cbn [app].
    change ["dist"; "index.html"] with (["dist"] ++ ["index.html"])%list.
    rewrite writeFile_within with (ds := []);
      [rewrite within_dist; reflexivity | apply lookup_dist | discriminate]. }
erewrite bind_normal by reflexivity.
erewrite bind_normal by apply existsSync_run.
change (path_join ROOT "assets") with ["assets"].
rewrite lookup_with_dist by discriminate.
erewrite bind_normal by (apply assets_copied; [exact Ha | reflexivity]).
erewrite bind_normal by apply existsSync_run.
change (path_join ROOT "CNAME") with ["CNAME"].
rewrite lookup_with_dist by discriminate.
erewrite bind_normal.
2:{ apply cname_copied; [exact Hc|].
    unfold assets_entry. now destruct (lookup ["assets"] (Dir es)). }
unfold console_log, console_write, after.
cbn [fs_after printed result_of].
rewrite !app_nil_l, <- !app_assoc. reflexivity.
Qed.

End Site.
End Complete.

(* ================================================================= *)
(** * The claims *)

Import Run Confined FS FSFacts Content Pipeline Complete Examples.

(** C1 (as amended).  For every sequence of posts none of which is [null]
    and whose [date] fields are strings or absent (or another falsy
    value), the sort returns; the result holds the same posts, in
    descending order of their date strings as [localeCompare] compares
    them, which is the descending lexicographic order wherever
    [localeCompare] orders the dates at hand as the code units do; a
    missing or empty [date] counts as the empty string, and whatever
    stands behind a post of empty date collates equal to the empty string:
    such posts are at the end; the posts of one date keep their input
    order.  The result is the only stable descending arrangement of the
    posts, so it does not depend on the calls that the engine's sort
    makes. *)
Theorem sort_orders_posts_by_date {host : Host} (posts : list JSON) :
  Forall Posts.dated posts ->
  exists sorted,
    ArraySort.sort by_date posts = OK sorted /\
    Permutation posts sorted /\
    StronglySorted
      (fun p q =>
         (localeCompare (Posts.date_of q) (Posts.date_of p) <= 0)%Z) sorted /\
    (Posts.lexicographic_on posts ->
     StronglySorted
       (fun p q => String.leb (Posts.date_of q) (Posts.date_of p) = true)
       sorted) /\
    (forall d,
        filter (fun p => String.eqb (Posts.date_of p) d) sorted
        = filter (fun p => String.eqb (Posts.date_of p) d) posts) /\
    (forall front p back,
        sorted = (front ++ p :: back)%list ->
        Posts.date_of p = EmptyString ->
        Forall (fun q => localeCompare (Posts.date_of q) EmptyString = 0%Z)
          back) /\
    (forall members,
        Value.assoc "date" members = None \/
        Value.assoc "date" members = Some (JString EmptyString) ->
        Posts.dated (JObject members) /\
        Posts.date_of (JObject members) = EmptyString) /\
    (forall other,
        Permutation posts other ->
        StronglySorted
          (fun p q =>
             (localeCompare (Posts.date_of q) (Posts.date_of p) <= 0)%Z)
          other ->
        (forall e,
            filter (fun p =>
                      (localeCompare (Posts.date_of p) (Posts.date_of e) =? 0)%Z)
              other
            = filter (fun p =>
                        (localeCompare (Posts.date_of p) (Posts.date_of e) =? 0)%Z)
                posts) ->
        other = sorted).
Proof.
  intros Hd.
  destruct (@SortFacts.sort_keyed host JSON Posts.date_of Posts.dated
              by_date Posts.by_date_dated _ Hd) as (sorted & E & P & S & F).
  exists sorted. split; [exact E|]. split; [exact P|]. split; [exact S|].
  split; [|split; [intros d; apply F, SortFacts.ties_keyed|split; [|split]]].
  - intros L. apply SortFacts.sorted_agree with (2 := S).
    intros p q Hp Hq. apply L; eapply Permutation_in;
      try eassumption; now apply Permutation_sym.
  - intros front p back -> Hp.
    exact (@SortFacts.behind_empty_key host JSON Posts.date_of front p back
             S Hp).
  - intros members [H|H]; unfold Posts.dated, Posts.date_of, Posts.date_key;
      cbn [Value.Get]; rewrite H; cbn; split; congruence.
  - intros other Po So Fo.
    pose proof (@SortFacts.sort_determined host JSON Posts.date_of Posts.dated
                  by_date Posts.by_date_dated posts other Hd Po So Fo) as E'.
    rewrite E in E'. now injection E'.
Qed.

Lemma sort_orders_posts_by_date_witness :
  Forall Posts.dated
    [dated_post "2026-01-01"; JObject []; dated_post "2026-02-07"] /\
  exists sorted,
    ArraySort.sort (by_date (host := example_host))
      [dated_post "2026-01-01"; JObject []; dated_post "2026-02-07"]
    = OK sorted /\
    Permutation
      [dated_post "2026-01-01"; JObject []; dated_post "2026-02-07"] sorted /\
    StronglySorted
      (fun p q => String.leb (Posts.date_of q) (Posts.date_of p) = true)
      sorted.
Proof.
  assert (H : Forall Posts.dated
                [dated_post "2026-01-01"; JObject [];
                 dated_post "2026-02-07"])
    by (repeat constructor; discriminate).
  split; [exact H|].
  destruct (sort_orders_posts_by_date (host := example_host) H)
    as (sorted & E & P & _ & L & _).
  exists sorted. split; [exact E|]. split; [exact P|].
  apply L. intros p q _ _. apply CodeUnits.lexicographic.
Defined.

(** The three posts of the example, sorted. *)
Example newest_first_undated_last :
  ArraySort.sort (by_date (host := example_host))
    [dated_post "2026-01-01"; JObject []; dated_post "2026-02-07"]
  = OK [dated_post "2026-02-07"; dated_post "2026-01-01"; JObject []].
Proof. reflexivity. Qed.

(** C1, the claim as stated fails: two posts whose dates are numbers.  The
    comparator calls [localeCompare] on a number, and the sort throws; the
    build of a site with two such post files ends with this exception,
    before it writes the page. *)
Lemma sort_throws_on_number_dates :
  ArraySort.sort (by_date (host := example_host))
    [JObject [("date", JNumber "20260207")];
     JObject [("date", JNumber "20260101")]]
  = Throw (TypeError "(b.date || '').localeCompare is not a function") /\
  loaded (host := example_host) site_with_number_dates ["a.json"; "b.json"]
  = [JObject [("date", JNumber "20260207")];
     JObject [("date", JNumber "20260101")]] /\
  result_of (run (host := example_host) 0 5 site_with_number_dates)
  = Thrown (TypeError "(b.date || '').localeCompare is not a function") /\
  lookup DIST_DIR (fs_after (run (host := example_host) 0 5
                               site_with_number_dates))
  = Some (Dir []).
Proof. repeat split; vm_compute; reflexivity. Qed.

(** C2, at a failing input: a post whose title holds two dollar signs.
    [replace] reads them as its pattern for one dollar sign: the text put
    in place of the token is the serialization of another post, not of
    the post that was loaded, in [inject] and so in the page that the
    build writes. *)
Lemma dollar_signs_are_not_inserted_verbatim :
  let post := JObject [("title", JString "US$$ 5")] in
  let other := JObject [("title", JString "US$ 5")] in
  inject "POSTS = /*__POSTS_JSON__*/;" [post] (JArray []) (JObject [])
    (JObject [])
  = OK ("POSTS = " ++ Stringify.JSON_stringify (JArray [other]) ++ ";") /\
  Stringify.JSON_stringify (JArray [post])
  <> Stringify.JSON_stringify (JArray [other]) /\
  loaded (host := example_host) site_with_dollar_signs ["a.json"] = [post] /\
  lookup (path_join DIST_DIR "index.html")
    (fs_after (run (host := example_host) 0 5 site_with_dollar_signs))
  = Some (File ("POSTS = " ++ Stringify.JSON_stringify (JArray [other])
                  ++ ";")).
Proof.
  split; [reflexivity|]. split; [discriminate|].
  split; vm_compute; reflexivity.
Qed.

(** One bad file among five: four posts, newest first, the undated one
    last, and one warning that names the bad file. *)
Example one_bad_file_among_five :
  readPosts (host := example_host) site
  = Outcome site
      [(Warn, "  ⚠  c.json: Unexpected token in JSON")]
      (Normal [dated_post "2026-02-07"; dated_post "2026-01-01";
               dated_post "2025-12-31"; JObject []]).
Proof. vm_compute. reflexivity. Qed.

(** C5.  If [templates/index.html] does not exist, the process exits with
    status 1, having printed the start line and the error line; the output
    directory exists and holds no entry, and the file system is otherwise
    as the run found it: nothing has been written. *)
Theorem missing_template_exits_nonzero {host : Host} (start finish : Z)
        (es : list (string * node)) :
  lookup TEMPLATE (Dir es) = None ->
  let r := run start finish (Dir es) in
  result_of r = Exited 1 /\
  exit_status (result_of r) <> 0%Z /\
  printed r = [started; not_found] /\
  lookup DIST_DIR (fs_after r) = Some (Dir []) /\
  beside "dist" (fs_after r) = beside "dist" (Dir es).
Proof.
  intros H r. subst r. rewrite (run_without_template start finish es H).
  cbn [result_of printed fs_after exit_status].
  split; [reflexivity|]. split; [discriminate|]. split; [reflexivity|].
  split.
  - unfold DIST_DIR, ROOT. cbn [app lookup].
    now rewrite assoc_recreated.
  - cbn [beside]. now rewrite remove_app_same, remove_remove.
Qed.

Lemma missing_template_exits_nonzero_witness :
  lookup TEMPLATE (Dir site_without_template) = None /\
  let r := run (host := example_host) 0 5 (Dir site_without_template) in
  result_of r = Exited 1 /\
  exit_status (result_of r) <> 0%Z /\
  printed r = [started; not_found] /\
  lookup DIST_DIR (fs_after r) = Some (Dir []) /\
  beside "dist" (fs_after r) = beside "dist" (Dir site_without_template).
Proof.
  split; [reflexivity|].
  apply (missing_template_exits_nonzero (host := example_host) 0 5
           site_without_template).
  reflexivity.
Defined.

(** C6.  [readJSON] returns the caller's default when the file is missing
    and when its text does not parse, and in both cases prints nothing and
    changes nothing.  When [content/site.json] is missing, the contact
    email is the empty string: [injectData] returns normally, the text it
    returns having the empty string in place of the email placeholder. *)
Theorem readJSON_defaults_silently {host : Host} (p : path) (fallback : JSON)
        (root : node) :
  (lookup p root = None ->
   readJSON p fallback root = Outcome root [] (Normal fallback)) /\
  (forall text e,
      lookup p root = Some (File text) -> JSON_parse text = Throw e ->
      readJSON p fallback root = Outcome root [] (Normal fallback)) /\
  (forall html posts out,
      lookup (content_file "site.json") root = None ->
      readPosts root = Outcome root out (Normal posts) ->
      contact_email (stored (content_file "site.json") (JObject []) root)
      = OK EmptyString /\
      exists unlinked about,
        injectData html root
        = Outcome root (out ++ [(Log, found_line (List.length posts))])%list
            (Normal
               (Replace.replace
                  (Replace.replace
                     (Replace.replace
                        (Replace.replace html POSTS_TOKEN
                           (Stringify.JSON_stringify (JArray posts)))
                        UNLINKED_TOKEN (Stringify.JSON_stringify unlinked))
                     ABOUT_TOKEN (Stringify.JSON_stringify about))
                  EMAIL_TOKEN EmptyString))).
Proof.
  split; [|split].
  - intros H. rewrite readJSON_stored. unfold stored. now rewrite H.
  - intros text e H P. rewrite readJSON_stored. unfold stored.
    now rewrite H, P.
  - intros html posts out H R.
    assert (S : stored (content_file "site.json") (JObject []) root = JObject [])
      by (unfold stored; now rewrite H).
    rewrite S. split; [reflexivity|].
    exists (stored (content_file "unlinked-comments.json") (JArray []) root),
      (stored (content_file "about.json")
         (JObject [("en", JString ""); ("es", JString "")]) root).
    rewrite (injectData_run html R), S. reflexivity.
Qed.

Lemma readJSON_defaults_silently_witness :
  lookup (content_file "site.json") Examples.site = None /\
  readJSON (host := example_host) (content_file "site.json") (JObject [])
    Examples.site
  = Outcome Examples.site [] (Normal (JObject [])) /\
  result_of (injectData (host := example_host) "mailto:/*__CONTACT_EMAIL__*/"
               Examples.site)
  = Normal "mailto:".
Proof.
  split; [reflexivity|].
  destruct (readJSON_defaults_silently (host := example_host)
              (content_file "site.json") (JObject []) Examples.site)
    as (Hm & _ & Hi).
  split; [exact (Hm eq_refl)|].
  destruct (Hi "mailto:/*__CONTACT_EMAIL__*/" _ _ eq_refl
              one_bad_file_among_five)
    as (_ & unlinked & about & ->).
  reflexivity.
Defined.

(** C7.  Two runs on the same input files leave the same file system: the
    second run, started on what the first one left and at other times,
    ends with the tree and the completion of the first, and so with the
    same output directory; the readings of the clock change nothing of
    the tree, only the last line of the console. *)
Theorem build_twice_same_output {host : Host} (start1 finish1 start2 finish2 : Z)
        (root : node) :
  let first := run start1 finish1 root in
  let second := run start2 finish2 (fs_after first) in
  fs_after second = fs_after first /\
  result_of second = result_of first /\
  lookup DIST_DIR (fs_after second) = lookup DIST_DIR (fs_after first) /\
  fs_after (run start2 finish2 root) = fs_after first /\
  beside "dist" (fs_after first) = beside "dist" root.
Proof.
  intros first second. subst first second. unfold run.
  pose proof (build_confined start1 finish1 root) as Hc.
  rewrite (build_beside start2 finish2 _ _ Hc).
  destruct (build_clock start2 finish2 start1 finish1 root) as [Hfs Hres].
  rewrite Hfs, Hres.
  split; [reflexivity|]. split; [reflexivity|]. split; [reflexivity|].
  split; [reflexivity | exact Hc].
Qed.

(** C9.  The output directory is deleted and created again before the
    template is looked for: when the run stops because
    [templates/index.html] is missing, the tree is the one [cleanDir] left,
    whatever [dist] held before is gone, and [dist] exists and is empty. *)
Theorem missing_template_wipes_output {host : Host} (start finish : Z)
        (es : list (string * node)) (prior : node) :
  lookup TEMPLATE (Dir es) = None ->
  lookup DIST_DIR (Dir es) = Some prior ->
  let r := run start finish (Dir es) in
  result_of r = Exited 1 /\
  fs_after r = fs_after (cleanDir DIST_DIR (Dir es)) /\
  lookup DIST_DIR (fs_after r) = Some (Dir []) /\
  forall name rest, lookup (DIST_DIR ++ name :: rest)%list (fs_after r) = None.
Proof.
  intros H _ r. subst r. rewrite (run_without_template start finish es H).
  rewrite cleanDir_root. cbn [result_of fs_after].
  split; [reflexivity|]. split; [reflexivity|].
  unfold DIST_DIR, ROOT. cbn [app lookup]. rewrite assoc_recreated.
  split; [reflexivity|]. intros name rest. reflexivity.
Qed.

Lemma missing_template_wipes_output_witness :
  lookup TEMPLATE (Dir site_without_template) = None /\
  lookup DIST_DIR (Dir site_without_template)
  = Some (Dir [("index.html", File "<html>old</html>");
               ("assets", Dir [("logo.svg", File "<svg/>")])]) /\
  let r := run (host := example_host) 0 5 (Dir site_without_template) in
  result_of r = Exited 1 /\
  fs_after r = fs_after (cleanDir DIST_DIR (Dir site_without_template)) /\
  lookup DIST_DIR (fs_after r) = Some (Dir []) /\
  forall name rest, lookup (DIST_DIR ++ name :: rest)%list (fs_after r) = None.
Proof.
  split; [reflexivity|]. split; [reflexivity|].
  apply (missing_template_wipes_output (host := example_host) 0 5
           site_without_template
           (prior := Dir [("index.html", File "<html>old</html>");
                          ("assets", Dir [("logo.svg", File "<svg/>")])]));
    reflexivity.
Defined.

(* ================================================================= *)
(** * Further properties of [build.js] *)

(** ** Paths that part, and paths that a file blocks *)

Module Paths.
Import Copy.

(** [p] and [q] part: at some depth they name different entries of one
    directory.  Neither is then an ancestor of the other. *)
Fixpoint apart (p q : path) : bool :=
  match p, q with
  | x :: p', y :: q' => if String.eqb x y then apart p' q' else true
  | _, _ => false
  end.

(** No proper ancestor of [p] is a regular file: a directory can be made
    at [p] once nothing stands there. *)
Fixpoint passable (p : path) (n : node) : bool :=
  match p with
  | [] => true
  | x :: rest =>
      match n with
      | File _ => false
      | Dir es =>
          match Value.assoc x es with
          | Some c => passable rest c
          | None => true
          end
      end
  end.

Lemma lookup_set_entry_apart (x : string) (c c' : node)
      (es : list (string * node)) (rest q : path) :
  Value.assoc x es = Some c ->
  (forall q', apart rest q' = true -> lookup q' c' = lookup q' c) ->
  apart (x :: rest) q = true ->
  lookup q (Dir (set_entry x c' es)) = lookup q (Dir es).
Proof.
intros Hx Hc Hq. destruct q as [|y q']; [discriminate|].
cbn [apart] in Hq. cbn [lookup].
destruct (String.eqb x y) eqn:E.
- apply String.eqb_eq in E. subst y.
  rewrite assoc_set_entry, Hx. now apply Hc.
- apply String.eqb_neq in E.
  rewrite assoc_set_entry_other by congruence. reflexivity.
Qed.

(** [mkdirSync(p, { recursive: true })] where nothing stands at [p]. *)
Lemma mkdirp_creates (p : path) :
  forall n,
    lookup p n = None -> passable p n = true ->
    exists n',
      mkdirp p n = OK n' /\
      lookup p n' = Some (Dir []) /\
      forall q, apart p q = true -> lookup q n' = lookup q n.
Proof.
induction p as [|x rest IH]; intros n Hl Hp; [discriminate|].
destruct n as [data|es]; [discriminate|].
cbn [lookup passable] in Hl, Hp. cbn [mkdirp].
destruct (Value.assoc x es) as [c|] eqn:E.
- destruct (IH c Hl Hp) as (c' & Hm & Hc & Hf).
  rewrite Hm. cbn [rbind]. eexists. split; [reflexivity|]. split.
  + cbn [lookup]. now rewrite assoc_set_entry.
  + intros q Hq. now apply lookup_set_entry_apart with (c := c) (rest := rest).
- destruct rest as [|y rest'].
  + cbn [mkdirp rbind]. eexists. split; [reflexivity|]. split.
    * cbn [lookup]. now rewrite assoc_set_entry.
    * intros [|z q'] Hq; [discriminate|]. cbn [apart] in Hq. cbn [lookup].
      destruct (String.eqb x z) eqn:Ez; [discriminate|].
      apply String.eqb_neq in Ez.
      rewrite assoc_set_entry_other by congruence. reflexivity.
  + destruct (IH (Dir []) eq_refl eq_refl) as (c' & Hm & Hc & Hf).
    rewrite Hm. cbn [rbind]. eexists. split; [reflexivity|]. split.
    * cbn [lookup]. now rewrite assoc_set_entry.
    * intros [|z q'] Hq; [discriminate|]. cbn [apart] in Hq. cbn [lookup].
      destruct (String.eqb x z) eqn:Ez.
      -- apply String.eqb_eq in Ez. subst z.
         rewrite assoc_set_entry, E, (Hf q' Hq).
         destruct q'; [discriminate | reflexivity].
      -- apply String.eqb_neq in Ez.
         rewrite assoc_set_entry_other by congruence. reflexivity.
Qed.

(** [mkdirSync(p, { recursive: true })] below a regular file. *)
Lemma mkdirp_blocked (p : path) :
  forall n,
    passable p n = false ->
    lookup p n = None /\ exists e, mkdirp p n = Throw e.
Proof.
induction p as [|x rest IH]; intros n Hp; [discriminate|].
destruct n as [data|es].
- split; [reflexivity|]. now eexists.
- cbn [lookup passable mkdirp] in *.
  destruct (Value.assoc x es) as [c|]; [|discriminate].
  destruct (IH c Hp) as (Hl & e & Hm). split; [exact Hl|].
  rewrite Hm. now eexists.
Qed.

(** [rmSync(p, { recursive: true, force: true })] of what stands at [p]. *)
Lemma rm_removes (p : path) :
  forall n x,
    p <> [] -> lookup p n = Some x ->
    lookup p (rm p n) = None /\
    passable p (rm p n) = true /\
    forall q, apart p q = true -> lookup q (rm p n) = lookup q n.
Proof.
induction p as [|k rest IH]; intros n x Hne Hl; [congruence|].
destruct n as [data|es]; [discriminate|].
cbn [lookup] in Hl.
destruct (Value.assoc k es) as [c|] eqn:E; [|discriminate].
destruct rest as [|y rest'].
- cbn [rm lookup passable]. rewrite assoc_remove_same.
  split; [reflexivity|]. split; [reflexivity|].
  intros [|z q'] Hq; [discriminate|]. cbn [apart] in Hq. cbn [lookup].
  destruct (String.eqb k z) eqn:Ez; [discriminate|].
  apply String.eqb_neq in Ez.
  rewrite assoc_remove_other by congruence. reflexivity.
- destruct (IH c x ltac:(discriminate) Hl) as (Hn & Hp & Hf).
  change (rm (k :: y :: rest') (Dir es))
    with (match Value.assoc k es with
          | Some c => Dir (set_entry k (rm (y :: rest') c) es)
          | None => Dir es
          end).
  rewrite E. cbn [lookup passable]. rewrite assoc_set_entry.
  split; [exact Hn|]. split; [exact Hp|].
  intros q Hq.
  now apply lookup_set_entry_apart with (c := c) (rest := y :: rest').
Qed.

(** What [within] changes lies below the entry it sets. *)
Lemma lookup_within_set (p : path) (name : string) (x : node) :
  forall n ds,
    lookup p n = Some (Dir ds) ->
    lookup (p ++ [name])%list (within p (set_entry name x) n) = Some x.
Proof.
intros n ds H. rewrite lookup_app.
rewrite lookup_within with (ds := ds) by exact H.
cbn [lookup]. now rewrite assoc_set_entry.
Qed.

Lemma lookup_within_apart (p : path) (name : string) (x : node) :
  forall n q,
    apart (p ++ [name])%list q = true ->
    lookup q (within p (set_entry name x) n) = lookup q n.
Proof.
induction p as [|k p IH]; intros n q Hq; destruct n as [data|es];
  try reflexivity; destruct q as [|z q']; try discriminate;
  cbn [app apart] in Hq; cbn [within].
- cbn [lookup]. destruct (String.eqb name z) eqn:Ez; [discriminate|].
  apply String.eqb_neq in Ez.
  rewrite assoc_set_entry_other by congruence. reflexivity.
- destruct (Value.assoc k es) as [c|] eqn:E; [|reflexivity].
  cbn [lookup]. destruct (String.eqb k z) eqn:Ez.
  + apply String.eqb_eq in Ez. subst z.
    rewrite assoc_set_entry, E. now apply IH.
  + apply String.eqb_neq in Ez.
    rewrite assoc_set_entry_other by congruence. reflexivity.
Qed.

(** [ensureDir] where something stands at the path, where nothing does, and
    below a regular file. *)
Lemma ensureDir_found (p : path) (n x : node) :
  lookup p n = Some x -> ensureDir p n = Outcome n [] (Normal tt).
Proof.
intros E. unfold ensureDir.
erewrite bind_normal by (eapply existsSync_found; exact E). reflexivity.
Qed.

Lemma ensureDir_missing (p : path) (n : node) :
  lookup p n = None -> ensureDir p n = mkdirSync p n.
Proof.
intros E. unfold ensureDir.
erewrite bind_normal by (eapply existsSync_missing; exact E).
now rewrite after_nil.
Qed.

Lemma ensureDir_made (p : path) (n : node) :
  lookup p n = None -> passable p n = true ->
  exists n',
    ensureDir p n = Outcome n' [] (Normal tt) /\
    lookup p n' = Some (Dir []) /\
    forall q, apart p q = true -> lookup q n' = lookup q n.
Proof.
intros E Hp. rewrite (ensureDir_missing p n E).
destruct (@mkdirp_creates p n E Hp) as (n' & Hm & Hc & Hf).
exists n'. unfold mkdirSync, fs_update. rewrite Hm. now repeat split.
Qed.

Lemma ensureDir_blocked (p : path) (n : node) :
  passable p n = false ->
  exists e, ensureDir p n = Outcome n [] (Thrown e).
Proof.
intros Hp. destruct (@mkdirp_blocked p n Hp) as (E & e & Hm).
rewrite (ensureDir_missing p n E). exists e.
unfold mkdirSync, fs_update. now rewrite Hm.
Qed.

(** [copyDirSync] on a regular file: [ensureDir(dest)] runs, then
    [readdirSync(src)] throws. *)
Lemma copyDirSync_file (src dest : path) (n : node) (data : string) :
  lookup src n = Some (File data) ->
  lookup dest n = None -> passable dest n = true ->
  exists n',
    copyDirSync src dest n = Outcome n' [] (Thrown (ENOTDIR "scandir")) /\
    lookup dest n' = Some (Dir []) /\
    forall q, apart dest q = true -> lookup q n' = lookup q n.
Proof.
intros E Hd Hp. unfold copyDirSync. rewrite E. cbn [copyTree].
destruct (@ensureDir_made dest n Hd Hp) as (n' & R & Hl & Hf).
exists n'. erewrite bind_normal by exact R.
rewrite after_nil, lift_run. now repeat split.
Qed.

End Paths.

(* ================================================================= *)
(** ** The utilities *)

Import Paths.

(** X1.  [cleanDir(p)], for a path [p] other than the root.  Where no
    proper ancestor of [p] is a regular file, it returns without printing
    and [p] is then an empty directory, whatever stood there before: a
    file, a directory with entries, or nothing; every path that parts from
    [p] leads to what it led to before.  Where a proper ancestor is a
    regular file, it throws and the tree is as it was. *)
Theorem cleanDir_leaves_an_empty_directory (p : path) (root : node) :
  p <> [] ->
  let r := cleanDir p root in
  (passable p root = true ->
   result_of r = Normal tt /\ printed r = [] /\
   lookup p (fs_after r) = Some (Dir []) /\
   forall q, apart p q = true -> lookup q (fs_after r) = lookup q root) /\
  (passable p root = false ->
   (exists e, result_of r = Thrown e) /\ printed r = [] /\ fs_after r = root).
Proof.
intros Hne r. subst r. unfold cleanDir. split; intros Hp.
- destruct (lookup p root) as [x|] eqn:E.
  + erewrite bind_normal by (eapply existsSync_found; exact E).
    rewrite after_nil.
    erewrite bind_normal by reflexivity. rewrite after_nil.
    destruct (@rm_removes p root x Hne E) as (Hn & Hp' & Hf).
    destruct (@mkdirp_creates p _ Hn Hp') as (n' & Hm & Hc & Hf').
    unfold mkdirSync, fs_update. rewrite Hm. cbn [result_of printed fs_after].
    repeat split; [exact Hc|]. intros q Hq. now rewrite Hf', Hf.
  + erewrite bind_normal by (eapply existsSync_missing; exact E).
    rewrite after_nil.
    erewrite bind_normal by reflexivity. rewrite after_nil.
    destruct (@mkdirp_creates p root E Hp) as (n' & Hm & Hc & Hf').
    unfold mkdirSync, fs_update. rewrite Hm. cbn [result_of printed fs_after].
    repeat split; assumption.
- destruct (@mkdirp_blocked p root Hp) as (E & e & Hm).
  erewrite bind_normal by (eapply existsSync_missing; exact E).
  rewrite after_nil.
  erewrite bind_normal by reflexivity. rewrite after_nil.
  unfold mkdirSync, fs_update. rewrite Hm. cbn [result_of printed fs_after].
  repeat split. now exists e.
Qed.

Lemma cleanDir_leaves_an_empty_directory_witness :
  let root :=
    Dir [("src", Dir [("a.txt", File "a")]);
         ("out", Dir [("old", Dir [("x.html", File "x")])])] in
  let r := cleanDir ["out"; "old"] root in
  result_of r = Normal tt /\
  lookup ["out"; "old"] (fs_after r) = Some (Dir []) /\
  lookup ["src"; "a.txt"] (fs_after r) = Some (File "a").
Proof.
intros root r.
destruct (@cleanDir_leaves_an_empty_directory ["out"; "old"] root
            ltac:(discriminate)) as [H _].
destruct (H eq_refl) as (Hr & _ & Hd & Hf).
split; [exact Hr|]. split; [exact Hd|].
exact (Hf ["src"; "a.txt"] eq_refl).
Defined.

(** X2.  [ensureDir(p)] changes nothing where something stands at [p], be
    it a directory with entries or a regular file; where nothing stands
    there and no proper ancestor is a regular file it makes an empty
    directory at [p] and leaves what parts from [p] as it was.  Calling it
    twice is calling it once. *)
Theorem ensureDir_makes_only_what_is_missing (p : path) (root : node) :
  let r := ensureDir p root in
  (forall x, lookup p root = Some x -> r = Outcome root [] (Normal tt)) /\
  (lookup p root = None -> passable p root = true ->
   result_of r = Normal tt /\ printed r = [] /\
   lookup p (fs_after r) = Some (Dir []) /\
   forall q, apart p q = true -> lookup q (fs_after r) = lookup q root) /\
  (ensureDir p ;;; ensureDir p) root = r.
Proof.
intros r. subst r.
split; [intros x E; now apply ensureDir_found with (x := x)|]. split.
- intros E Hp.
  destruct (@ensureDir_made p root E Hp) as (n' & R & Hc & Hf).
  rewrite R. cbn [result_of printed fs_after]. now repeat split.
- destruct (lookup p root) as [x|] eqn:E.
  + erewrite bind_normal by (apply ensureDir_found with (x := x); exact E).
    now rewrite after_nil.
  + destruct (passable p root) eqn:Hp.
    * destruct (@ensureDir_made p root E Hp) as (n' & R & Hc & _).
      erewrite bind_normal by exact R. rewrite after_nil, R.
      now apply ensureDir_found with (x := Dir []).
    * destruct (@ensureDir_blocked p root Hp) as (e & R).
      erewrite bind_thrown by exact R. now rewrite R.
Qed.

Lemma ensureDir_makes_only_what_is_missing_witness :
  let root := Dir [("out", Dir [("keep.txt", File "k")])] in
  ensureDir ["out"] root = Outcome root [] (Normal tt) /\
  lookup ["out"; "css"] (fs_after (ensureDir ["out"; "css"] root))
  = Some (Dir []) /\
  lookup ["out"; "keep.txt"] (fs_after (ensureDir ["out"; "css"] root))
  = Some (File "k").
Proof.
intros root.
destruct (@ensureDir_makes_only_what_is_missing ["out"] root) as (H & _).
split; [exact (H _ eq_refl)|].
destruct (@ensureDir_makes_only_what_is_missing ["out"; "css"] root)
  as (_ & H' & _).
destruct (H' eq_refl eq_refl) as (_ & _ & Hd & Hf).
split; [exact Hd | exact (Hf ["out"; "keep.txt"] eq_refl)].
Defined.

(** X3.  [copyDirSync(src, dest)], where [src] is a directory, [dest] is a
    new name in an existing directory, and the two lie below different
    entries of the root: it returns without printing; [dest] is then a
    directory that holds what [src] holds, files and directories at every
    depth, empty directories included; [src] and every other path that
    parts from [dest] lead to what they led to before. *)
Theorem copyDirSync_copies_the_tree (a d name : string) (sp pp : path)
        (root : node) (es ds : list (string * node)) :
  a <> d ->
  lookup (a :: sp) root = Some (Dir es) ->
  Copy.well_formed (Dir es) = true ->
  lookup (d :: pp) root = Some (Dir ds) ->
  Value.assoc name ds = None ->
  let dest := ((d :: pp) ++ [name])%list in
  let r := copyDirSync (a :: sp) dest root in
  result_of r = Normal tt /\ printed r = [] /\
  lookup dest (fs_after r) = Some (Dir es) /\
  lookup (a :: sp) (fs_after r) = Some (Dir es) /\
  forall q, apart dest q = true -> lookup q (fs_after r) = lookup q root.
Proof.
intros Had Hsrc Hwf Hpar Hnew dest r. subst r dest.
unfold copyDirSync. rewrite Hsrc.
rewrite (@Copy.copyTree_copies (Dir es) a sp d pp name root ds Hwf eq_refl
           Had Hsrc Hpar Hnew).
cbn [result_of printed fs_after].
split; [reflexivity|]. split; [reflexivity|]. split; [|split].
- now apply lookup_within_set with (ds := ds).
- rewrite lookup_within_apart; [exact Hsrc|].
  cbn [app apart]. apply String.eqb_neq in Had.
  rewrite String.eqb_sym. now rewrite Had.
- intros q Hq. now apply lookup_within_apart.
Qed.

Lemma copyDirSync_copies_the_tree_witness :
  let assets :=
    [("css", Dir [("site.css", File "body{}")]); ("img", Dir []);
     ("logo.svg", File "<svg/>")] in
  let root := Dir [("assets", Dir assets); ("dist", Dir [])] in
  let r := copyDirSync ["assets"] ["dist"; "assets"] root in
  result_of r = Normal tt /\
  lookup ["dist"; "assets"] (fs_after r) = Some (Dir assets) /\
  lookup ["assets"] (fs_after r) = Some (Dir assets).
Proof.
intros assets root r.
destruct (@copyDirSync_copies_the_tree "assets" "dist" "assets" [] [] root
            assets [] ltac:(discriminate) eq_refl eq_refl eq_refl eq_refl)
  as (Hr & _ & Hd & Hs & _).
split; [exact Hr|]. split; [exact Hd | exact Hs].
Defined.

(** X4.  [copyDirSync(src, dest)] on a source that is no directory.  Where
    nothing stands at [src] it returns at once: [dest] is not made and the
    tree is as it was.  Where [src] is a regular file it throws, from
    [readdirSync], after [ensureDir(dest)] has run: a [dest] that was
    missing is by then an empty directory. *)
Theorem copyDirSync_of_what_is_no_directory (src dest : path) (root : node) :
  let r := copyDirSync src dest root in
  (lookup src root = None -> r = Outcome root [] (Normal tt)) /\
  (forall data,
      lookup src root = Some (File data) ->
      lookup dest root = None -> passable dest root = true ->
      (exists e, result_of r = Thrown e) /\ printed r = [] /\
      lookup dest (fs_after r) = Some (Dir []) /\
      forall q, apart dest q = true -> lookup q (fs_after r) = lookup q root).
Proof.
intros r. subst r. split.
- intros E. unfold copyDirSync. now rewrite E.
- intros data E Hd Hp.
  destruct (@copyDirSync_file src dest root data E Hd Hp)
    as (n' & R & Hl & Hf).
  rewrite R. cbn [result_of printed fs_after].
  split; [now eexists|]. now repeat split.
Qed.

Lemma copyDirSync_of_what_is_no_directory_witness :
  let root := Dir [("assets", File "oops"); ("dist", Dir [])] in
  copyDirSync ["static"] ["dist"; "static"] root
  = Outcome root [] (Normal tt) /\
  (exists e, result_of (copyDirSync ["assets"] ["dist"; "assets"] root)
             = Thrown e) /\
  lookup ["dist"; "assets"]
    (fs_after (copyDirSync ["assets"] ["dist"; "assets"] root))
  = Some (Dir []).
Proof.
intros root.
destruct (@copyDirSync_of_what_is_no_directory ["static"]
            ["dist"; "static"] root) as (H & _).
split; [exact (H eq_refl)|].
destruct (@copyDirSync_of_what_is_no_directory ["assets"]
            ["dist"; "assets"] root) as (_ & H').
destruct (H' "oops" eq_refl eq_refl eq_refl) as (Hr & _ & Hd & _).
split; [exact Hr | exact Hd].
Defined.

(* ================================================================= *)
(** ** The stages of a build *)

Module Stages.
Section Steps.
Import Copy.

Context {host : Host}.

(** What [build] does once the page is written. *)
Definition after_page (start finish : Z) : M unit :=
  let assetsDir := path_join ROOT "assets" in
  e <- existsSync assetsDir ;;
  (if e then
     copyDirSync assetsDir (path_join DIST_DIR "assets") ;;;
     console_log "  ✓ assets/"
   else ret tt) ;;;
  let cname := path_join ROOT "CNAME" in
  e <- existsSync cname ;;
  (if e then
     copyFileSync cname (path_join DIST_DIR "CNAME") ;;;
     console_log "  ✓ CNAME"
   else ret tt) ;;;
  console_log (complete_line (finish - start)).

(** What [build] does once the template is read. *)
Definition after_template (start finish : Z) (html : string) : M unit :=
  html <- injectData html ;;
  writeFileSync (path_join DIST_DIR "index.html") html ;;;
  console_log "  ✓ index.html" ;;;
  after_page start finish.

Definition page_line : level * string := (Log, "  ✓ index.html").

Lemma after_after {A} (out out' : list (level * string)) (r : outcome A) :
  after out (after out' r) = after (out ++ out')%list r.
Proof. unfold after. cbn [fs_after printed result_of]. now rewrite app_assoc. Qed.

(** [injectData] reads nothing of [dist]. *)
Lemma injectData_with_dist (html : string) (es des : list (string * node)) :
  injectData html (with_dist es des)
  = Outcome (with_dist es des) (printed (injectData html (Dir es)))
      (result_of (injectData html (Dir es))).
Proof.
pose proof (readPosts_with_dist es des) as W.
pose proof (readPosts_reads_only (Dir es)) as Hfs.
destruct (readPosts (Dir es)) as [n out c] eqn:R.
cbn [fs_after printed result_of] in *. subst n.
destruct c as [posts|e|code].
- rewrite (injectData_run html W), (injectData_run html R).
  cbn [printed result_of]. now rewrite !stored_with_dist.
- unfold injectData.
  erewrite bind_thrown by exact W. erewrite bind_thrown by exact R.
  reflexivity.
- unfold injectData.
  erewrite bind_exited by exact W. erewrite bind_exited by exact R.
  reflexivity.
Qed.

Lemma run_template_found (start finish : Z) (es : list (string * node))
      (html : string) :
  lookup TEMPLATE (Dir es) = Some (File html) ->
  run start finish (Dir es)
  = after [started] (after_template start finish html (with_dist es [])).
Proof.
intros Ht. rewrite run_root. fold (with_dist es []). unfold after_clean.
assert (Lt : lookup TEMPLATE (with_dist es []) = Some (File html)).
{ unfold TEMPLATE, ROOT, path_join in *. cbn [app] in *.
  now rewrite lookup_with_dist by discriminate. }
erewrite bind_normal by (eapply existsSync_found; exact Lt).
cbn [negb]. rewrite after_nil.
erewrite bind_normal by reflexivity. rewrite after_nil.
erewrite bind_normal by (apply readFileSync_file; exact Lt).
rewrite after_nil. reflexivity.
Qed.

(** An injection that throws ends the build before the page is written. *)
Lemma run_injection_thrown (start finish : Z) (es : list (string * node))
      (html : string) (out : list (level * string)) (e : exn) :
  lookup TEMPLATE (Dir es) = Some (File html) ->
  injectData html (Dir es) = Outcome (Dir es) out (Thrown e) ->
  run start finish (Dir es)
  = Outcome (with_dist es []) ([started] ++ out)%list (Thrown e).
Proof.
intros Ht Hi. rewrite (run_template_found start finish es Ht).
unfold after_template.
erewrite bind_thrown by (rewrite injectData_with_dist, Hi; reflexivity).
reflexivity.
Qed.

(** An injection that returns has its text written as the page. *)
Lemma run_page (start finish : Z) (es : list (string * node))
      (html text : string) (out : list (level * string)) :
  lookup TEMPLATE (Dir es) = Some (File html) ->
  injectData html (Dir es) = Outcome (Dir es) out (Normal text) ->
  run start finish (Dir es)
  = after ([started] ++ out ++ [page_line])%list
      (after_page start finish
         (with_dist es [("index.html", File text)])).
Proof.
intros Ht Hi. rewrite (run_template_found start finish es Ht).
unfold after_template.
erewrite bind_normal by (rewrite injectData_with_dist, Hi; reflexivity).
erewrite bind_normal.
2:{ unfold writeFileSync, fs_update, DIST_DIR, ROOT, path_join. cbn [app].
    change ["dist"; "index.html"] with (["dist"] ++ ["index.html"])%list.
    rewrite writeFile_within with (ds := []);
      [rewrite within_dist; reflexivity | apply lookup_dist | discriminate]. }
erewrite bind_normal by reflexivity.
rewrite after_nil, !after_after. reflexivity.
Qed.

Lemma passable_below_dist (name : string) (es des : list (string * node)) :
  Paths.passable ["dist"; name] (with_dist es des) = true.
Proof.
unfold with_dist. cbn [Paths.passable]. rewrite assoc_recreated.
now destruct (Value.assoc name des).
Qed.

Lemma lookup_below_dist (p : path) (es des : list (string * node)) :
  lookup ("dist" :: p) (with_dist es des) = lookup p (Dir des).
Proof. unfold with_dist. cbn [lookup]. now rewrite assoc_recreated. Qed.

End Steps.
End Stages.

(* ================================================================= *)
(** ** How a build ends *)

Import Stages.

(** X5.  A build whose template is there and whose injection returns
    writes the page; if its assets are absent or a directory and its
    domain file is absent or a regular file, it completes: the root is as
    it was but for [dist], which holds the page, the assets as they are
    and the domain file, and nothing else;
    the console has the start line, the lines of the injection, one line
    for each artifact and the completion line. *)
Theorem build_writes_page_assets_and_domain_file {host : Host}
        (start finish : Z) (es : list (string * node)) (html text : string)
        (out : list (level * string)) :
  lookup TEMPLATE (Dir es) = Some (File html) ->
  injectData html (Dir es) = Outcome (Dir es) out (Normal text) ->
  assets_fine es -> cname_fine es ->
  run start finish (Dir es)
  = Outcome
      (with_dist es
         ([("index.html", File text)] ++ assets_entry es ++ cname_entry es)%list)
      ([started] ++ out ++ [page_line] ++ assets_line es ++ cname_line es
         ++ [(Log, complete_line (finish - start))])%list
      (Normal tt).
Proof.
intros Ht Hi Ha Hc. rewrite (@run_page host start finish es html text out Ht Hi).
unfold after_page.
erewrite bind_normal by apply existsSync_run.
change (path_join ROOT "assets") with ["assets"].
rewrite lookup_with_dist by discriminate.
erewrite bind_normal by (apply assets_copied; [exact Ha | reflexivity]).
erewrite bind_normal by apply existsSync_run.
change (path_join ROOT "CNAME") with ["CNAME"].
rewrite lookup_with_dist by discriminate.
erewrite bind_normal.
2:{ apply cname_copied; [exact Hc|].
    unfold assets_entry. now destruct (lookup ["assets"] (Dir es)). }
unfold console_log, console_write, after.
cbn [fs_after printed result_of].
rewrite !app_nil_l, <- !app_assoc. reflexivity.
Qed.

Lemma build_writes_page_assets_and_domain_file_witness :
  lookup ["dist"]
    (fs_after (run (host := example_host) 0 5 (Dir site_without_posts)))
  = Some (Dir [("index.html",
                File "<script>const POSTS = []; const MAIL = 'mo@example.org';</script>");
               ("assets", Dir [("css", Dir [("site.css", File "body{}")]);
                               ("logo.svg", File "<svg/>")]);
               ("CNAME", File "gxwechsler.com")]).
Proof.
assert (Ha : assets_fine site_without_posts) by (split; reflexivity).
assert (Hc : cname_fine site_without_posts) by reflexivity.
rewrite (@build_writes_page_assets_and_domain_file example_host 0 5
           site_without_posts Examples.template_text
           "<script>const POSTS = []; const MAIL = 'mo@example.org';</script>"
           [(Log, found_line 0)] eq_refl eq_refl Ha Hc).
reflexivity.
Defined.

(** X6.  Assets that are a regular file.  [existsSync] finds them,
    [copyDirSync] makes [dist/assets] and then throws from [readdirSync]:
    the build ends with this exception, status 1, after it has written the
    page.  [dist] holds the page and an empty [assets]; the domain file is
    not copied, and the last line printed is that of the page. *)
Theorem assets_that_are_a_file_end_the_build {host : Host}
        (start finish : Z) (es : list (string * node)) (html text data : string)
        (out : list (level * string)) :
  lookup TEMPLATE (Dir es) = Some (File html) ->
  injectData html (Dir es) = Outcome (Dir es) out (Normal text) ->
  lookup ["assets"] (Dir es) = Some (File data) ->
  let r := run start finish (Dir es) in
  (exists e, result_of r = Thrown e) /\
  exit_status (result_of r) = 1%Z /\
  printed r = ([started] ++ out ++ [page_line])%list /\
  lookup ["dist"; "index.html"] (fs_after r) = Some (File text) /\
  lookup ["dist"; "assets"] (fs_after r) = Some (Dir []) /\
  lookup ["dist"; "CNAME"] (fs_after r) = None.
Proof.
intros Ht Hi Ha r. subst r. rewrite (@run_page host start finish es html text out Ht Hi).
unfold after_page.
erewrite bind_normal by apply existsSync_run.
change (path_join ROOT "assets") with ["assets"].
rewrite lookup_with_dist by discriminate. rewrite Ha.
destruct (@Paths.copyDirSync_file ["assets"] ["dist"; "assets"]
            (with_dist es [("index.html", File text)]) data)
  as (n' & R & Hl & Hf).
{ rewrite lookup_with_dist by discriminate. exact Ha. }
{ now rewrite lookup_below_dist. }
{ apply passable_below_dist. }
erewrite bind_thrown.
2:{ erewrite bind_thrown; [reflexivity|]. exact R. }
cbn [after fs_after printed result_of exit_status].
rewrite !app_nil_r.
split; [now eexists|]. split; [reflexivity|]. split; [reflexivity|].
split; [|split; [exact Hl|]].
- rewrite Hf by reflexivity. now rewrite lookup_below_dist.
- rewrite Hf by reflexivity. now rewrite lookup_below_dist.
Qed.

Lemma assets_that_are_a_file_end_the_build_witness :
  let es :=
    [("templates", Dir [("index.html", File "<p>/*__CONTACT_EMAIL__*/</p>")]);
     ("assets", File "logo");
     ("CNAME", File "gxwechsler.com")] in
  let r := run (host := example_host) 0 5 (Dir es) in
  exit_status (result_of r) = 1%Z /\
  lookup ["dist"] (fs_after r)
  = Some (Dir [("index.html", File "<p></p>"); ("assets", Dir [])]).
Proof.
intros es r.
destruct (@assets_that_are_a_file_end_the_build example_host 0 5 es
            "<p>/*__CONTACT_EMAIL__*/</p>" "<p></p>" "logo"
            [(Log, found_line 0)] eq_refl eq_refl eq_refl)
  as (_ & Hs & _).
split; [exact Hs | reflexivity].
Defined.

(** X7.  A domain file that is a directory.  [existsSync] finds it and
    [copyFileSync] throws: the build ends with this exception, status 1,
    after it has written the page and copied the assets; [dist] holds
    these two and no [CNAME], and the completion line is not printed. *)
Theorem domain_file_that_is_a_directory_ends_the_build {host : Host}
        (start finish : Z) (es ces : list (string * node)) (html text : string)
        (out : list (level * string)) :
  lookup TEMPLATE (Dir es) = Some (File html) ->
  injectData html (Dir es) = Outcome (Dir es) out (Normal text) ->
  assets_fine es ->
  lookup ["CNAME"] (Dir es) = Some (Dir ces) ->
  let r := run start finish (Dir es) in
  (exists e, result_of r = Thrown e) /\
  exit_status (result_of r) = 1%Z /\
  printed r = ([started] ++ out ++ [page_line] ++ assets_line es)%list /\
  lookup ["dist"] (fs_after r)
  = Some (Dir ([("index.html", File text)] ++ assets_entry es)%list).
Proof.
intros Ht Hi Ha Hc r. subst r. rewrite (@run_page host start finish es html text out Ht Hi).
unfold after_page.
erewrite bind_normal by apply existsSync_run.
change (path_join ROOT "assets") with ["assets"].
rewrite lookup_with_dist by discriminate.
erewrite bind_normal by (apply assets_copied; [exact Ha | reflexivity]).
erewrite bind_normal by apply existsSync_run.
change (path_join ROOT "CNAME") with ["CNAME"].
rewrite lookup_with_dist by discriminate. rewrite Hc.
erewrite bind_thrown.
2:{ erewrite bind_thrown; [reflexivity|].
    unfold copyFileSync. erewrite bind_thrown; [reflexivity|].
    unfold readFileSync, readFile.
    rewrite lookup_with_dist by discriminate. rewrite Hc. reflexivity. }
cbn [after fs_after printed result_of exit_status].
rewrite !app_nil_r, <- !app_assoc.
split; [now eexists|]. split; [reflexivity|]. split; [reflexivity|].
apply lookup_dist.
Qed.

Lemma domain_file_that_is_a_directory_ends_the_build_witness :
  let es :=
    [("templates", Dir [("index.html", File "<p>/*__CONTACT_EMAIL__*/</p>")]);
     ("assets", Dir [("logo.svg", File "<svg/>")]);
     ("CNAME", Dir [])] in
  let r := run (host := example_host) 0 5 (Dir es) in
  exit_status (result_of r) = 1%Z /\
  lookup ["dist"] (fs_after r)
  = Some (Dir [("index.html", File "<p></p>");
               ("assets", Dir [("logo.svg", File "<svg/>")])]).
Proof.
intros es r.
assert (Ha : assets_fine es) by (split; reflexivity).
destruct (@domain_file_that_is_a_directory_ends_the_build example_host 0 5
            es [] "<p>/*__CONTACT_EMAIL__*/</p>" "<p></p>"
            [(Log, found_line 0)] eq_refl eq_refl Ha eq_refl)
  as (_ & Hs & _ & Hd).
split; [exact Hs | exact Hd].
Defined.

(** X8.  A [content/posts] that is a regular file.  [existsSync] finds it
    and [readdirSync] throws outside the [try] of the loop: [readPosts]
    throws, and the build ends with this exception, status 1, before it
    writes anything: [dist] is empty and only the start line is printed. *)
Theorem posts_path_that_is_a_file_ends_the_build {host : Host}
        (start finish : Z) (es : list (string * node)) (html data : string) :
  lookup TEMPLATE (Dir es) = Some (File html) ->
  lookup POSTS_DIR (Dir es) = Some (File data) ->
  (exists e, result_of (readPosts (Dir es)) = Thrown e) /\
  let r := run start finish (Dir es) in
  (exists e, result_of r = Thrown e) /\
  exit_status (result_of r) = 1%Z /\
  printed r = [started] /\
  lookup DIST_DIR (fs_after r) = Some (Dir []) /\
  beside "dist" (fs_after r) = beside "dist" (Dir es).
Proof.
intros Ht Hp. pose proof (readPosts_file _ Hp) as R.
split; [rewrite R; now eexists|]. intros r. subst r.
rewrite (@run_injection_thrown host start finish es html []
           (ENOTDIR "scandir") Ht).
2:{ unfold injectData. erewrite bind_thrown by exact R. reflexivity. }
cbn [fs_after printed result_of exit_status app].
split; [now eexists|]. split; [reflexivity|]. split; [reflexivity|].
split; [apply lookup_dist|].
unfold with_dist. cbn [beside]. now rewrite remove_app_same, remove_remove.
Qed.

Lemma posts_path_that_is_a_file_ends_the_build_witness :
  let es :=
    [("templates", Dir [("index.html", File "<p></p>")]);
     ("content", Dir [("posts", File "[]")]);
     ("dist", Dir [("index.html", File "<p>old</p>")])] in
  let r := run (host := example_host) 0 5 (Dir es) in
  exit_status (result_of r) = 1%Z /\
  lookup DIST_DIR (fs_after r) = Some (Dir []).
Proof.
intros es r.
destruct (@posts_path_that_is_a_file_ends_the_build example_host 0 5 es
            "<p></p>" "[]" eq_refl eq_refl)
  as (_ & _ & Hs & _ & Hd & _).
split; [exact Hs | exact Hd].
Defined.

(** X9.  A [content/site.json] that holds [null].  [readJSON] returns the
    [null], and [site.contact_email] throws a [TypeError]: the injection
    throws once the posts are counted, and the build ends with this
    exception, status 1, with an empty [dist] and no page.  A site
    document that is neither [null] nor an object (a number, a string, a
    boolean, an array) has no [contact_email] and gives the empty
    string. *)
Theorem null_site_document_ends_the_build {host : Host}
        (start finish : Z) (es : list (string * node)) (html text : string)
        (posts : list JSON) (warns : list (level * string)) :
  lookup TEMPLATE (Dir es) = Some (File html) ->
  lookup (content_file "site.json") (Dir es) = Some (File text) ->
  JSON_parse text = OK JNull ->
  readPosts (Dir es) = Outcome (Dir es) warns (Normal posts) ->
  let r := run start finish (Dir es) in
  (exists e, result_of r = Thrown e /\ exn_name e = "TypeError") /\
  exit_status (result_of r) = 1%Z /\
  printed r
  = ([started] ++ warns ++ [(Log, found_line (List.length posts))])%list /\
  lookup DIST_DIR (fs_after r) = Some (Dir []) /\
  forall site,
    site <> JNull -> (forall members, site <> JObject members) ->
    contact_email site = OK EmptyString.
Proof.
intros Ht Hs Hn Hp r. subst r.
assert (S : stored (content_file "site.json") (JObject []) (Dir es) = JNull)
  by (unfold stored; now rewrite Hs, Hn).
pose proof (injectData_run html Hp) as Hi. rewrite S in Hi.
unfold inject in Hi. cbn [contact_email Value.Get rbind of_result] in Hi.
rewrite (@run_injection_thrown host start finish es html _ _ Ht Hi).
cbn [fs_after printed result_of exit_status].
split; [eexists; split; reflexivity|]. split; [reflexivity|].
split; [reflexivity|]. split; [apply lookup_dist|].
intros site H1 H2. destruct site; try reflexivity; [congruence|].
now destruct (H2 members).
Qed.

Lemma null_site_document_ends_the_build_witness :
  let es :=
    [("templates", Dir [("index.html", File "<p>/*__CONTACT_EMAIL__*/</p>")]);
     ("content", Dir [("site.json", File "null")])] in
  let r := run (host := example_host) 0 5 (Dir es) in
  exit_status (result_of r) = 1%Z /\
  printed r = [started; (Log, found_line 0)] /\
  lookup DIST_DIR (fs_after r) = Some (Dir []).
Proof.
intros es r.
destruct (@null_site_document_ends_the_build example_host 0 5 es
            "<p>/*__CONTACT_EMAIL__*/</p>" "null" [] [] eq_refl eq_refl
            eq_refl eq_refl)
  as (_ & Hs & Hpr & Hd & _).
split; [exact Hs|]. split; [exact Hpr | exact Hd].
Defined.

(** X10.  What [dist] holds before a build has no part in it: two trees
    that are the same beside [dist] give the same run, with the same tree
    at its end, the same lines and the same completion.  Nothing of an
    earlier output is read, and nothing of it is left. *)
Theorem earlier_output_has_no_part_in_the_build {host : Host}
        (start finish : Z) (root root' : node) :
  beside "dist" root = beside "dist" root' ->
  run start finish root = run start finish root'.
Proof. intros H. unfold run. now apply build_beside. Qed.

Lemma earlier_output_has_no_part_in_the_build_witness :
  run (host := example_host) 0 5
    (Dir (site_without_posts
            ++ [("dist", Dir [("stale.html", File "<p>old</p>")])])%list)
  = run (host := example_host) 0 5 (Dir site_without_posts).
Proof.
apply (@earlier_output_has_no_part_in_the_build example_host 0 5).
reflexivity.
Defined.

(** X11.  A [templates/index.html] that is a directory.  [existsSync]
    finds it, so the build neither prints its error line nor calls
    [process.exit]; [readFileSync] then throws, and the build ends with
    this exception, status 1, with an empty [dist]. *)
Theorem template_that_is_a_directory_ends_the_build {host : Host}
        (start finish : Z) (es entries : list (string * node)) :
  lookup TEMPLATE (Dir es) = Some (Dir entries) ->
  let r := run start finish (Dir es) in
  (exists e, result_of r = Thrown e) /\
  exit_status (result_of r) = 1%Z /\
  printed r = [started] /\
  lookup DIST_DIR (fs_after r) = Some (Dir []) /\
  beside "dist" (fs_after r) = beside "dist" (Dir es).
Proof.
intros Ht r. subst r. rewrite run_root. fold (with_dist es []).
unfold after_clean.
assert (Lt : lookup TEMPLATE (with_dist es []) = Some (Dir entries)).
{ unfold TEMPLATE, ROOT, path_join in *. cbn [app] in *.
  now rewrite lookup_with_dist by discriminate. }
erewrite bind_normal by (eapply existsSync_found; exact Lt).
cbn [negb]. rewrite after_nil.
erewrite bind_normal by reflexivity. rewrite after_nil.
erewrite bind_thrown
  by (unfold readFileSync, readFile; rewrite Lt; reflexivity).
cbn [after fs_after printed result_of exit_status app].
split; [now eexists|]. split; [reflexivity|]. split; [reflexivity|].
split; [apply lookup_dist|].
unfold with_dist. cbn [beside]. now rewrite remove_app_same, remove_remove.
Qed.

Lemma template_that_is_a_directory_ends_the_build_witness :
  let es :=
    [("templates", Dir [("index.html", Dir [("index.html", File "<p></p>")])]);
     ("dist", Dir [("index.html", File "<p>old</p>")])] in
  let r := run (host := example_host) 0 5 (Dir es) in
  exit_status (result_of r) = 1%Z /\
  printed r = [started] /\
  lookup DIST_DIR (fs_after r) = Some (Dir []).
Proof.
intros es r.
destruct (@template_that_is_a_directory_ends_the_build example_host 0 5 es
            [("index.html", File "<p></p>")] eq_refl)
  as (_ & Hs & Hp & Hd & _).
split; [exact Hs|]. split; [exact Hp | exact Hd].
Defined.

(* ================================================================= *)
(** ** Reading the content *)

Module Listing.
Section Names.
Import Str StrFacts.

Context {host : Host}.

(** An entry of the posts directory that [readPosts] takes for a post:
    its name ends in [.json]. *)
Definition json_entry (e : string * node) : bool :=
  endsWith (fst e) ".json".

Lemma take_drop (n : nat) (s : string) : take n s ++ drop n s = s.
Proof.
revert s. induction n as [|n IH]; intros s; [reflexivity|].
destruct s as [|a s]; [reflexivity|]. cbn [take drop append]. now rewrite IH.
Qed.

Lemma endsWith_iff (s p : string) :
  endsWith s p = true <-> exists stem, s = stem ++ p.
Proof.
unfold endsWith. rewrite andb_true_iff, Nat.leb_le, String.eqb_eq. split.
- intros [_ H]. exists (take (String.length s - String.length p) s).
  pose proof (take_drop (String.length s - String.length p) s) as T.
  rewrite H in T. now symmetry.
- intros [stem ->]. rewrite length_append. split; [lia|].
  replace (String.length stem + String.length p - String.length p)
    with (String.length stem) by lia.
  apply drop_append.
Qed.

Lemma json_names_entries (entries : list (string * node)) :
  json_names entries = map fst (filter json_entry entries).
Proof.
unfold json_names, json_entry.
induction entries as [|[k x] es IH]; [reflexivity|].
cbn [map filter fst]. destruct (endsWith k ".json"); cbn [map fst];
  now rewrite IH.
Qed.

Lemma assoc_json_entries (f : string) (entries : list (string * node)) :
  endsWith f ".json" = true ->
  Value.assoc f (filter json_entry entries) = Value.assoc f entries.
Proof.
intros Hf. induction entries as [|[k x] es IH]; [reflexivity|].
cbn [filter Value.assoc]. unfold json_entry at 1. cbn [fst].
destruct (endsWith k ".json") eqn:E; cbn [Value.assoc].
- now rewrite IH.
- destruct (String.eqb f k) eqn:Ek; [|exact IH].
  apply String.eqb_eq in Ek. subst k. congruence.
Qed.

(** A post file is found in the listing of the posts directory. *)
Lemma load_listed (root : node) (entries : list (string * node)) (f : string) :
  lookup POSTS_DIR root = Some (Dir entries) ->
  load root f
  = rbind (match Value.assoc f entries with
           | Some (File data) => OK data
           | Some (Dir _) => Throw (EISDIR "read")
           | None => Throw (ENOENT "open")
           end) JSON_parse.
Proof.
intros H. unfold load, readFile, path_join.
rewrite Copy.lookup_app, H. cbn [lookup].
now destruct (Value.assoc f entries) as [[data|ces]|].
Qed.

Lemma flat_map_agree {A B} (f g : A -> list B) (l : list A) :
  (forall a, In a l -> f a = g a) -> flat_map f l = flat_map g l.
Proof.
induction l as [|a l IH]; intros H; [reflexivity|].
cbn [flat_map]. rewrite (H a (or_introl eq_refl)), IH; [reflexivity|].
intros b Hb. apply H. now right.
Qed.

End Names.
End Listing.

Import Listing.

(** X12.  [readJSON] never throws, prints nothing and changes nothing,
    whatever the path and the tree.  A file whose text parses gives the
    value of its text, be that value [null], [false] or another falsy one:
    the fallback does not stand in for a document that is there.  A path
    that is a directory gives the fallback, like a missing one. *)
Theorem readJSON_returns_the_document_or_the_fallback {host : Host}
        (p : path) (fallback : JSON) (root : node) :
  (exists v, readJSON p fallback root = Outcome root [] (Normal v)) /\
  (forall text doc,
      lookup p root = Some (File text) -> JSON_parse text = OK doc ->
      readJSON p fallback root = Outcome root [] (Normal doc)) /\
  (forall entries,
      lookup p root = Some (Dir entries) ->
      readJSON p fallback root = Outcome root [] (Normal fallback)).
Proof.
split; [|split].
- eexists. apply readJSON_stored.
- intros text doc H P. rewrite readJSON_stored. unfold stored.
  now rewrite H, P.
- intros entries H. rewrite readJSON_stored. unfold stored. now rewrite H.
Qed.

Lemma readJSON_returns_the_document_or_the_fallback_witness :
  let root :=
    Dir [("content", Dir [("site.json", File "null"); ("about.json", Dir [])])] in
  readJSON (host := example_host) (content_file "site.json") (JObject []) root
  = Outcome root [] (Normal JNull) /\
  readJSON (host := example_host) (content_file "about.json") (JArray []) root
  = Outcome root [] (Normal (JArray [])).
Proof.
intros root.
destruct (@readJSON_returns_the_document_or_the_fallback example_host
            (content_file "site.json") (JObject []) root) as (_ & H & _).
split; [exact (H "null" JNull eq_refl eq_refl)|].
destruct (@readJSON_returns_the_document_or_the_fallback example_host
            (content_file "about.json") (JArray []) root) as (_ & _ & H').
exact (H' [] eq_refl).
Defined.

(** X13.  [readPosts] reads the entries of the posts directory whose name
    ends in [.json], that is, is some stem followed by [.json], and no
    other entry: two trees whose posts directories hold the same such
    entries, in the same order, give the same warnings and the same
    result, whatever else the directories hold. *)
Theorem only_json_entries_are_posts {host : Host} (root root' : node)
        (entries entries' : list (string * node)) :
  lookup POSTS_DIR root = Some (Dir entries) ->
  lookup POSTS_DIR root' = Some (Dir entries') ->
  filter json_entry entries = filter json_entry entries' ->
  printed (readPosts root) = printed (readPosts root') /\
  result_of (readPosts root) = result_of (readPosts root') /\
  forall e, json_entry e = true <-> exists stem, fst e = stem ++ ".json".
Proof.
intros H H' F.
assert (L : forall f, In f (json_names entries) -> load root f = load root' f).
{ intros f Hf. unfold json_names in Hf. apply filter_In in Hf as [_ Hf].
  rewrite (@load_listed host root entries f H).
  rewrite (@load_listed host root' entries' f H').
  rewrite <- (@assoc_json_entries f entries Hf), F.
  now rewrite (@assoc_json_entries f entries' Hf). }
assert (N : json_names entries' = json_names entries)
  by (now rewrite !json_names_entries, F).
rewrite (readPosts_directory root H), (readPosts_directory root' H'), N.
cbn [printed result_of]. unfold warnings, loaded.
split; [|split].
- apply flat_map_agree. intros f Hf. now rewrite (L f Hf).
- do 2 f_equal. apply flat_map_agree. intros f Hf. now rewrite (L f Hf).
- intros e. unfold json_entry. apply endsWith_iff.
Qed.

Lemma only_json_entries_are_posts_witness :
  let posts := [("a.json", File (post_text "2026-01-01"))] in
  let more :=
    [("README.md", File "notes"); ("a.json", File (post_text "2026-01-01"));
     ("b.JSON", File "{}"); ("c.json.bak", File "{oops")] in
  readPosts (host := example_host) (Dir [("content", Dir [("posts", Dir more)])])
  = Outcome (Dir [("content", Dir [("posts", Dir more)])]) []
      (Normal [dated_post "2026-01-01"]) /\
  result_of
    (readPosts (host := example_host)
       (Dir [("content", Dir [("posts", Dir more)])]))
  = result_of
      (readPosts (host := example_host)
         (Dir [("content", Dir [("posts", Dir posts)])])).
Proof.
intros posts more. split; [vm_compute; reflexivity|].
exact (proj1 (proj2
         (@only_json_entries_are_posts example_host
            (Dir [("content", Dir [("posts", Dir more)])])
            (Dir [("content", Dir [("posts", Dir posts)])])
            more posts eq_refl eq_refl eq_refl))).
Defined.

(* ================================================================= *)
(** ** A post that is [null] *)

Module NullPost.
Section Sort.

Context {host : Host}.

Lemma by_date_of_null (b : JSON) : exists e, by_date JNull b = Throw e.
Proof.
unfold by_date. destruct (Value.Get b "date") as [d|e]; cbn [rbind];
  now eexists.
Qed.

Lemma by_date_with_null (a : JSON) : exists e, by_date a JNull = Throw e.
Proof. unfold by_date. cbn [Value.Get rbind]. now eexists. Qed.

Lemma insert_some (x : JSON) (run r : list JSON) :
  ArraySort.insert by_date x run = OK r -> r <> [].
Proof.
destruct run as [|y rest]; cbn [ArraySort.insert].
- intros [= <-]. discriminate.
- destruct (by_date x y) as [o|e]; cbn [rbind]; [|discriminate].
  destruct (o <? 0)%Z; [intros [= <-]; discriminate|].
  destruct (ArraySort.insert by_date x rest); cbn [rbind];
    [intros [= <-]|]; discriminate.
Qed.

Lemma insert_null (run : list JSON) :
  run <> [] -> exists e, ArraySort.insert by_date JNull run = Throw e.
Proof.
destruct run as [|y rest]; [congruence|]. intros _.
cbn [ArraySort.insert]. destruct (by_date_of_null y) as [e ->].
now exists e.
Qed.

Lemma sort_into_null (pending : list JSON) :
  forall run,
    run <> [] -> In JNull pending ->
    exists e, ArraySort.sort_into by_date run pending = Throw e.
Proof.
induction pending as [|x rest IH]; intros run Hr Hin; [destruct Hin|].
cbn [ArraySort.sort_into].
destruct Hin as [->|Hin].
- destruct (insert_null Hr) as [e ->]. now exists e.
- destruct (ArraySort.insert by_date x run) as [run'|e] eqn:E; cbn [rbind].
  + apply IH; [|exact Hin]. exact (insert_some x run E).
  + now exists e.
Qed.

Lemma sort_into_behind_null (rest : list JSON) :
  rest <> [] ->
  exists e, ArraySort.sort_into by_date [JNull] rest = Throw e.
Proof.
destruct rest as [|x rest]; [congruence|]. intros _.
cbn [ArraySort.sort_into ArraySort.insert].
destruct (by_date_with_null x) as [e ->]. now exists e.
Qed.

Lemma sort_with_null (posts : list JSON) :
  In JNull posts -> 2 <= List.length posts ->
  exists e, ArraySort.sort by_date posts = Throw e.
Proof.
intros Hin Hlen. destruct posts as [|x [|y rest]]; cbn in Hlen; try lia.
unfold ArraySort.sort.
change (ArraySort.sort_into by_date [] (x :: y :: rest))
  with (ArraySort.sort_into by_date [x] (y :: rest)).
destruct Hin as [->|Hin].
- apply sort_into_behind_null. discriminate.
- apply sort_into_null; [discriminate | exact Hin].
Qed.

End Sort.
End NullPost.

(** X14.  A post file that holds [null] is a post: [JSON.parse] returns
    it and the loop keeps it.  The comparator reads [.date] of it, which
    throws: whenever two or more posts are loaded and one of them is
    [null], the sort throws, and with it [readPosts], outside any [try].
    A single post is never compared and is returned as it is, [null] or
    not. *)
Theorem null_post_ends_the_sort {host : Host} (root : node)
        (entries : list (string * node)) :
  lookup POSTS_DIR root = Some (Dir entries) ->
  In JNull (loaded root (json_names entries)) ->
  2 <= List.length (loaded root (json_names entries)) ->
  (exists e,
      ArraySort.sort by_date (loaded root (json_names entries)) = Throw e /\
      result_of (readPosts root) = Thrown e) /\
  fs_after (readPosts root) = root /\
  forall post, ArraySort.sort by_date [post] = OK [post].
Proof.
intros H Hin Hlen.
destruct (NullPost.sort_with_null _ Hin Hlen) as [e E].
rewrite (readPosts_directory root H). cbn [fs_after result_of].
rewrite E. split; [exists e; now split|]. split; reflexivity.
Qed.

Lemma null_post_ends_the_sort_witness :
  let root :=
    Dir [("templates", Dir [("index.html", File template_text)]);
         ("content",
          Dir [("posts",
                Dir [("a.json", File (post_text "2026-01-01"));
                     ("b.json", File "null")])])] in
  (exists e, result_of (readPosts (host := example_host) root) = Thrown e) /\
  exit_status (result_of (run (host := example_host) 0 5 root)) = 1%Z.
Proof.
intros root.
destruct (@null_post_ends_the_sort example_host root
            [("a.json", File (post_text "2026-01-01")); ("b.json", File "null")]
            eq_refl (or_intror (or_introl eq_refl)) (le_n 2))
  as ((e & _ & He) & _).
split; [now exists e | reflexivity].
Defined.

(* ================================================================= *)
(** ** The lines of a build *)

Module Transcript.
Section Lines.

Context {host : Host}.

(** A line that does not begin with a line feed. *)
Definition plain (l : level * string) : bool :=
  match snd l with
  | EmptyString => true
  | String c _ => negb (Ascii.eqb c (ascii_of_nat 10))
  end.

Definition plain_lines (out : list (level * string)) : Prop :=
  Forall (fun l => plain l = true) out.

(** [m] prints plain lines only and exits, if at all, with status 1. *)
Definition tame {A} (m : M A) : Prop :=
  forall n,
    plain_lines (printed (m n)) /\
    forall c, result_of (m n) = Exited c -> c = 1%Z.

(** [m] is tame but for the line [last], which it prints at its very end
    if and only if it completes. *)
Definition ends_with {A} (last : level * string) (m : M A) : Prop :=
  forall n,
    (forall c, result_of (m n) = Exited c -> c = 1%Z) /\
    match result_of (m n) with
    | Normal _ =>
        exists out, printed (m n) = (out ++ [last])%list /\ plain_lines out
    | _ => plain_lines (printed (m n))
    end.

Lemma tame_bind {A B} (m : M A) (k : A -> M B) :
  tame m -> (forall a, tame (k a)) -> tame (bind m k).
Proof.
intros Hm Hk n. unfold bind. destruct (Hm n) as [Pm Em].
destruct (result_of (m n)) as [a|e|c] eqn:E; cbn [printed result_of].
- destruct (Hk a (fs_after (m n))) as [Pk Ek]. split; [|exact Ek].
  apply Forall_app. now split.
- split; [exact Pm | discriminate].
- split; [exact Pm|]. intros c' [= <-]. now apply Em.
Qed.

Lemma tame_try {A} (m : M A) (h : exn -> M A) :
  tame m -> (forall e, tame (h e)) -> tame (try_catch m h).
Proof.
intros Hm Hh n. unfold try_catch. destruct (Hm n) as [Pm Em].
destruct (result_of (m n)) as [a|e|c] eqn:E.
- split; [exact Pm|]. intros c. rewrite E. discriminate.
- cbn [printed result_of].
  destruct (Hh e (fs_after (m n))) as [Pk Ek]. split; [|exact Ek].
  apply Forall_app. now split.
- split; [exact Pm|]. intros c'. rewrite E. intros [= <-]. now apply Em.
Qed.

Lemma tame_for {A S} (xs : list A) (body : S -> A -> M S) :
  (forall s x, tame (body s x)) -> forall s, tame (for_of xs body s).
Proof.
intros Hb. induction xs as [|x xs IH]; intros s; cbn [for_of].
- intros n. split; [constructor | discriminate].
- apply tame_bind; auto.
Qed.

Lemma tame_silent {A} (m : M A) :
  (forall n, printed (m n) = [] /\ forall c, result_of (m n) <> Exited c) ->
  tame m.
Proof.
intros H n. destruct (H n) as [P E]. rewrite P.
split; [constructor|]. intros c Hc. now destruct (E c).
Qed.

Lemma tame_ret {A} (a : A) : tame (ret a).
Proof. apply tame_silent. intros n. split; [reflexivity | discriminate]. Qed.

Lemma tame_lift {A} (r : result A) : tame (lift r).
Proof.
apply tame_silent. intros n. destruct r; split; try reflexivity; discriminate.
Qed.

Lemma tame_exists (p : path) : tame (existsSync p).
Proof. apply tame_silent. intros n. split; [reflexivity | discriminate]. Qed.

Lemma tame_rm (p : path) : tame (rmSync p).
Proof. apply tame_silent. intros n. split; [reflexivity | discriminate]. Qed.

Lemma tame_update (f : node -> result node) : tame (fs_update f).
Proof.
apply tame_silent. intros n. unfold fs_update.
destruct (f n); split; try reflexivity; discriminate.
Qed.

Lemma tame_readFile (p : path) : tame (readFileSync p).
Proof. intros n. unfold readFileSync. apply tame_lift. Qed.

Lemma tame_readdir (p : path) : tame (readdirSync p).
Proof. intros n. unfold readdirSync. apply tame_lift. Qed.

Lemma tame_write (l : level) (line : string) :
  plain (l, line) = true -> tame (console_write l line).
Proof.
intros H n. split; [now repeat constructor | discriminate].
Qed.

Lemma tame_exit_1 {A} : tame (@process_exit A 1).
Proof. intros n. split; [constructor|]. now intros c [= <-]. Qed.

Lemma tame_if {A} (b : bool) (m m' : M A) :
  tame m -> tame m' -> tame (if b then m else m').
Proof. now destruct b. Qed.

Lemma tame_copyFile (src dest : path) : tame (copyFileSync src dest).
Proof.
apply tame_bind; [apply tame_readFile|]. intros data. apply tame_update.
Qed.

Lemma tame_ensureDir (p : path) : tame (ensureDir p).
Proof.
apply tame_bind; [apply tame_exists|]. intros e.
apply tame_if; [apply tame_update | apply tame_ret].
Qed.

Lemma tame_cleanDir (p : path) : tame (cleanDir p).
Proof.
apply tame_bind; [apply tame_exists|]. intros e.
apply tame_bind; [apply tame_if; [apply tame_rm | apply tame_ret]|].
intros _. apply tame_update.
Qed.

Lemma tame_copyTree (n : node) : forall src dest, tame (copyTree n src dest).
Proof.
induction n as [data|es IH] using node_nested_ind; intros src dest;
  cbn [copyTree]; (apply tame_bind; [apply tame_ensureDir|]); intros _.
- apply tame_lift.
- induction IH as [|[name child] es Hc _ IHes]; [apply tame_ret|].
  apply tame_bind; [|intros _; exact IHes].
  cbn [snd] in Hc. apply tame_if; [apply Hc | apply tame_copyFile].
Qed.

Lemma tame_copyDirSync (src dest : path) : tame (copyDirSync src dest).
Proof.
intros n. unfold copyDirSync.
destruct (lookup src n); [apply tame_copyTree | apply tame_ret].
Qed.

Lemma tame_readJSON (p : path) (fallback : JSON) : tame (readJSON p fallback).
Proof.
apply tame_silent. intros n. rewrite readJSON_stored.
split; [reflexivity | discriminate].
Qed.

Lemma tame_readPosts : tame readPosts.
Proof.
unfold readPosts. apply tame_bind; [apply tame_exists|]. intros e.
apply tame_if; [apply tame_ret|].
apply tame_bind; [apply tame_readdir|]. intros entries.
apply tame_bind; [|intros; apply tame_lift].
apply tame_for. intros posts f. apply tame_try.
- apply tame_bind; [apply tame_readFile|]. intros text.
  apply tame_bind; [apply tame_lift|]. intros post. apply tame_ret.
- intros e'. apply tame_bind; [|intros _; apply tame_ret].
  apply tame_write. reflexivity.
Qed.

Lemma tame_injectData (html : string) : tame (injectData html).
Proof.
unfold injectData.
apply tame_bind; [apply tame_readPosts|]. intros posts.
apply tame_bind; [apply tame_readJSON|]. intros unlinked.
apply tame_bind; [apply tame_readJSON|]. intros about.
apply tame_bind; [apply tame_readJSON|]. intros site.
apply tame_bind; [apply tame_write; reflexivity|]. intros _.
apply tame_lift.
Qed.

Lemma ends_with_bind {A B} (last : level * string) (m : M A) (k : A -> M B) :
  tame m -> (forall a, ends_with last (k a)) -> ends_with last (bind m k).
Proof.
intros Hm Hk n. unfold bind. destruct (Hm n) as [Pm Em].
destruct (result_of (m n)) as [a|e|c] eqn:E; cbn [printed result_of].
- destruct (Hk a (fs_after (m n))) as [Ek Pk]. split; [exact Ek|].
  destruct (result_of (k a (fs_after (m n)))) as [b|e|c].
  + destruct Pk as (out & -> & Po). exists (printed (m n) ++ out)%list.
    split; [now rewrite app_assoc|]. apply Forall_app. now split.
  + apply Forall_app. now split.
  + apply Forall_app. now split.
- split; [discriminate | exact Pm].
- split; [|exact Pm]. intros c' [= <-]. now apply Em.
Qed.

Lemma ends_with_write (l : level) (line : string) :
  ends_with (l, line) (console_write l line).
Proof.
intros n. split; [discriminate|]. exists []. split; [reflexivity|constructor].
Qed.

Lemma build_ends_with (start finish : Z) :
  ends_with (Log, complete_line (finish - start)) (build start finish).
Proof.
unfold build.
apply ends_with_bind; [apply tame_write; reflexivity|]. intros _.
apply ends_with_bind; [apply tame_cleanDir|]. intros _.
apply ends_with_bind; [apply tame_exists|]. intros e.
apply ends_with_bind.
{ apply tame_if; [|apply tame_ret].
  apply tame_bind; [apply tame_write; reflexivity|]. intros _.
  apply tame_exit_1. }
intros _. apply ends_with_bind; [apply tame_readFile|]. intros html.
apply ends_with_bind; [apply tame_injectData|]. intros html'.
apply ends_with_bind; [apply tame_update|]. intros _.
apply ends_with_bind; [apply tame_write; reflexivity|]. intros _.
apply ends_with_bind; [apply tame_exists|]. intros e'.
apply ends_with_bind.
{ apply tame_if; [|apply tame_ret].
  apply tame_bind; [apply tame_copyDirSync|]. intros _.
  apply tame_write. reflexivity. }
intros _. apply ends_with_bind; [apply tame_exists|]. intros e''.
apply ends_with_bind.
{ apply tame_if; [|apply tame_ret].
  apply tame_bind; [apply tame_copyFile|]. intros _.
  apply tame_write. reflexivity. }
intros _. apply ends_with_write.
Qed.

Lemma complete_line_not_plain (elapsed : Z) :
  plain (Log, complete_line elapsed) = false.
Proof. reflexivity. Qed.

Lemma not_among_plain (last : level * string) (out : list (level * string)) :
  plain last = false -> plain_lines out -> ~ In last out.
Proof.
intros Hl Ho Hin. unfold plain_lines in Ho. rewrite Forall_forall in Ho.
rewrite (Ho last Hin) in Hl. discriminate.
Qed.

End Lines.
End Transcript.

(** X15.  The completion line is printed by a build that completes, as its
    last line, and by no other: a build that throws or exits has not
    printed it, on any tree.  The exit status is 0 or 1. *)
Theorem completion_line_means_success {host : Host} (start finish : Z)
        (root : node) :
  let r := run start finish root in
  let line := (Log, complete_line (finish - start)) in
  (forall u, result_of r = Normal u ->
             exists out, printed r = (out ++ [line])%list /\ ~ In line out) /\
  ((forall u, result_of r <> Normal u) -> ~ In line (printed r)) /\
  (exit_status (result_of r) = 0%Z \/ exit_status (result_of r) = 1%Z).
Proof.
intros r line. subst r line. unfold run.
destruct (Transcript.build_ends_with start finish root) as [He Hp].
pose proof (Transcript.complete_line_not_plain (finish - start)) as Hl.
destruct (result_of (build start finish root)) as [u|e|c].
- destruct Hp as (out & Hout & Po). split; [|split].
  + intros u' _. exists out. split; [exact Hout|].
    now apply Transcript.not_among_plain.
  + intros H. now destruct (H u).
  + now left.
- split; [discriminate|]. split; [|now right].
  intros _. now apply Transcript.not_among_plain.
- split; [discriminate|]. split; [|right; now apply He].
  intros _. now apply Transcript.not_among_plain.
Qed.

(* ================================================================= *)
(** ** The injection on a template laid out in texts and tokens *)

Module Layout.
Import Str StrFacts Verbatim.

(** The four placeholders of [injectData]. *)
Inductive token : Type := TPosts | TUnlinked | TAbout | TEmail.

Definition token_text (k : token) : string :=
  match k with
  | TPosts => POSTS_TOKEN
  | TUnlinked => UNLINKED_TOKEN
  | TAbout => ABOUT_TOKEN
  | TEmail => EMAIL_TOKEN
  end.

(** A piece of a page in the making: a token that stands in it, or the
    data put in the place of one. *)
Inductive piece : Type :=
| Token (k : token)
| Data (text : string).

Definition piece_text (x : piece) : string :=
  match x with
  | Token k => token_text k
  | Data s => s
  end.

Definition is_token (k : token) (x : piece) : bool :=
  match x, k with
  | Token TPosts, TPosts | Token TUnlinked, TUnlinked
  | Token TAbout, TAbout | Token TEmail, TEmail => true
  | _, _ => false
  end.

(** A text laid out: a first text, then pieces, each followed by a
    text. *)
Fixpoint body (items : list (piece * string)) : string :=
  match items with
  | [] => EmptyString
  | (x, t) :: rest => piece_text x ++ t ++ body rest
  end.

Definition render (t0 : string) (items : list (piece * string)) : string :=
  t0 ++ body items.

(** The template whose tokens, from left to right, are those of
    [layout], each followed by its text. *)
Definition tokens (layout : list (token * string)) : list (piece * string) :=
  map (fun it => (Token (fst it), snd it)) layout.

(** The first token [k] of the layout gives way to the data [r]. *)
Fixpoint fill (k : token) (r : string) (items : list (piece * string))
  : list (piece * string) :=
  match items with
  | [] => []
  | (x, t) :: rest =>
      if is_token k x then (Data r, t) :: rest else (x, t) :: fill k r rest
  end.

(** The three characters that every token holds behind its first one. *)
Definition marker : string := "*__".

(** [s] does not hold the marker. *)
Definition unmarked (s : string) : bool :=
  match indexOf s marker with
  | None => true
  | Some _ => false
  end.

Fixpoint last_char (s : string) : option ascii :=
  match s with
  | EmptyString => None
  | String c EmptyString => Some c
  | String _ s' => last_char s'
  end.

(** [s] is not empty and does not begin with an underscore. *)
Definition head_ok (s : string) : bool :=
  match s with
  | EmptyString => false
  | String c _ => negb (Ascii.eqb c "_")
  end.

(** [s] is not empty and ends neither with an asterisk nor with an
    underscore. *)
Definition last_ok (s : string) : bool :=
  match last_char s with
  | None => false
  | Some c => negb (Ascii.eqb c "*" || Ascii.eqb c "_")
  end.

(** Data among which a token is found where it stands, and nowhere
    else: the text of a JSON value that does not hold the marker. *)
Definition sealed (s : string) : bool := unmarked s && head_ok s && last_ok s.

(** [r] holds one of the patterns of [replace]: a dollar sign followed by
    a dollar sign, an ampersand, a backquote or a quote. *)
Fixpoint patterned (r : string) : bool :=
  match r with
  | EmptyString => false
  | String c tl =>
      (Ascii.eqb c "$"
       && match tl with
          | String d _ =>
              Ascii.eqb d "$" || Ascii.eqb d "&" || Ascii.eqb d "`"
              || Ascii.eqb d "'"
          | EmptyString => false
          end)
      || patterned tl
  end.

(** Data that hold neither the marker nor a pattern of [replace]. *)
Definition plain_data (s : string) : bool := unmarked s && negb (patterned s).

(** A JSON document that is a number and nothing else. *)
Definition bare_number (v : JSON) : bool :=
  match v with
  | JNumber _ => true
  | _ => false
  end.

Definition piece_ok (x : piece) : bool :=
  match x with
  | Token _ => true
  | Data s => sealed s
  end.

Definition item_ok (it : piece * string) : bool :=
  piece_ok (fst it) && unmarked (snd it).

(** *** Tokens *)

Lemma token_shape (k : token) :
  exists tail, token_text k = String "/" (marker ++ tail).
Proof. destruct k; eexists; reflexivity. Qed.

Lemma token_prefix (j k : token) (a b : string) :
  token_text j ++ a = token_text k ++ b -> j = k.
Proof. destruct j, k; cbn; intros H; try reflexivity; discriminate. Qed.

(** Where [t] occurs in [s], it starts at a position at which [s] goes on
    with [t]. *)
Lemma occurrence_position (s t m rest : string) :
  s = m ++ t ++ rest ->
  startsWith (drop (String.length m) s) t = true /\
  String.length m <= String.length s.
Proof.
intros ->. rewrite drop_append, length_append. split; [|lia].
apply startsWith_iff. now exists rest.
Qed.

Lemma position_among (P : nat -> bool) (n : nat) :
  forall i, i < n -> P i = true -> existsb P (seq 0 n) = true.
Proof.
intros i Hi HP. apply existsb_exists. exists i. split; [|exact HP].
apply in_seq. lia.
Qed.

(** The marker stands in a token behind the first character only. *)
Lemma marker_in_token (k : token) (m rest : string) :
  token_text k = m ++ marker ++ rest -> m = "/".
Proof.
intros H. destruct (@occurrence_position _ _ _ _ H) as [Hs Hl].
assert (L : String.length m = 1).
{ destruct (Nat.eq_dec (String.length m) 1) as [E|E]; [exact E|].
  exfalso.
  assert (X : existsb
                (fun i => startsWith (drop i (token_text k)) marker
                          && negb (Nat.eqb i 1))
                (seq 0 (S (String.length (token_text k)))) = true).
  { apply position_among with (i := String.length m); [lia|].
    rewrite Hs. apply Nat.eqb_neq in E. now rewrite E. }
  destruct k; vm_compute in X; discriminate. }
destruct m as [|c [|c' m']]; try discriminate.
destruct k; cbn in H; now injection H as ->.
Qed.

Lemma token_edges (k : token) :
  head_ok (token_text k) = true /\ last_ok (token_text k) = true.
Proof. destruct k; split; reflexivity. Qed.

(** *** Characters at the edges *)

Lemma unmarked_spec (s : string) : unmarked s = true -> ~ occurs marker s.
Proof.
unfold unmarked. destruct (indexOf s marker) eqn:E; [discriminate|].
intros _. now apply indexOf_None.
Qed.

Lemma last_char_append (m k : string) :
  k <> EmptyString -> last_char (m ++ k) = last_char k.
Proof.
intros Hk. induction m as [|c m IH]; [reflexivity|].
cbn [append last_char]. rewrite IH.
destruct (m ++ k) eqn:E; [|reflexivity].
destruct m; [cbn in E; congruence | discriminate].
Qed.

(** A proper, non-empty first part of the marker ends with an asterisk or
    an underscore, and what is left of the marker begins with an
    underscore. *)
Lemma marker_cut (k2 a b : string) :
  marker ++ a = k2 ++ b ->
  0 < String.length k2 -> String.length k2 < 3 ->
  (exists c,
      last_char k2 = Some c /\
      (Ascii.eqb c "*" || Ascii.eqb c "_") = true) /\
  exists b', b = String "_" b'.
Proof.
intros E L0 L3.
destruct k2 as [|c1 [|c2 [|c3 k2']]]; cbn in L0, L3; try lia; cbn in E.
- injection E as <- <-. split; [now exists "*"%char | now eexists].
- injection E as <- <- <-. split; [now exists "_"%char | now eexists].
Qed.

Lemma piece_edges (x : piece) :
  piece_ok x = true ->
  head_ok (piece_text x) = true /\ last_ok (piece_text x) = true.
Proof.
destruct x as [k|s]; cbn [piece_ok piece_text]; [intros _; apply token_edges|].
unfold sealed. rewrite !andb_true_iff. tauto.
Qed.

Lemma last_ok_append (m k : string) :
  last_ok k = true -> last_ok (m ++ k) = true.
Proof.
intros H. unfold last_ok in *. rewrite last_char_append; [exact H|].
now destruct k.
Qed.

(** The text of a JSON value that is not a bare number begins with a
    bracket, a brace, a double quote or a letter, and ends with one. *)
Lemma stringify_edges (v : JSON) :
  bare_number v = false ->
  head_ok (Stringify.JSON_stringify v) = true /\
  last_ok (Stringify.JSON_stringify v) = true.
Proof.
unfold Stringify.JSON_stringify.
destruct v as [|b|repr|s|l|ms]; intros H; try discriminate.
- split; reflexivity.
- destruct b; split; reflexivity.
- cbn [Stringify.SerializeJSONProperty]. unfold Stringify.QuoteJSONString.
  split; [reflexivity|]. now do 2 apply last_ok_append.
- destruct l as [|x l]; [split; reflexivity|].
  cbn [Stringify.SerializeJSONProperty]. unfold Stringify.wrap.
  split; [reflexivity|]. now do 6 apply last_ok_append.
- destruct ms as [|x ms]; [split; reflexivity|].
  cbn [Stringify.SerializeJSONProperty]. unfold Stringify.wrap.
  split; [reflexivity|]. now do 6 apply last_ok_append.
Qed.

Lemma plain_data_sealed (v : JSON) :
  bare_number v = false ->
  plain_data (Stringify.JSON_stringify v) = true ->
  sealed (Stringify.JSON_stringify v) = true /\
  patterned (Stringify.JSON_stringify v) = false.
Proof.
intros Hv H. unfold plain_data in H. apply andb_true_iff in H as [Hc Hp].
apply negb_true_iff in Hp. destruct (stringify_edges v Hv) as [Hh Hl].
unfold sealed. now rewrite Hc, Hh, Hl.
Qed.

(** Without a pattern the replacement text stands for itself, dollar
    signs included. *)
Lemma subst_unpatterned (matched preceding following r : string) :
  patterned r = false ->
  Replace.GetSubstitution matched preceding following r = r.
Proof.
induction r as [|c tl IH]; [reflexivity|].
cbn [patterned]. rewrite orb_false_iff. intros [Hc Ht].
cbn [Replace.GetSubstitution]. destruct (Ascii.eqb c "$") eqn:Ec.
- destruct tl as [|d rest]; [reflexivity|].
  cbn [andb] in Hc. rewrite !orb_false_iff in Hc.
  destruct Hc as [[[-> ->] ->] ->]. now rewrite (IH Ht).
- now rewrite (IH Ht).
Qed.

Lemma replace_unpatterned (s t r pre post : string) :
  patterned r = false -> first_occurrence t s pre post ->
  Replace.replace s t r = pre ++ r ++ post.
Proof.
intros H F. rewrite (replace_first r F). now rewrite subst_unpatterned.
Qed.

Lemma marker_in_piece (x : piece) (m rest : string) :
  piece_ok x = true -> piece_text x = m ++ marker ++ rest ->
  (exists k, x = Token k) /\ m = "/".
Proof.
destruct x as [k|s]; cbn [piece_ok piece_text]; intros Hx H.
- split; [now exists k | now apply marker_in_token in H].
- exfalso. unfold sealed in Hx. rewrite !andb_true_iff in Hx.
  destruct Hx as [[Hc _] _]. apply (@unmarked_spec _ Hc). now exists m, rest.
Qed.

(** *** Where the marker stands in a layout *)

Lemma body_app (l1 l2 : list (piece * string)) :
  body (l1 ++ l2) = body l1 ++ body l2.
Proof.
induction l1 as [|[x t] l1 IH]; [reflexivity|].
cbn [app body]. now rewrite IH, !append_assoc.
Qed.

Lemma render_cons (t0 t : string) (x : piece) (items : list (piece * string)) :
  render t0 ((x, t) :: items) = t0 ++ piece_text x ++ render t items.
Proof. reflexivity. Qed.

Lemma render_split (t0 t : string) (x : piece) (l1 l2 : list (piece * string)) :
  render t0 (l1 ++ (x, t) :: l2) = render t0 l1 ++ piece_text x ++ render t l2.
Proof.
unfold render. rewrite body_app. cbn [body]. now rewrite append_assoc.
Qed.

(** In a layout of unmarked texts and sealed data, the marker stands behind
    the first character of a token, and nowhere else. *)
Lemma marker_in_render (items : list (piece * string)) :
  forall t0 p q,
    unmarked t0 = true -> forallb item_ok items = true ->
    render t0 items = p ++ marker ++ q ->
    exists l1 k t l2,
      items = (l1 ++ (Token k, t) :: l2)%list /\ p = render t0 l1 ++ "/".
Proof.
induction items as [|[x t] items IH]; intros t0 p q Ht0 Hok E.
- exfalso. apply (@unmarked_spec _ Ht0). exists p, q.
  unfold render in E. cbn [body] in E. now rewrite append_nil_r in E.
- cbn [forallb] in Hok. apply andb_true_iff in Hok as [Hit Hok].
  unfold item_ok in Hit. cbn [fst snd] in Hit.
  apply andb_true_iff in Hit as [Hx Ht].
  destruct (@piece_edges x Hx) as [Hhead Hlast].
  rewrite render_cons in E.
  destruct (le_lt_dec (String.length t0) (String.length p)) as [L|L].
  + destruct (append_cut _ _ _ _ E L) as (m & -> & E1).
    destruct (le_lt_dec (String.length (piece_text x)) (String.length m))
      as [L1|L1].
    * (* behind the piece *)
      destruct (append_cut _ _ _ _ E1 L1) as (m' & -> & E2).
      destruct (IH t m' q Ht Hok E2) as (l1 & k & t' & l2 & -> & ->).
      exists ((x, t) :: l1)%list, k, t', l2. split; [reflexivity|].
      rewrite render_cons. now rewrite !append_assoc.
    * (* in the piece *)
      symmetry in E1.
      destruct (append_cut _ _ _ _ E1 (Nat.lt_le_incl _ _ L1))
        as (k2 & Ex & E2).
      assert (Lk : 0 < String.length k2).
      { rewrite Ex, length_append in L1. lia. }
      destruct (le_lt_dec 3 (String.length k2)) as [L2|L2].
      -- destruct (append_cut marker q k2 (render t items) E2 L2)
           as (k3 & -> & _).
         destruct (@marker_in_piece x m k3 Hx Ex) as [[k ->] ->].
         exists [], k, t, items. split; [reflexivity|].
         unfold render. cbn [body]. now rewrite append_nil_r.
      -- exfalso. destruct (@marker_cut _ _ _ E2 Lk L2) as [(c & Hc & Hbad) _].
         unfold last_ok in Hlast. rewrite Ex in Hlast.
         rewrite last_char_append in Hlast by (destruct k2; [cbn in Lk; lia | discriminate]).
         rewrite Hc, Hbad in Hlast. discriminate.
  + (* in the text before the piece *)
    exfalso. symmetry in E.
    destruct (append_cut _ _ _ _ E (Nat.lt_le_incl _ _ L)) as (t2 & Et & E1).
    assert (Lt : 0 < String.length t2).
    { rewrite Et, length_append in L. lia. }
    destruct (le_lt_dec 3 (String.length t2)) as [L2|L2].
    * destruct (append_cut marker q t2 _ E1 L2) as (t3 & -> & _).
      apply (@unmarked_spec _ Ht0). subst t0. now exists p, t3.
    * destruct (@marker_cut _ _ _ E1 Lt L2) as [_ (b' & Hb)].
      destruct (piece_text x) as [|c rest]; [discriminate|].
      cbn [append] in Hb. injection Hb as -> _. discriminate.
Qed.

(** A token occurs in such a layout where it stands as a piece. *)
Lemma token_in_render (k : token) (t0 pre post : string)
      (items : list (piece * string)) :
  unmarked t0 = true -> forallb item_ok items = true ->
  render t0 items = pre ++ token_text k ++ post ->
  exists l1 t l2,
    items = (l1 ++ (Token k, t) :: l2)%list /\ pre = render t0 l1.
Proof.
intros Ht0 Hok E. destruct (token_shape k) as [tail Hk].
assert (E' : render t0 items = (pre ++ "/") ++ marker ++ (tail ++ post)).
{ rewrite E, Hk, (append_assoc pre "/"). cbn [append].
  now rewrite append_assoc. }
destruct (@marker_in_render items _ _ _ Ht0 Hok E')
  as (l1 & j & t & l2 & Hi & Hp).
assert (Hpre : pre = render t0 l1).
{ apply (append_inv pre "/" (render t0 l1) "/" Hp).
  apply (f_equal String.length) in Hp. rewrite !length_append in Hp.
  cbn in Hp. lia. }
subst pre items. rewrite render_split in E.
apply append_inv in E as [_ E]; [|reflexivity].
cbn [piece_text] in E. apply token_prefix in E. subst j.
now exists l1, t, l2.
Qed.

(** *** One step of the injection *)

Lemma fill_first (k : token) (r : string) (items : list (piece * string)) :
  (forallb (fun it => negb (is_token k (fst it))) items = true /\
   fill k r items = items) \/
  exists f1 t f2,
    items = (f1 ++ (Token k, t) :: f2)%list /\
    forallb (fun it => negb (is_token k (fst it))) f1 = true /\
    fill k r items = (f1 ++ (Data r, t) :: f2)%list.
Proof.
induction items as [|[x t] items IH]; [left; now split|].
cbn [fill forallb fst]. destruct (is_token k x) eqn:E.
- right. exists [], t, items. cbn [app forallb].
  split; [|now split]. f_equal. f_equal.
  destruct x as [j|s]; [|discriminate]. now destruct j, k.
- destruct IH as [[Hn Hf]|(f1 & t' & f2 & Hi & Hn & Hf)].
  + left. cbn [negb andb]. split; [exact Hn | now rewrite Hf].
  + right. exists ((x, t) :: f1)%list, t', f2. cbn [app forallb fst].
    split; [now rewrite Hi|]. split; [now rewrite E, Hn | now rewrite Hf].
Qed.

Lemma before_first (k : token) (t t' : string)
      (f1 l1 f2 l2 : list (piece * string)) :
  forallb (fun it => negb (is_token k (fst it))) f1 = true ->
  (f1 ++ (Token k, t) :: f2 = l1 ++ (Token k, t') :: l2)%list ->
  exists d, l1 = (f1 ++ d)%list.
Proof.
revert l1. induction f1 as [|a f1 IH]; intros l1 Hn E; [now exists l1|].
cbn [forallb] in Hn. apply andb_true_iff in Hn as [Ha Hn].
destruct l1 as [|b l1]; cbn [app] in E.
- injection E as -> _. cbn [fst is_token] in Ha. now destruct k.
- injection E as -> E. destruct (IH l1 Hn E) as [d ->]. now exists d.
Qed.

Lemma absent_token (k : token) (t0 : string) (items : list (piece * string)) :
  unmarked t0 = true -> forallb item_ok items = true ->
  forallb (fun it => negb (is_token k (fst it))) items = true ->
  ~ occurs (token_text k) (render t0 items).
Proof.
intros Ht0 Hok Hn (pre & post & E).
destruct (@token_in_render k t0 pre post items Ht0 Hok E)
  as (l1 & t & l2 & -> & _).
rewrite forallb_app in Hn. apply andb_true_iff in Hn as [_ Hn].
cbn [forallb fst is_token] in Hn. now destruct k.
Qed.

(** In a layout of unmarked texts and sealed data, [replace] of a token by
    data without pattern fills the first place of the token. *)
Lemma replace_fills (k : token) (r t0 : string)
      (items : list (piece * string)) :
  unmarked t0 = true -> forallb item_ok items = true -> patterned r = false ->
  Replace.replace (render t0 items) (token_text k) r
  = render t0 (fill k r items).
Proof.
intros Ht0 Hok Hr.
destruct (fill_first k r items) as [[Hn ->]|(f1 & t & f2 & Hi & Hn & ->)].
- apply replace_absent. now apply absent_token.
- assert (Es : render t0 items
               = render t0 f1 ++ token_text k ++ render t f2)
    by (rewrite Hi; apply render_split).
  rewrite render_split. cbn [piece_text].
  apply replace_unpatterned; [exact Hr|]. split; [exact Es|].
  intros pre' post' E.
  destruct (@token_in_render k t0 pre' post' items Ht0 Hok E)
    as (l1 & t' & l2 & Hi' & ->).
  rewrite Hi in Hi'.
  destruct (@before_first k t t' f1 l1 f2 l2 Hn Hi') as [d ->].
  unfold render. rewrite body_app, !length_append. lia.
Qed.

Lemma fill_ok (k : token) (r : string) (items : list (piece * string)) :
  sealed r = true -> forallb item_ok items = true ->
  forallb item_ok (fill k r items) = true.
Proof.
intros Hr. induction items as [|[x t] items IH]; [reflexivity|].
cbn [fill forallb]. intros H. apply andb_true_iff in H as [Hit Hok].
destruct (is_token k x); cbn [forallb].
- unfold item_ok in *. cbn [fst snd piece_ok] in *.
  apply andb_true_iff in Hit as [_ Ht]. now rewrite Hr, Ht, Hok.
- now rewrite Hit, IH.
Qed.

Lemma tokens_ok (layout : list (token * string)) :
  forallb (fun it => unmarked (snd it)) layout = true ->
  forallb item_ok (tokens layout) = true.
Proof.
induction layout as [|[k t] layout IH]; [reflexivity|].
cbn [forallb tokens map]. intros H. apply andb_true_iff in H as [Ht H].
unfold item_ok at 1. cbn [fst snd piece_ok] in *. rewrite Ht.
now apply IH.
Qed.

End Layout.

Import Layout.

(** X16.  The injection on a template laid out as texts and tokens, the
    tokens in any order and any number.  If no text of the template holds
    the three characters [*__] that follow the first character of every
    token, if the serialized posts, unlinked comments and about text hold
    neither these three characters nor a pattern of [replace] (a dollar
    sign followed by a dollar sign, an ampersand, a backquote or a quote),
    the latter two being no bare numbers, and if the contact email holds
    no such pattern, then the page is the template in which the first
    token of each kind has given way to its data, inserted as they are:
    the posts, the unlinked comments and the about text as JSON, the email
    as its bare text; every other character of the template, a second
    token of a kind included, is kept. *)
Theorem injection_fills_the_first_token_of_each_kind
        (t0 : string) (layout : list (token * string)) (posts : list JSON)
        (unlinked about site : JSON) (email : string) :
  let posts_text := Stringify.JSON_stringify (JArray posts) in
  let unlinked_text := Stringify.JSON_stringify unlinked in
  let about_text := Stringify.JSON_stringify about in
  unmarked t0 = true ->
  forallb (fun it => unmarked (snd it)) layout = true ->
  plain_data posts_text = true ->
  plain_data unlinked_text = true -> bare_number unlinked = false ->
  plain_data about_text = true -> bare_number about = false ->
  patterned email = false ->
  contact_email site = OK email ->
  inject (render t0 (tokens layout)) posts unlinked about site
  = OK (render t0
          (fill TEmail email
             (fill TAbout about_text
                (fill TUnlinked unlinked_text
                   (fill TPosts posts_text (tokens layout)))))).
Proof.
intros J1 J2 J3 Ht0 Hl H1 H2 N2 H3 N3 He Hs.
destruct (@plain_data_sealed (JArray posts) eq_refl H1) as [S1 D1].
destruct (@plain_data_sealed unlinked N2 H2) as [S2 D2].
destruct (@plain_data_sealed about N3 H3) as [S3 D3].
fold J1 in S1, D1. fold J2 in S2, D2. fold J3 in S3, D3.
pose proof (@tokens_ok layout Hl) as K0.
pose proof (@fill_ok TPosts J1 _ S1 K0) as K1.
pose proof (@fill_ok TUnlinked J2 _ S2 K1) as K2.
pose proof (@fill_ok TAbout J3 _ S3 K2) as K3.
pose proof (@replace_fills TPosts J1 t0 _ Ht0 K0 D1) as R1.
pose proof (@replace_fills TUnlinked J2 t0 _ Ht0 K1 D2) as R2.
pose proof (@replace_fills TAbout J3 t0 _ Ht0 K2 D3) as R3.
pose proof (@replace_fills TEmail email t0 _ Ht0 K3 He) as R4.
cbn [token_text] in R1, R2, R3, R4. subst J1 J2 J3.
unfold inject. rewrite Hs. cbn [rbind]. f_equal.
rewrite R1, R2, R3. exact R4.
Qed.

Lemma injection_fills_the_first_token_of_each_kind_witness :
  let site := JObject [("contact_email", JString "mo@example.org")] in
  let post := JObject [("title", JString "A $5 dinner")] in
  let about := JObject [("en", JString "hi"); ("es", JNull)] in
  inject
    "<script>const POSTS = /*__POSTS_JSON__*/; /* about */ const ABOUT = /*__ABOUT_JSON__*/;</script><a href='mailto:/*__CONTACT_EMAIL__*/'>/*__CONTACT_EMAIL__*/</a>"
    [post] (JArray []) about site
  = OK ("<script>const POSTS = "
          ++ Stringify.JSON_stringify (JArray [post])
          ++ "; /* about */ const ABOUT = "
          ++ Stringify.JSON_stringify about
          ++ ";</script><a href='mailto:mo@example.org'>/*__CONTACT_EMAIL__*/</a>").
Proof.
intros site post about.
exact (@injection_fills_the_first_token_of_each_kind
         "<script>const POSTS = "
         [(TPosts, "; /* about */ const ABOUT = ");
          (TAbout, ";</script><a href='mailto:");
          (TEmail, "'>"); (TEmail, "</a>")]
         [post] (JArray []) about site
         "mo@example.org" eq_refl eq_refl eq_refl eq_refl eq_refl eq_refl
         eq_refl eq_refl eq_refl).
Defined.

(* ================================================================= *)
(** ** Post files that do not load *)

Module Skipped.
Section Warnings.

Context {host : Host}.

Definition is_warning (l : level * string) : bool :=
  match fst l with
  | Warn => true
  | _ => false
  end.

Lemma warnings_are_warnings (root : node) (names : list string) :
  filter is_warning (warnings root names) = warnings root names.
Proof.
unfold warnings. induction names as [|f names IH]; [reflexivity|].
cbn [flat_map]. rewrite filter_app, IH.
now destruct (load root f).
Qed.

Lemma no_warning_among_artifacts (es : list (string * node)) :
  filter is_warning (assets_line es ++ cname_line es)%list = [].
Proof.
unfold assets_line, cname_line.
now destruct (lookup ["assets"] (Dir es)), (lookup ["CNAME"] (Dir es)).
Qed.

Lemma each_file_loads_or_warns (root : node) (names : list string) :
  List.length (loaded root names) + List.length (warnings root names)
  = List.length names.
Proof.
unfold loaded, warnings. induction names as [|f names IH]; [reflexivity|].
cbn [flat_map]. rewrite !length_app. cbn [List.length].
destruct (load root f); cbn [List.length]; lia.
Qed.

End Warnings.
End Skipped.

(** X17.  Post files that cannot be read or parsed do not fail the build.
    Where the template is there, the posts that do load have string or
    absent dates, the site document gives a contact email, and the assets
    and the domain file can be copied, the build completes with status 0,
    however many post files are bad: its warnings are those of the bad
    files, one each, in the order of the listing, printed before the
    count, which is that of the posts that loaded; the page it writes is
    the injection of these posts, sorted. *)
Theorem bad_post_files_do_not_fail_the_build {host : Host}
        (start finish : Z) (es entries : list (string * node))
        (html email : string) :
  lookup TEMPLATE (Dir es) = Some (File html) ->
  lookup POSTS_DIR (Dir es) = Some (Dir entries) ->
  let names := json_names entries in
  let posts := loaded (Dir es) names in
  Forall Posts.dated posts ->
  contact_email (stored (content_file "site.json") (JObject []) (Dir es))
  = OK email ->
  assets_fine es -> cname_fine es ->
  let r := run start finish (Dir es) in
  result_of r = Normal tt /\
  exit_status (result_of r) = 0%Z /\
  printed r
  = ([started] ++ warnings (Dir es) names
       ++ [(Log, found_line (List.length posts)); page_line]
       ++ assets_line es ++ cname_line es
       ++ [(Log, complete_line (finish - start))])%list /\
  filter Skipped.is_warning (printed r) = warnings (Dir es) names /\
  List.length posts + List.length (warnings (Dir es) names)
  = List.length names /\
  exists sorted text,
    ArraySort.sort by_date posts = OK sorted /\
    Permutation posts sorted /\
    inject html sorted
      (stored (content_file "unlinked-comments.json") (JArray []) (Dir es))
      (stored (content_file "about.json")
         (JObject [("en", JString ""); ("es", JString "")]) (Dir es))
      (stored (content_file "site.json") (JObject []) (Dir es))
    = OK text /\
    lookup (path_join DIST_DIR "index.html") (fs_after r) = Some (File text).
Proof.
intros Ht Hp names posts Hd He Ha Hc r.
destruct (@SortFacts.sort_keyed host JSON Posts.date_of Posts.dated
            by_date Posts.by_date_dated posts Hd) as (sorted & E & P & _).
assert (R : readPosts (Dir es)
            = Outcome (Dir es) (warnings (Dir es) names) (Normal sorted)).
{ rewrite (readPosts_directory (Dir es) Hp). fold names. fold posts.
  now rewrite E. }
destruct (inject html sorted
            (stored (content_file "unlinked-comments.json") (JArray [])
               (Dir es))
            (stored (content_file "about.json")
               (JObject [("en", JString ""); ("es", JString "")]) (Dir es))
            (stored (content_file "site.json") (JObject []) (Dir es)))
  as [text|e] eqn:I.
2:{ unfold inject in I. rewrite He in I. discriminate. }
subst r.
rewrite (@build_completes host start finish es html text sorted
           (warnings (Dir es) names) Ht R I Ha Hc).
cbn [result_of exit_status fs_after printed].
split; [reflexivity|]. split; [reflexivity|]. split; [|split; [|split]].
- now rewrite (Permutation_length P).
- cbn [app filter Skipped.is_warning fst].
  rewrite filter_app, Skipped.warnings_are_warnings.
  cbn [app filter Skipped.is_warning fst].
  rewrite app_assoc, filter_app, Skipped.no_warning_among_artifacts.
  cbn [app filter Skipped.is_warning fst]. now rewrite app_nil_r.
- apply Skipped.each_file_loads_or_warns.
- exists sorted, text. split; [exact E|]. split; [exact P|].
  split; [exact I|].
  unfold with_dist, DIST_DIR, ROOT, path_join. cbn [app lookup].
  rewrite assoc_recreated. reflexivity.
Qed.

Lemma bad_post_files_do_not_fail_the_build_witness :
  let es :=
    [("templates", Dir [("index.html", File template_text)]);
     ("content", Dir [("posts", Dir five_posts)]);
     ("CNAME", File "gxwechsler.com")] in
  let r := run (host := example_host) 0 5 (Dir es) in
  result_of r = Normal tt /\
  filter Skipped.is_warning (printed r)
  = [(Warn, "  ⚠  c.json: Unexpected token in JSON")] /\
  In (Log, found_line 4) (printed r).
Proof.
intros es r.
assert (Hd : Forall Posts.dated
               (loaded (host := example_host) (Dir es) (json_names five_posts)))
  by (repeat constructor; discriminate).
destruct (@bad_post_files_do_not_fail_the_build example_host 0 5 es
            five_posts template_text EmptyString eq_refl eq_refl Hd eq_refl
            I eq_refl)
  as (Hr & _ & Hp & Hw & _).
split; [exact Hr|]. split; [exact Hw|].
unfold r. rewrite Hp. vm_compute. right. right. now left.
Defined.

(* ================================================================= *)
(** ** What a build reads *)

Module Inputs.
Section Reads.
Import Copy.

Context {host : Host}.

(** The entries of the root that the script names. *)
Definition watched : list string :=
  ["templates"; "content"; "assets"; "CNAME"; "dist"].

(** Two root directories with the same watched entries. *)
Definition alike (n n' : node) : Prop :=
  match n, n' with
  | Dir es, Dir es' =>
      forall k, In k watched -> Value.assoc k es = Value.assoc k es'
  | _, _ => False
  end.

(** On alike trees [m] prints the same lines, completes the same way and
    leaves alike trees. *)
Definition respects {A} (m : M A) : Prop :=
  forall n n',
    alike n n' ->
    printed (m n) = printed (m n') /\
    result_of (m n) = result_of (m n') /\
    alike (fs_after (m n)) (fs_after (m n')).

Lemma lookup_alike (k : string) (p : path) (n n' : node) :
  In k watched -> alike n n' -> lookup (k :: p) n = lookup (k :: p) n'.
Proof.
intros Hk H. destruct n as [|es], n' as [|es']; try contradiction.
cbn [lookup]. now rewrite (H k Hk).
Qed.

Lemma alike_set_entry (k : string) (c : node) (es es' : list (string * node)) :
  alike (Dir es) (Dir es') ->
  alike (Dir (set_entry k c es)) (Dir (set_entry k c es')).
Proof.
intros H j Hj. destruct (String.eqb j k) eqn:E.
- apply String.eqb_eq in E. subst j. now rewrite !assoc_set_entry.
- apply String.eqb_neq in E. rewrite !assoc_set_entry_other by exact E.
  now apply H.
Qed.

Lemma alike_remove_entry (k : string) (es es' : list (string * node)) :
  alike (Dir es) (Dir es') ->
  alike (Dir (remove_entry k es)) (Dir (remove_entry k es')).
Proof.
intros H j Hj. destruct (String.eqb j k) eqn:E.
- apply String.eqb_eq in E. subst j. now rewrite !assoc_remove_same.
- apply String.eqb_neq in E. rewrite !assoc_remove_other by exact E.
  now apply H.
Qed.

Lemma respects_bind {A B} (m : M A) (k : A -> M B) :
  respects m -> (forall a, respects (k a)) -> respects (bind m k).
Proof.
intros Hm Hk n n' H. unfold bind.
destruct (Hm n n' H) as (Hp & Hr & Hf). rewrite <- Hr, <- Hp.
destruct (result_of (m n)) as [a|e|c]; cbn [printed result_of fs_after].
- destruct (Hk a _ _ Hf) as (Kp & Kr & Kf). now rewrite Kp, Kr.
- now repeat split.
- now repeat split.
Qed.

Lemma respects_try {A} (m : M A) (h : exn -> M A) :
  respects m -> (forall e, respects (h e)) -> respects (try_catch m h).
Proof.
intros Hm Hh n n' H. unfold try_catch.
destruct (Hm n n' H) as (Hp & Hr & Hf).
destruct (result_of (m n)) as [a|e|c] eqn:E; rewrite <- Hr.
- rewrite E. now repeat split.
- cbn [printed result_of fs_after].
  destruct (Hh e _ _ Hf) as (Kp & Kr & Kf). now rewrite Hp, Kp, Kr.
- rewrite E. now repeat split.
Qed.

Lemma respects_for {A S} (xs : list A) (body : S -> A -> M S) :
  (forall s x, respects (body s x)) -> forall s, respects (for_of xs body s).
Proof.
intros Hb. induction xs as [|x xs IH]; intros s; cbn [for_of].
- intros n n' H. now repeat split.
- apply respects_bind; auto.
Qed.

Lemma respects_ret {A} (a : A) : respects (ret a).
Proof. intros n n' H. now repeat split. Qed.

Lemma respects_lift {A} (r : result A) : respects (lift r).
Proof. intros n n' H. destruct r; now repeat split. Qed.

Lemma respects_write (l : level) (line : string) :
  respects (console_write l line).
Proof. intros n n' H. now repeat split. Qed.

Lemma respects_exit {A} (c : Z) : respects (@process_exit A c).
Proof. intros n n' H. now repeat split. Qed.

Lemma respects_if {A} (b : bool) (m m' : M A) :
  respects m -> respects m' -> respects (if b then m else m').
Proof. now destruct b. Qed.

Lemma respects_exists (k : string) (p : path) :
  In k watched -> respects (existsSync (k :: p)).
Proof.
intros Hk n n' H. unfold existsSync. cbn [printed result_of fs_after].
now rewrite (@lookup_alike k p n n' Hk H).
Qed.

Lemma respects_readFile (k : string) (p : path) :
  In k watched -> respects (readFileSync (k :: p)).
Proof.
intros Hk n n' H. unfold readFileSync, readFile.
rewrite (@lookup_alike k p n n' Hk H).
destruct (lookup (k :: p) n') as [[data|es]|]; now repeat split.
Qed.

Lemma respects_readdir (k : string) (p : path) :
  In k watched -> respects (readdirSync (k :: p)).
Proof.
intros Hk n n' H. unfold readdirSync, readdir.
rewrite (@lookup_alike k p n n' Hk H).
destruct (lookup (k :: p) n') as [[data|es]|]; now repeat split.
Qed.

Lemma respects_rm (k : string) : In k watched -> respects (rmSync [k]).
Proof.
intros Hk n n' H. unfold rmSync. cbn [printed result_of fs_after].
split; [reflexivity|]. split; [reflexivity|].
destruct n as [|es], n' as [|es']; try contradiction.
cbn [rm]. now apply alike_remove_entry.
Qed.

Lemma respects_mkdir (k : string) (p : path) :
  In k watched -> respects (mkdirSync (k :: p)).
Proof.
intros Hk n n' H. unfold mkdirSync, fs_update.
destruct n as [|es], n' as [|es']; try contradiction.
cbn [mkdirp]. rewrite (H k Hk).
destruct (mkdirp p match Value.assoc k es' with
                   | Some c => c
                   | None => Dir []
                   end) as [c'|e]; cbn [rbind printed result_of fs_after].
- split; [reflexivity|]. split; [reflexivity|]. now apply alike_set_entry.
- now repeat split.
Qed.

Lemma respects_writeFile (k : string) (p : path) (data : string) :
  In k watched -> respects (writeFileSync (k :: p) data).
Proof.
intros Hk n n' H. unfold writeFileSync, fs_update.
destruct n as [|es], n' as [|es']; try contradiction.
destruct p as [|q p].
- cbn [writeFile]. rewrite (H k Hk).
  destruct (Value.assoc k es') as [[d|ces]|];
    cbn [printed result_of fs_after];
    (split; [reflexivity|]); (split; [reflexivity|]);
    try exact H; now apply alike_set_entry.
- change (writeFile (k :: q :: p) data (Dir es))
    with (match Value.assoc k es with
          | Some c =>
              rbind (writeFile (q :: p) data c)
                (fun c' => OK (Dir (set_entry k c' es)))
          | None => Throw (ENOENT "open")
          end).
  change (writeFile (k :: q :: p) data (Dir es'))
    with (match Value.assoc k es' with
          | Some c =>
              rbind (writeFile (q :: p) data c)
                (fun c' => OK (Dir (set_entry k c' es')))
          | None => Throw (ENOENT "open")
          end).
  rewrite (H k Hk).
  destruct (Value.assoc k es') as [c|]; [|now repeat split].
  destruct (writeFile (q :: p) data c) as [c'|e];
    cbn [rbind printed result_of fs_after].
  + split; [reflexivity|]. split; [reflexivity|]. now apply alike_set_entry.
  + now repeat split.
Qed.

Lemma respects_copyFile (k d : string) (sp p : path) :
  In k watched -> In d watched ->
  respects (copyFileSync (k :: sp) (d :: p)).
Proof.
intros Hk Hd. apply respects_bind; [now apply respects_readFile|].
intros data. now apply respects_writeFile.
Qed.

Lemma respects_ensureDir (k : string) (p : path) :
  In k watched -> respects (ensureDir (k :: p)).
Proof.
intros Hk. apply respects_bind; [now apply respects_exists|]. intros e.
apply respects_if; [now apply respects_mkdir | apply respects_ret].
Qed.

Lemma respects_cleanDir (k : string) :
  In k watched -> respects (cleanDir [k]).
Proof.
intros Hk. apply respects_bind; [now apply respects_exists|]. intros e.
apply respects_bind; [|intros _; now apply respects_mkdir].
apply respects_if; [now apply respects_rm | apply respects_ret].
Qed.

Lemma respects_copyTree (k d : string) (n : node) :
  In k watched -> In d watched ->
  forall sp p, respects (copyTree n (k :: sp) (d :: p)).
Proof.
intros Hk Hd.
induction n as [data|es IH] using node_nested_ind; intros sp p;
  cbn [copyTree];
  (apply respects_bind; [now apply respects_ensureDir|]); intros _.
- apply respects_lift.
- induction IH as [|[name child] es Hc _ IHes]; [apply respects_ret|].
  apply respects_bind; [|intros _; exact IHes].
  cbn [snd] in Hc. apply respects_if.
  + apply (Hc (sp ++ [name])%list (p ++ [name])%list).
  + apply (@respects_copyFile k d (sp ++ [name])%list (p ++ [name])%list Hk Hd).
Qed.

Lemma respects_copyDirSync (k d : string) (sp p : path) :
  In k watched -> In d watched ->
  respects (copyDirSync (k :: sp) (d :: p)).
Proof.
intros Hk Hd n n' H. unfold copyDirSync.
rewrite (@lookup_alike k sp n n' Hk H).
destruct (lookup (k :: sp) n') as [c|].
- now apply respects_copyTree.
- now apply respects_ret.
Qed.

Lemma content_watched : In "content" watched.
Proof. right. now left. Qed.

Lemma dist_watched : In "dist" watched.
Proof. do 4 right. now left. Qed.

Lemma respects_readJSON (name : string) (fallback : JSON) :
  respects (readJSON (content_file name) fallback).
Proof.
unfold readJSON, content_file, path_join, ROOT. cbn [app].
apply respects_bind; [apply respects_exists, content_watched|]. intros e.
apply respects_if; [apply respects_ret|].
apply respects_try; [|intros _; apply respects_ret].
apply respects_bind; [apply respects_readFile, content_watched|].
intros text. apply respects_lift.
Qed.

Lemma respects_readPosts : respects readPosts.
Proof.
unfold readPosts, POSTS_DIR, path_join, ROOT. cbn [app].
apply respects_bind; [apply respects_exists, content_watched|]. intros e.
apply respects_if; [apply respects_ret|].
apply respects_bind; [apply respects_readdir, content_watched|].
intros entries.
apply respects_bind; [|intros; apply respects_lift].
apply respects_for. intros posts f. apply respects_try.
- apply respects_bind; [apply respects_readFile, content_watched|].
  intros text.
  apply respects_bind; [apply respects_lift|]. intros post.
  apply respects_ret.
- intros e'. apply respects_bind; [apply respects_write|].
  intros _. apply respects_ret.
Qed.

Lemma respects_injectData (html : string) : respects (injectData html).
Proof.
unfold injectData.
apply respects_bind; [apply respects_readPosts|]. intros posts.
apply respects_bind; [apply respects_readJSON|]. intros unlinked.
apply respects_bind; [apply respects_readJSON|]. intros about.
apply respects_bind; [apply respects_readJSON|]. intros site.
apply respects_bind; [apply respects_write|]. intros _.
apply respects_lift.
Qed.

Lemma respects_build (start finish : Z) : respects (build start finish).
Proof.
unfold build, TEMPLATE, DIST_DIR, path_join, ROOT. cbn [app].
assert (Ht : In "templates" watched) by now left.
assert (Ha : In "assets" watched) by (do 2 right; now left).
assert (Hc : In "CNAME" watched) by (do 3 right; now left).
pose proof dist_watched as Hd.
apply respects_bind; [apply respects_write|]. intros _.
apply respects_bind; [now apply respects_cleanDir|]. intros _.
apply respects_bind; [now apply respects_exists|]. intros e.
apply respects_bind.
{ apply respects_if; [|apply respects_ret].
  apply respects_bind; [apply respects_write|]. intros _.
  apply respects_exit. }
intros _. apply respects_bind; [now apply respects_readFile|]. intros html.
apply respects_bind; [apply respects_injectData|]. intros html'.
apply respects_bind; [now apply respects_writeFile|]. intros _.
apply respects_bind; [apply respects_write|]. intros _.
apply respects_bind; [now apply respects_exists|]. intros e'.
apply respects_bind.
{ apply respects_if; [|apply respects_ret].
  apply respects_bind; [now apply respects_copyDirSync|]. intros _.
  apply respects_write. }
intros _. apply respects_bind; [now apply respects_exists|]. intros e''.
apply respects_bind.
{ apply respects_if; [|apply respects_ret].
  apply respects_bind; [now apply respects_copyFile|]. intros _.
  apply respects_write. }
intros _. apply respects_write.
Qed.

(** Trees with the same inputs are alike once their [dist] is set aside. *)
Lemma alike_beside_dist (es es' : list (string * node)) :
  (forall k, In k ["templates"; "content"; "assets"; "CNAME"] ->
             Value.assoc k es = Value.assoc k es') ->
  alike (Dir (remove_entry "dist" es)) (Dir (remove_entry "dist" es')).
Proof.
intros H k Hk. destruct (String.eqb k "dist") eqn:E.
- apply String.eqb_eq in E. subst k. now rewrite !assoc_remove_same.
- apply String.eqb_neq in E. rewrite !assoc_remove_other by exact E.
  apply H. unfold watched in Hk. cbn [In] in *.
  destruct Hk as [<-|[<-|[<-|[<-|[<-|[]]]]]]; auto. congruence.
Qed.

End Reads.
End Inputs.

(** X18.  A build reads four entries of the root: [templates], [content],
    [assets] and [CNAME].  Two trees that hold the same four give the same
    lines, the same completion and the same [dist], whatever else they
    hold: other files and directories of the root, an earlier [dist]
    included, have no part in the output. *)
Theorem build_reads_only_its_inputs {host : Host} (start finish : Z)
        (es es' : list (string * node)) :
  (forall k, In k ["templates"; "content"; "assets"; "CNAME"] ->
             Value.assoc k es = Value.assoc k es') ->
  let r := run start finish (Dir es) in
  let r' := run start finish (Dir es') in
  printed r = printed r' /\
  result_of r = result_of r' /\
  lookup DIST_DIR (fs_after r) = lookup DIST_DIR (fs_after r').
Proof.
intros H r r'. subst r r'. unfold run.
rewrite (@build_beside host start finish (Dir es)
           (Dir (remove_entry "dist" es)))
  by (cbn [beside]; now rewrite remove_remove).
rewrite (@build_beside host start finish (Dir es')
           (Dir (remove_entry "dist" es')))
  by (cbn [beside]; now rewrite remove_remove).
destruct (@Inputs.respects_build host start finish _ _
            (@Inputs.alike_beside_dist es es' H)) as (Hp & Hr & Hf).
split; [exact Hp|]. split; [exact Hr|].
unfold DIST_DIR, ROOT. cbn [app].
exact (@Inputs.lookup_alike "dist" [] _ _ Inputs.dist_watched Hf).
Qed.

Lemma build_reads_only_its_inputs_witness :
  let more :=
    (("README.md", File "notes") :: site_without_posts
       ++ [("node_modules", Dir [("x.js", File "x")]);
           ("dist", Dir [("stale.html", File "<p>old</p>")])])%list in
  printed (run (host := example_host) 0 5 (Dir more))
  = printed (run (host := example_host) 0 5 (Dir site_without_posts)) /\
  lookup DIST_DIR (fs_after (run (host := example_host) 0 5 (Dir more)))
  = lookup DIST_DIR
      (fs_after (run (host := example_host) 0 5 (Dir site_without_posts))).
Proof.
intros more.
assert (H : forall k, In k ["templates"; "content"; "assets"; "CNAME"] ->
                      Value.assoc k more = Value.assoc k site_without_posts).
{ intros k [<-|[<-|[<-|[<-|[]]]]]; reflexivity. }
destruct (@build_reads_only_its_inputs example_host 0 5 more
            site_without_posts H) as (Hp & _ & Hd).
split; [exact Hp | exact Hd].
Defined.

(* ================================================================= *)
(** * The page, token by token *)

(** ** Data that keep apart from a token *)

Module Beside.
Import Str StrFacts Verbatim Layout.

(** [w] is not empty and its first character is no character of [t]. *)
Definition head_apart (t w : string) : bool :=
  match w with
  | EmptyString => false
  | String c _ => negb (mem c t)
  end.

(** [w] is not empty and its last character is no character of [t]. *)
Definition last_apart (t w : string) : bool :=
  match last_char w with
  | None => false
  | Some c => negb (mem c t)
  end.

(** Neither end of [w] can be part of an occurrence of [t]. *)
Definition apart_from (t w : string) : bool :=
  head_apart t w && last_apart t w.

Lemma last_char_split (k : string) (c : ascii) :
  last_char k = Some c -> exists a, k = a ++ String c EmptyString.
Proof.
induction k as [|x k IH]; [discriminate|].
destruct k as [|y k'].
- cbn. intros H. injection H as <-. now exists EmptyString.
- intros H. change (last_char (String y k') = Some c) in H.
  destruct (IH H) as [a ->]. now exists (String x a).
Qed.

Lemma last_apart_append (t m k : string) :
  last_apart t k = true -> last_apart t (m ++ k) = true.
Proof.
intros H. unfold last_apart in *. rewrite last_char_append; [exact H|].
now destruct k.
Qed.

(** Where [w] does not hold [t] and keeps apart from it at both ends, an
    occurrence of [t] in a text around [w] lies wholly before [w] or
    wholly behind it. *)
Lemma occurrence_beside (w t a b pre post : string) :
  ~ occurs t w -> apart_from t w = true ->
  a ++ w ++ b = pre ++ t ++ post ->
  (exists m, a = pre ++ t ++ m /\ post = m ++ w ++ b) \/
  (exists m, b = m ++ t ++ post /\ pre = a ++ w ++ m).
Proof.
intros Hn Hap E. unfold apart_from in Hap.
apply andb_true_iff in Hap as [Hh Hl].
destruct (le_lt_dec (String.length a) (String.length pre)) as [L|L].
- destruct (append_cut _ _ _ _ E L) as (m & -> & E1).
  destruct (le_lt_dec (String.length w) (String.length m)) as [L1|L1].
  + destruct (append_cut _ _ _ _ E1 L1) as (m' & -> & ->).
    right. now exists m'.
  + exfalso. symmetry in E1.
    destruct (append_cut _ _ _ _ E1 (Nat.lt_le_incl _ _ L1))
      as (k2 & Ew & E2).
    destruct (le_lt_dec (String.length t) (String.length k2)) as [L2|L2].
    * destruct (append_cut _ _ _ _ E2 L2) as (k3 & -> & _).
      apply Hn. exists m, k3. exact Ew.
    * symmetry in E2.
      destruct (append_cut _ _ _ _ E2 (Nat.lt_le_incl _ _ L2))
        as (t2 & Et & _).
      unfold last_apart in Hl. rewrite Ew in Hl.
      assert (Hk : k2 <> EmptyString).
      { intros ->. rewrite append_nil_r in Ew. subst m. lia. }
      rewrite last_char_append in Hl by exact Hk.
      destruct (last_char k2) as [c|] eqn:Ec; [|discriminate].
      destruct (last_char_split _ Ec) as [k1 ->].
      rewrite Et, append_assoc in Hl. cbn [append] in Hl.
      now rewrite mem_middle in Hl.
- symmetry in E.
  destruct (append_cut _ _ _ _ E (Nat.lt_le_incl _ _ L)) as (m & Ea & E1).
  destruct (le_lt_dec (String.length t) (String.length m)) as [L1|L1].
  + destruct (append_cut _ _ _ _ E1 L1) as (m' & -> & ->).
    left. now exists m'.
  + exfalso. symmetry in E1.
    destruct (append_cut _ _ _ _ E1 (Nat.lt_le_incl _ _ L1))
      as (t2 & Et & E2).
    assert (Lm : 0 < String.length m).
    { rewrite Ea, length_append in L. lia. }
    destruct w as [|c w']; [discriminate|].
    destruct t2 as [|c2 t2'].
    * rewrite append_nil_r in Et. subst m. lia.
    * cbn [append] in E2. injection E2 as <- _.
      cbn [head_apart] in Hh. rewrite Et in Hh.
      now rewrite mem_middle in Hh.
Qed.

(** Replacing [t] around such a [w] leaves [w] where it is, and changes
    one side of it at most. *)
Lemma replace_around (w t r a b : string) :
  ~ occurs t w -> apart_from t w = true ->
  exists a' b',
    Replace.replace (a ++ w ++ b) t r = a' ++ w ++ b' /\
    (~ occurs t a -> a' = a) /\ (~ occurs t b -> b' = b).
Proof.
intros Hn Hap.
destruct (indexOf (a ++ w ++ b) t) as [n|] eqn:I.
- destruct (indexOf_Some _ _ I) as (pre & post & F & _).
  rewrite (replace_first r F). destruct F as [E _].
  set (x := Replace.GetSubstitution t pre post r). clearbody x.
  destruct (@occurrence_beside w t a b pre post Hn Hap E)
    as [(m & -> & ->)|(m & -> & ->)].
  + exists (pre ++ x ++ m), b. rewrite !append_assoc.
    split; [reflexivity|]. split; [|reflexivity].
    intros H. exfalso. apply H. now exists pre, m.
  + exists a, (m ++ x ++ post). rewrite !append_assoc.
    split; [reflexivity|]. split; [reflexivity|].
    intros H. exfalso. apply H. now exists m, post.
- rewrite replace_absent by exact (indexOf_None I).
  exists a, b. now repeat split.
Qed.

Lemma replace_keeps (w t r s : string) :
  ~ occurs t w -> apart_from t w = true ->
  occurs w s -> occurs w (Replace.replace s t r).
Proof.
intros Hn Hap (a & b & ->).
destruct (@replace_around w t r a b Hn Hap) as (a' & b' & -> & _).
now exists a', b'.
Qed.

(** Data without pattern that keep apart from [t] and do not hold it
    bring no occurrence of [t] into a text. *)
Lemma still_absent (t t' r s : string) :
  ~ occurs t r -> apart_from t r = true -> patterned r = false ->
  ~ occurs t s -> ~ occurs t (Replace.replace s t' r).
Proof.
intros Hn Hap Hr Hs.
destruct (indexOf s t') as [n|] eqn:I.
- destruct (indexOf_Some _ _ I) as (pre & post & F & _).
  rewrite (@replace_unpatterned s t' r pre post Hr F). destruct F as [-> _].
  intros (p & q & E).
  destruct (@occurrence_beside r t pre post p q Hn Hap E)
    as [(m & -> & _)|(m & -> & _)]; apply Hs.
  + exists p, (m ++ t' ++ post). now rewrite !append_assoc.
  + exists (pre ++ t' ++ m), q. now rewrite !append_assoc.
- now rewrite replace_absent by exact (indexOf_None I).
Qed.

(** The text of a JSON value that is not a bare number keeps apart from
    every token: it begins with a bracket, a brace, a double quote or a
    small letter, and ends with one. *)
Lemma stringify_apart (k : token) (v : JSON) :
  bare_number v = false ->
  apart_from (token_text k) (Stringify.JSON_stringify v) = true.
Proof.
unfold Stringify.JSON_stringify, apart_from.
destruct v as [|b|repr|s|l|ms]; intros H; try discriminate.
- now destruct k.
- now destruct k, b.
- cbn [Stringify.SerializeJSONProperty]. unfold Stringify.QuoteJSONString.
  apply andb_true_iff. split; [now destruct k|].
  do 2 apply last_apart_append. now destruct k.
- destruct l as [|x l]; [now destruct k|].
  cbn [Stringify.SerializeJSONProperty]. unfold Stringify.wrap.
  apply andb_true_iff. split; [now destruct k|].
  do 6 apply last_apart_append. now destruct k.
- destruct ms as [|x ms]; [now destruct k|].
  cbn [Stringify.SerializeJSONProperty]. unfold Stringify.wrap.
  apply andb_true_iff. split; [now destruct k|].
  do 6 apply last_apart_append. now destruct k.
Qed.

(** A text without the marker holds no token. *)
Lemma unmarked_tokenless (k : token) (s : string) :
  unmarked s = true -> ~ occurs (token_text k) s.
Proof.
intros H (pre & post & E). apply (unmarked_spec H).
destruct (token_shape k) as [tail Hk]. rewrite Hk in E.
exists (pre ++ "/"), (tail ++ post).
rewrite E, (append_assoc pre "/"). cbn [append]. now rewrite append_assoc.
Qed.


(** Where [indexOf] finds [t], the first occurrence of [t] starts. *)
Lemma first_occurrence_at (t s pre post : string) :
  indexOf s t = Some (String.length pre) -> s = pre ++ t ++ post ->
  first_occurrence t s pre post.
Proof.
intros I E. destruct (indexOf_Some _ _ I) as (pre0 & post0 & F & L).
destruct F as [E0 Min]. split; [exact E|].
intros pre' post' E'. rewrite <- L. now apply Min with post'.
Qed.

Lemma replace_replaced_once (text token replacement : string) :
  replaced_once token replacement text (Replace.replace text token replacement).
Proof.
destruct (indexOf text token) as [n|] eqn:E.
- right. destruct (indexOf_Some _ _ E) as (pre & post & F & _).
  exists pre, post. split; [exact F|]. now apply replace_first.
- left. pose proof (indexOf_None E) as H.
  split; [exact H|]. now apply replace_absent.
Qed.


(** Where the template holds the posts token and the serialized posts
    hold neither the marker nor a pattern of [replace], the page holds
    the serialized posts as they were printed. *)
Lemma posts_text_in_page (html out : string) (posts : list JSON)
      (unlinked about site : JSON) :
  Str.occurs POSTS_TOKEN html ->
  plain_data (Stringify.JSON_stringify (JArray posts)) = true ->
  inject html posts unlinked about site = OK out ->
  Str.occurs (Stringify.JSON_stringify (JArray posts)) out.
Proof.
intros Ht Hd Hi. unfold inject in Hi.
destruct (contact_email site) as [email|e]; [|discriminate].
cbn [rbind] in Hi. injection Hi as <-.
set (J := Stringify.JSON_stringify (JArray posts)) in *.
unfold plain_data in Hd. apply andb_true_iff in Hd as [Hm Hp].
apply negb_true_iff in Hp.
pose proof (fun k => @stringify_apart k (JArray posts) eq_refl) as Ha.
fold J in Ha.
apply (@replace_keeps J EMAIL_TOKEN);
  [exact (@unmarked_tokenless TEmail J Hm) | exact (Ha TEmail) |].
apply (@replace_keeps J ABOUT_TOKEN);
  [exact (@unmarked_tokenless TAbout J Hm) | exact (Ha TAbout) |].
apply (@replace_keeps J UNLINKED_TOKEN);
  [exact (@unmarked_tokenless TUnlinked J Hm) | exact (Ha TUnlinked) |].
destruct (StrFacts.occurs_first Ht) as (pre & post & F).
rewrite (@replace_unpatterned html POSTS_TOKEN J pre post Hp F).
now exists pre, post.
Qed.

End Beside.

Import Beside.

(* ================================================================= *)
(** ** The four steps of the injection *)

(** Only the first of two email tokens is replaced. *)
Example second_token_is_kept :
  inject "<a>/*__CONTACT_EMAIL__*/</a><b>/*__CONTACT_EMAIL__*/</b>" []
    (JArray []) (JObject [])
    (JObject [("contact_email", JString "mo@example.org")])
  = OK "<a>mo@example.org</a><b>/*__CONTACT_EMAIL__*/</b>".
Proof. reflexivity. Qed.

(** C3 (as amended).  The injection is four steps, for the posts, the
    unlinked comments, the about text and the email, in this order; each
    step works on the text that the steps before it left and replaces at
    most one occurrence of its token, the first one in that text, and
    does nothing when that text does not hold the token.  Whatever the
    template, the injection throws exactly when the contact email of the
    site document cannot be read or made a string, and then with that
    exception; no step throws for want of its token.

    Where the serialized posts, unlinked comments and about text hold
    neither [*__] nor a pattern of [replace], the latter two being no
    bare numbers, a token that does not occur in the template is replaced
    by no step: its step returns the text it was given.  Where moreover
    the template is laid out in texts without [*__] and tokens, the
    occurrence that a step replaces is the first one of its token in the
    template, and every later one is kept (for the step of the email,
    where the email holds no pattern of [replace] either). *)
Theorem each_token_replaced_at_most_once (html : string) (posts : list JSON)
        (unlinked about site : JSON) :
  let posts_text := Stringify.JSON_stringify (JArray posts) in
  let unlinked_text := Stringify.JSON_stringify unlinked in
  let about_text := Stringify.JSON_stringify about in
  exists html1 html2 html3,
    replaced_once POSTS_TOKEN posts_text html html1 /\
    replaced_once UNLINKED_TOKEN unlinked_text html1 html2 /\
    replaced_once ABOUT_TOKEN about_text html2 html3 /\
    (match contact_email site with
     | OK email =>
         exists out,
           replaced_once EMAIL_TOKEN email html3 out /\
           inject html posts unlinked about site = OK out
     | Throw e => inject html posts unlinked about site = Throw e
     end) /\
    (plain_data posts_text = true ->
     plain_data unlinked_text = true -> bare_number unlinked = false ->
     plain_data about_text = true -> bare_number about = false ->
     (~ Str.occurs POSTS_TOKEN html -> html1 = html) /\
     (~ Str.occurs UNLINKED_TOKEN html -> html2 = html1) /\
     (~ Str.occurs ABOUT_TOKEN html -> html3 = html2) /\
     (~ Str.occurs EMAIL_TOKEN html ->
      forall out, inject html posts unlinked about site = OK out ->
                  out = html3) /\
     forall t0 layout,
       html = render t0 (tokens layout) ->
       unmarked t0 = true ->
       forallb (fun it => unmarked (snd it)) layout = true ->
       let filled :=
         fill TAbout about_text
           (fill TUnlinked unlinked_text
              (fill TPosts posts_text (tokens layout))) in
       html3 = render t0 filled /\
       forall email out,
         contact_email site = OK email -> patterned email = false ->
         inject html posts unlinked about site = OK out ->
         out = render t0 (fill TEmail email filled)).
Proof.
intros J1 J2 J3.
exists (Replace.replace html POSTS_TOKEN J1),
  (Replace.replace (Replace.replace html POSTS_TOKEN J1) UNLINKED_TOKEN J2),
  (Replace.replace
     (Replace.replace (Replace.replace html POSTS_TOKEN J1) UNLINKED_TOKEN J2)
     ABOUT_TOKEN J3).
set (html1 := Replace.replace html POSTS_TOKEN J1).
set (html2 := Replace.replace html1 UNLINKED_TOKEN J2).
set (html3 := Replace.replace html2 ABOUT_TOKEN J3).
assert (I : inject html posts unlinked about site
            = rbind (contact_email site)
                (fun email => OK (Replace.replace html3 EMAIL_TOKEN email)))
  by reflexivity.
split; [apply replace_replaced_once|].
split; [apply replace_replaced_once|].
split; [apply replace_replaced_once|].
split.
{ rewrite I. destruct (contact_email site) as [email|e]; cbn [rbind].
  - eexists. split; [apply replace_replaced_once | reflexivity].
  - reflexivity. }
intros H1 H2 N2 H3 N3.
destruct (@plain_data_sealed (JArray posts) eq_refl H1) as [S1 D1].
destruct (@plain_data_sealed unlinked N2 H2) as [S2 D2].
destruct (@plain_data_sealed about N3 H3) as [S3 D3].
fold J1 in S1, D1. fold J2 in S2, D2. fold J3 in S3, D3.
assert (M1 : unmarked J1 = true)
  by (unfold plain_data in H1; now apply andb_true_iff in H1 as [? _]).
assert (M2 : unmarked J2 = true)
  by (unfold plain_data in H2; now apply andb_true_iff in H2 as [? _]).
assert (M3 : unmarked J3 = true)
  by (unfold plain_data in H3; now apply andb_true_iff in H3 as [? _]).
pose proof (fun k => @stringify_apart k (JArray posts) eq_refl) as A1.
pose proof (fun k => @stringify_apart k unlinked N2) as A2.
pose proof (fun k => @stringify_apart k about N3) as A3.
fold J1 in A1. fold J2 in A2. fold J3 in A3.
assert (K : forall k : token,
          ~ Str.occurs (token_text k) html ->
          ~ Str.occurs (token_text k) html1 /\
          ~ Str.occurs (token_text k) html2 /\
          ~ Str.occurs (token_text k) html3).
{ intros k Hk.
  assert (X1 : ~ Str.occurs (token_text k) html1)
    by (apply still_absent;
        [exact (@unmarked_tokenless k J1 M1) | exact (A1 k) | exact D1
        | exact Hk]).
  assert (X2 : ~ Str.occurs (token_text k) html2)
    by (apply still_absent;
        [exact (@unmarked_tokenless k J2 M2) | exact (A2 k) | exact D2
        | exact X1]).
  split; [exact X1|]. split; [exact X2|].
  apply still_absent;
    [exact (@unmarked_tokenless k J3 M3) | exact (A3 k) | exact D3
    | exact X2]. }
split; [intros H; now apply StrFacts.replace_absent|].
split.
{ intros H. apply StrFacts.replace_absent. exact (proj1 (K TUnlinked H)). }
split.
{ intros H. apply StrFacts.replace_absent.
  exact (proj1 (proj2 (K TAbout H))). }
split.
{ intros H out Ho. rewrite I in Ho.
  destruct (contact_email site) as [email|e]; [|discriminate].
  cbn [rbind] in Ho. injection Ho as <-.
  apply StrFacts.replace_absent. exact (proj2 (proj2 (K TEmail H))). }
intros t0 layout -> Ht0 Hl filled.
pose proof (@tokens_ok layout Hl) as K0.
pose proof (@fill_ok TPosts J1 _ S1 K0) as K1.
pose proof (@fill_ok TUnlinked J2 _ S2 K1) as K2.
pose proof (@fill_ok TAbout J3 _ S3 K2) as K3.
pose proof (@replace_fills TPosts J1 t0 _ Ht0 K0 D1) as R1.
pose proof (@replace_fills TUnlinked J2 t0 _ Ht0 K1 D2) as R2.
pose proof (@replace_fills TAbout J3 t0 _ Ht0 K2 D3) as R3.
cbn [token_text] in R1, R2, R3.
assert (E3 : html3 = render t0 filled).
{ unfold html3, html2, html1. rewrite R1, R2. exact R3. }
split; [exact E3|].
intros email out He Hpat Ho. rewrite I, He in Ho. cbn [rbind] in Ho.
injection Ho as <-. rewrite E3.
exact (@replace_fills TEmail email t0 _ Ht0 K3 Hpat).
Qed.

Lemma each_token_replaced_at_most_once_witness :
  let site := JObject [("contact_email", JString "mo@example.org")] in
  let about := JObject [("en", JString "hi"); ("es", JNull)] in
  let html :=
    "<i>/*__ABOUT_JSON__*/</i><a href='/*__CONTACT_EMAIL__*/'>/*__CONTACT_EMAIL__*/</a><i>/*__ABOUT_JSON__*/</i>" in
  ~ Str.occurs UNLINKED_TOKEN html /\
  inject html [] (JArray [JString "c"]) about site
  = OK ("<i>" ++ Stringify.JSON_stringify about
          ++ "</i><a href='mo@example.org'>/*__CONTACT_EMAIL__*/</a><i>/*__ABOUT_JSON__*/</i>").
Proof.
intros site about html.
split; [apply StrFacts.indexOf_None; reflexivity|].
destruct (each_token_replaced_at_most_once html [] (JArray [JString "c"])
            about site)
  as (h1 & h2 & h3 & _ & _ & _ & Hm & Hs).
change (contact_email site) with (OK (A := string) "mo@example.org") in Hm.
destruct Hm as (out & _ & Ho).
destruct (Hs eq_refl eq_refl eq_refl eq_refl eq_refl)
  as (_ & _ & _ & _ & Hl).
destruct (Hl "<i>"
            [(TAbout, "</i><a href='"); (TEmail, "'>"); (TEmail, "</a><i>");
             (TAbout, "</i>")]
            eq_refl eq_refl eq_refl) as [_ Hout].
rewrite Ho. f_equal.
exact (Hout "mo@example.org" out eq_refl eq_refl Ho).
Defined.

(** C3, the claim as stated fails.  In this template the posts token is
    followed at once by the characters [*__UNLINKED_JSON__*/], so that
    the last character of the posts token is the first one of an
    unlinked-comments token; a second unlinked-comments token stands
    further on.  The data hold no token and no dollar sign.  The step of
    the posts takes its token away, and with it the first occurrence of
    the unlinked-comments token; the step of the unlinked comments then
    replaces the second occurrence of the template.  The page holds the
    comments where the second occurrence stood and no unlinked-comments
    token any more, and the characters of the first occurrence that the
    posts token did not share are still in it. *)
Lemma second_occurrence_of_the_template_is_replaced :
  let mid := "*__UNLINKED_JSON__*/ " in
  let html := POSTS_TOKEN ++ mid ++ UNLINKED_TOKEN in
  let comments := JArray [JString "c"] in
  let out := "[]" ++ mid ++ Stringify.JSON_stringify comments in
  html = "/*__POSTS_JSON__*/*__UNLINKED_JSON__*/ /*__UNLINKED_JSON__*/" /\
  Str.first_occurrence UNLINKED_TOKEN html
    "/*__POSTS_JSON__*" (" " ++ UNLINKED_TOKEN) /\
  inject html [] comments (JObject []) (JObject []) = OK out /\
  ~ Str.occurs UNLINKED_TOKEN out.
Proof.
split; [reflexivity|].
split; [now apply first_occurrence_at|].
split; [reflexivity|].
apply StrFacts.indexOf_None. reflexivity.
Qed.

(* ================================================================= *)
(** ** Post files that do not parse, in the build *)

(** A site with three post files: two posts whose dates are numbers, and
    a file cut short. *)
Definition number_dates_and_a_bad_file : list (string * node) :=
  [("templates", Dir [("index.html", File template_text)]);
   ("content",
    Dir [("posts",
          Dir [("a.json", File ("{" ++ quoted "date" ++ ": 20260207}"));
               ("b.json", File ("{" ++ quoted "date" ++ ": 20260101}"));
               ("c.json", File "{oops")])])].

(** C4 (as amended).  A build whose template is there, whose posts
    directory is there, whose site document gives a contact email and
    whose assets and domain file can be copied, and in which the posts
    that load are no [null] and have string or absent dates.  Each
    [.json] file of the posts directory gives either its post or one
    warning that names it and quotes the exception, never both: the posts
    are those of the files that parse, the warnings those of the files
    that do not, both in the order of the listing.  The build goes on: it
    completes with status 0, its lines being the start line, these
    warnings, the count of the loaded posts, the line of the page, those
    of the copies and the completion line.  [readPosts] returns the
    loaded posts, sorted, all of them and no other, and the page is the
    injection of these; where the template holds the posts token and
    their serialization holds neither [*__] nor a pattern of [replace],
    the page holds this serialization as printed, and in it the text of
    every loaded post. *)
Theorem malformed_post_skipped_with_warning {host : Host}
        (start finish : Z) (es entries : list (string * node))
        (html email : string) :
  lookup TEMPLATE (Dir es) = Some (File html) ->
  lookup POSTS_DIR (Dir es) = Some (Dir entries) ->
  let names := json_names entries in
  let posts := loaded (Dir es) names in
  let bad := warnings (Dir es) names in
  Forall Posts.dated posts ->
  contact_email (stored (content_file "site.json") (JObject []) (Dir es))
  = OK email ->
  assets_fine es -> cname_fine es ->
  let r := run start finish (Dir es) in
  posts
  = flat_map (fun f => match load (Dir es) f with
                       | OK post => [post]
                       | Throw _ => []
                       end) names /\
  bad
  = flat_map (fun f => match load (Dir es) f with
                       | OK _ => []
                       | Throw e =>
                           [(Warn, "  ⚠  " ++ f ++ ": " ++ exn_message e)]
                       end) names /\
  List.length posts + List.length bad = List.length names /\
  result_of r = Normal tt /\
  exit_status (result_of r) = 0%Z /\
  printed r
  = ([started] ++ bad
       ++ [(Log, found_line (List.length posts)); page_line]
       ++ assets_line es ++ cname_line es
       ++ [(Log, complete_line (finish - start))])%list /\
  exists sorted page,
    readPosts (Dir es) = Outcome (Dir es) bad (Normal sorted) /\
    Permutation posts sorted /\
    inject html sorted
      (stored (content_file "unlinked-comments.json") (JArray []) (Dir es))
      (stored (content_file "about.json")
         (JObject [("en", JString ""); ("es", JString "")]) (Dir es))
      (stored (content_file "site.json") (JObject []) (Dir es))
    = OK page /\
    lookup (path_join DIST_DIR "index.html") (fs_after r) = Some (File page) /\
    (Str.occurs POSTS_TOKEN html ->
     plain_data (Stringify.JSON_stringify (JArray sorted)) = true ->
     Str.occurs (Stringify.JSON_stringify (JArray sorted)) page /\
     forall post,
       In post posts ->
       Str.occurs (Stringify.SerializeJSONProperty Stringify.gap post) page).
Proof.
intros Ht Hp names posts bad Hd He Ha Hc r.
split; [reflexivity|]. split; [reflexivity|].
split; [apply Skipped.each_file_loads_or_warns|].
destruct (@SortFacts.sort_keyed host JSON Posts.date_of Posts.dated
            by_date Posts.by_date_dated posts Hd) as (sorted & E & P & _).
assert (R : readPosts (Dir es) = Outcome (Dir es) bad (Normal sorted)).
{ rewrite (readPosts_directory (Dir es) Hp). fold names. fold posts.
  now rewrite E. }
destruct (inject html sorted
            (stored (content_file "unlinked-comments.json") (JArray [])
               (Dir es))
            (stored (content_file "about.json")
               (JObject [("en", JString ""); ("es", JString "")]) (Dir es))
            (stored (content_file "site.json") (JObject []) (Dir es)))
  as [page|e] eqn:I.
2:{ unfold inject in I. rewrite He in I. discriminate. }
subst r.
rewrite (@build_completes host start finish es html page sorted bad
           Ht R I Ha Hc).
cbn [result_of exit_status fs_after printed].
split; [reflexivity|]. split; [reflexivity|]. split.
- now rewrite (Permutation_length P).
- exists sorted, page. split; [exact R|]. split; [exact P|].
  split; [exact I|]. split.
  + unfold with_dist, DIST_DIR, ROOT, path_join. cbn [app lookup].
    rewrite assoc_recreated. reflexivity.
  + intros Hk Hplain.
    pose proof (@posts_text_in_page html page sorted _ _ _ Hk Hplain I) as Hin.
    split; [exact Hin|]. intros post Hpost.
    apply Verbatim.occurs_trans with (2 := Hin).
    exact (Verbatim.element_printed EmptyString post sorted
             (Permutation_in _ P Hpost)).
Qed.

Lemma malformed_post_skipped_with_warning_witness :
  let es :=
    [("templates", Dir [("index.html", File template_text)]);
     ("content", Dir [("posts", Dir five_posts)]);
     ("assets", Dir [("css", Dir [("site.css", File "body{}")]);
                     ("logo.svg", File "<svg/>")]);
     ("CNAME", File "gxwechsler.com")] in
  let r := run (host := example_host) 0 5 (Dir es) in
  let four :=
    [dated_post "2026-02-07"; dated_post "2026-01-01";
     dated_post "2025-12-31"; JObject []] in
  result_of r = Normal tt /\
  warnings (host := example_host) (Dir es) (json_names five_posts)
  = [(Warn, "  ⚠  c.json: Unexpected token in JSON")] /\
  List.length (printed r) = 7 /\
  lookup (path_join DIST_DIR "index.html") (fs_after r)
  = Some (File ("<script>const POSTS = "
                  ++ Stringify.JSON_stringify (JArray four)
                  ++ "; const MAIL = '';</script>")).
Proof.
intros es r four.
assert (Hd : Forall Posts.dated
               (loaded (host := example_host) (Dir es) (json_names five_posts)))
  by (repeat constructor; discriminate).
assert (Ha : assets_fine es) by (split; reflexivity).
destruct (@malformed_post_skipped_with_warning example_host 0 5 es
            five_posts template_text EmptyString eq_refl eq_refl Hd eq_refl
            Ha eq_refl)
  as (_ & Hb & _ & Hr & _ & Hl & sorted & page & R & _ & I & Hp & _).
split; [exact Hr|]. split; [rewrite Hb; reflexivity|].
split; [unfold r; rewrite Hl; reflexivity|].
assert (Hs : sorted = four).
{ pose proof one_bad_file_among_five as X. change site with (Dir es) in X.
  rewrite X in R. now injection R as <-. }
subst sorted. unfold r. rewrite Hp. vm_compute in I. injection I as <-.
reflexivity.
Defined.

(** C4, the claim as stated fails: two post files are well-formed and
    give their dates as numbers, a third is cut short.  The third gives
    its warning and the two posts are loaded, but the build does not go
    on: the sort throws, the build ends with status 1 behind the
    warning, and the output directory holds no page. *)
Lemma bad_file_among_number_dates_stops_the_build :
  let root := Dir number_dates_and_a_bad_file in
  let r := run (host := example_host) 0 5 root in
  loaded (host := example_host) root ["a.json"; "b.json"; "c.json"]
  = [JObject [("date", JNumber "20260207")];
     JObject [("date", JNumber "20260101")]] /\
  printed r = [started; (Warn, "  ⚠  c.json: Unexpected token in JSON")] /\
  result_of r
  = Thrown (TypeError "(b.date || '').localeCompare is not a function") /\
  exit_status (result_of r) = 1%Z /\
  lookup DIST_DIR (fs_after r) = Some (Dir []).
Proof. repeat split; vm_compute; reflexivity. Qed.

(* ================================================================= *)
(** ** A bilingual field with a [null] *)

(** The text of [{ "en": "text", "es": null }] at the left margin. *)
Example bilingual_with_null_printed :
  Stringify.JSON_stringify (JObject [("en", JString "text"); ("es", JNull)])
  = "{" ++ Stringify.newline
      ++ "  " ++ Examples.quoted "en" ++ ": " ++ Examples.quoted "text" ++ ","
      ++ Stringify.newline
      ++ "  " ++ Examples.quoted "es" ++ ": null" ++ Stringify.newline
      ++ "}".
Proof. reflexivity. Qed.

(** A site whose one post has a title in English only, with two dollar
    signs in it. *)
Definition site_with_bilingual_dollar_signs : node :=
  Dir [("templates", Dir [("index.html", File "POSTS = /*__POSTS_JSON__*/;")]);
       ("content",
        Dir [("posts",
              Dir [("a.json",
                    File ("{" ++ quoted "title" ++ ": {" ++ quoted "en" ++ ": "
                              ++ quoted "US$$ 5" ++ ", " ++ quoted "es"
                              ++ ": null}}"))])])].

(** C8, at a failing input: a post whose title is
    [{ "en": "US$$ 5", "es": null }].  The post is loaded as it is
    written, and the page that the build writes holds the field with
    another English text, [US$ 5]: [replace] reads the two dollar signs
    of the serialized post as its pattern for one.  The field as
    [JSON.stringify] printed it is not in the page; its [null] is. *)
Lemma bilingual_field_with_dollar_signs_is_changed :
  let field := JObject [("en", JString "US$$ 5"); ("es", JNull)] in
  let other := JObject [("en", JString "US$ 5"); ("es", JNull)] in
  let r := run (host := example_host) 0 5 site_with_bilingual_dollar_signs in
  let page :=
    "POSTS = "
      ++ Stringify.JSON_stringify (JArray [JObject [("title", other)]])
      ++ ";" in
  loaded (host := example_host) site_with_bilingual_dollar_signs ["a.json"]
  = [JObject [("title", field)]] /\
  inject "POSTS = /*__POSTS_JSON__*/;" [JObject [("title", field)]]
    (JArray []) (JObject []) (JObject [])
  = OK page /\
  result_of r = Normal tt /\
  lookup (path_join DIST_DIR "index.html") (fs_after r) = Some (File page) /\
  ~ Str.occurs
      (Stringify.SerializeJSONProperty (Stringify.gap ++ Stringify.gap) field)
      page /\
  Str.occurs
    (Stringify.SerializeJSONProperty (Stringify.gap ++ Stringify.gap) other)
    page /\
  Str.occurs (Stringify.QuoteJSONString "es" ++ ": null") page.
Proof.
intros field other r page.
split; [vm_compute; reflexivity|]. split; [reflexivity|].
split; [vm_compute; reflexivity|]. split; [vm_compute; reflexivity|].
split; [apply StrFacts.indexOf_None; vm_compute; reflexivity|].
assert (Hpost : Str.occurs
                  (Stringify.SerializeJSONProperty Stringify.gap
                     (JObject [("title", other)])) page).
{ apply Verbatim.occurs_app_r, Verbatim.occurs_app_l.
  exact (Verbatim.element_printed EmptyString (JObject [("title", other)])
           [JObject [("title", other)]] (or_introl eq_refl)). }
assert (Hfield : Str.occurs
                   (Stringify.SerializeJSONProperty
                      (Stringify.gap ++ Stringify.gap) other) page).
{ apply Verbatim.occurs_trans with (2 := Hpost).
  apply Verbatim.occurs_trans
    with (2 := Verbatim.member_printed Stringify.gap "title" other
                 [("title", other)] (or_introl eq_refl)).
  apply Verbatim.occurs_app_r, Verbatim.occurs_app_r, Verbatim.occurs_refl. }
split; [exact Hfield|].
apply Verbatim.occurs_trans with (2 := Hfield).
apply Verbatim.occurs_trans
  with (2 := Verbatim.member_printed (Stringify.gap ++ Stringify.gap) "es"
               JNull [("en", JString "US$ 5"); ("es", JNull)]
               (or_intror (or_introl eq_refl))).
apply Verbatim.occurs_refl.
Qed.

(** X19.  A post with a bilingual field, in posts whose serialization
    holds neither [*__] nor a pattern of [replace], on a template that
    holds the posts token.  The page holds the post as [JSON.stringify]
    printed it, and in it the field as printed: its name, a colon and the
    object of the languages.  A language that is [null] stands there as
    the quoted language, a colon and [null]: it is neither left out nor
    made an empty string; for [{ "en": text, "es": null }] the printed
    field is written out. *)
Theorem null_language_is_printed_with_its_field (html out : string)
        (posts : list JSON) (unlinked about site : JSON)
        (members bilingual : list (string * JSON)) (field : string) :
  Str.occurs POSTS_TOKEN html ->
  plain_data (Stringify.JSON_stringify (JArray posts)) = true ->
  inject html posts unlinked about site = OK out ->
  In (JObject members) posts ->
  In (field, JObject bilingual) members ->
  let post_text :=
    Stringify.SerializeJSONProperty Stringify.gap (JObject members) in
  let field_text :=
    Stringify.QuoteJSONString field ++ ": "
      ++ Stringify.SerializeJSONProperty (Stringify.gap ++ Stringify.gap)
           (JObject bilingual) in
  Str.occurs post_text out /\
  Str.occurs field_text post_text /\
  Str.occurs field_text out /\
  (forall lang,
      In (lang, JNull) bilingual ->
      Str.occurs (Stringify.QuoteJSONString lang ++ ": null") field_text) /\
  (forall text,
      bilingual = [("en", JString text); ("es", JNull)] ->
      field_text
      = Stringify.QuoteJSONString field ++ ": " ++ "{" ++ Stringify.newline
          ++ "      " ++ Stringify.QuoteJSONString "en" ++ ": "
          ++ Stringify.QuoteJSONString text ++ "," ++ Stringify.newline
          ++ "      " ++ Stringify.QuoteJSONString "es" ++ ": null"
          ++ Stringify.newline ++ "    }").
Proof.
intros Ht Hd Hi Hp Hf post_text field_text.
pose proof (@posts_text_in_page html out posts _ _ _ Ht Hd Hi) as Hin.
assert (H1 : Str.occurs post_text out).
{ apply Verbatim.occurs_trans with (2 := Hin).
  exact (Verbatim.element_printed EmptyString _ posts Hp). }
assert (H2 : Str.occurs field_text post_text)
  by exact (Verbatim.member_printed Stringify.gap field _ members Hf).
split; [exact H1|]. split; [exact H2|].
split; [exact (Verbatim.occurs_trans H2 H1)|]. split.
- intros lang Hl. unfold field_text.
  apply Verbatim.occurs_app_r, Verbatim.occurs_app_r.
  exact (Verbatim.member_printed (Stringify.gap ++ Stringify.gap) lang JNull
           bilingual Hl).
- intros text ->. unfold field_text.
  cbn [Stringify.SerializeJSONProperty map]. unfold Stringify.wrap.
  cbn [Str.join]. rewrite !StrFacts.append_assoc. reflexivity.
Qed.

Lemma null_language_is_printed_with_its_field_witness :
  exists out,
    inject Examples.template_text [bilingual_post] (JArray []) (JObject [])
      (JObject []) = OK out /\
    Str.occurs
      (Stringify.QuoteJSONString "title" ++ ": " ++ "{" ++ Stringify.newline
         ++ "      " ++ Stringify.QuoteJSONString "en" ++ ": "
         ++ Stringify.QuoteJSONString "text" ++ "," ++ Stringify.newline
         ++ "      " ++ Stringify.QuoteJSONString "es" ++ ": null"
         ++ Stringify.newline ++ "    }")
      out.
Proof.
eexists. split; [reflexivity|].
assert (Ht : Str.occurs POSTS_TOKEN Examples.template_text)
  by (exists "<script>const POSTS = ",
        "; const MAIL = '/*__CONTACT_EMAIL__*/';</script>"; reflexivity).
exact (proj1 (proj2 (proj2
         (@null_language_is_printed_with_its_field Examples.template_text _
            [bilingual_post] (JArray []) (JObject []) (JObject [])
            [("id", JString "first");
             ("title", JObject [("en", JString "text"); ("es", JNull)])]
            [("en", JString "text"); ("es", JNull)] "title"
            Ht eq_refl eq_refl (or_introl eq_refl)
            (or_intror (or_introl eq_refl)))))).
Defined.

(* ================================================================= *)
(** ** A site without posts *)




(** The page of the site without posts. *)
Example page_without_posts :
  lookup (path_join DIST_DIR "index.html")
    (fs_after (run (host := example_host) 0 5 (Dir site_without_posts)))
  = Some (File "<script>const POSTS = []; const MAIL = 'mo@example.org';</script>").
Proof. vm_compute. reflexivity. Qed.
